(** * Balancer pool (x/gamm): a shallow embedding of the swap, join and exit code

    The development follows the two Go files of the gamm module:

    - [x/gamm/pool-models/balancer/amm.go]: the invariant solver, the swap
      calculators, the spot price, the single-asset join and the exit;
    - [x/gamm/keeper/swap.go]: the keeper entry points that validate a swap,
      stage the balances, store the pool and move the coins.

    Go values are modelled as follows.  [sdk.Int] is an integer of [Z];
    [sdk.Dec] is the integer of [Z] that holds the decimal scaled by
    [10^18], with the rounding rules of the SDK written out; a Go call that
    can return an error or abort with a panic returns a [result]; a method
    with a pointer receiver is a function that takes the pool and returns the
    pool it leaves behind.  The 256-bit overflow panics of [big.Int] are
    outside the model: amounts are taken within the range of the SDK. *)

From Stdlib Require Import ZArith Lia.
From stdpp Require Import base option list strings gmap.

Local Open Scope Z_scope.

(** ** Outcomes of a Go call *)

(** The error values the two files return, and the ones of the helpers they
    call. *)
Inductive error : Type :=
| ErrSameDenom          (* errors.New: cannot trade same denomination in and out *)
| ErrPoolLocked         (* types.ErrPoolLocked *)
| ErrInvalidMathApprox  (* types.ErrInvalidMathApprox *)
| ErrLimitMinAmount     (* types.ErrLimitMinAmount *)
| ErrLimitMaxAmount     (* types.ErrLimitMaxAmount *)
| ErrTooManyTokensOut   (* types.ErrTooManyTokensOut *)
| ErrTooManySharesOut   (* errors.New: too many shares out *)
| ErrJoinShape          (* errors.New: balancer pool only supports LP'ing with
                           one asset, or all assets in pool *)
| ErrTodoImplement      (* errors.New: TODO: Implement *)
| ErrDenomNotInPool     (* the pool has no asset of that denom *)
| ErrPoolNotFound       (* no pool is stored under that id *)
| ErrBadCoinCount       (* a helper was handed other than one coin *)
| ErrInsufficientFunds. (* the bank refuses a transfer *)

(** The run-time panics of the SDK calls the code makes. *)
Inductive panic : Type :=
| DivisionByZero        (* big.Int.Quo by zero, under Dec.Quo and Dec.QuoInt *)
| NegativeCoinAmount    (* sdk.NewCoin, sdk.NewDecCoinFromDec *)
| InvalidCoins          (* sdk.NewCoins: a coin is not positive, or a denom
                           comes twice *)
| PowBaseNotPositive    (* osmomath.Pow: base must be greater than 0 *)
| PowBaseTooLarge       (* osmomath.Pow: base must be lesser than two *)
| PowNoConvergence      (* the series of the model ran out of steps *)
| Int64OutOfBound       (* Int.Int64 on a value outside int64 *)
| IndexOutOfRange.      (* an index into an empty slice *)

Inductive result (A : Type) : Type :=
| Ok (a : A)
| Err (e : error)
| Panic (p : panic).

Arguments Ok {A} a.
Arguments Err {A} e.
Arguments Panic {A} p.

Definition bind {A B : Type} (r : result A) (k : A -> result B) : result B :=
  match r with
  | Ok a => k a
  | Err e => Err e
  | Panic p => Panic p
  end.

Notation "'let*' x ':=' r 'in' k" := (bind r (fun x => k))
  (at level 10, x pattern, r at level 100, k at level 200).

(** A call fails when it returns an error or panics. *)
Definition fails {A : Type} (r : result A) : Prop :=
  forall a, r <> Ok a.

(** ** The SDK's numbers and coins (cosmos-sdk [types]) *)

Module sdk.

(** [Precision = 18]; a [Dec] holds the value times [10^18]. *)
Definition precisionReuse : Z := 10 ^ 18.
Definition fivePrecision : Z := precisionReuse / 2.

Definition OneDec : Z := precisionReuse.

(** [chopPrecisionAndRound]: drops 18 digits, rounding half to even; a
    negative argument is negated, chopped and negated back. *)
Definition chopNonNeg (d : Z) : Z :=
  let quo := Z.quot d precisionReuse in
  let rem := Z.rem d precisionReuse in
  if rem =? 0 then quo
  else match rem ?= fivePrecision with
       | Lt => quo
       | Gt => quo + 1
       | Eq => if Z.even quo then quo else quo + 1
       end.

Definition chopPrecisionAndRound (d : Z) : Z :=
  if d <? 0 then - chopNonNeg (- d) else chopNonNeg d.

(** [Int.ToDec] *)
Definition ToDec (i : Z) : Z := i * precisionReuse.

Definition Add (d d2 : Z) : Z := d + d2.
Definition Sub (d d2 : Z) : Z := d - d2.
Definition Neg (d : Z) : Z := - d.

(** [Dec.Mul]: the product, chopped and rounded. *)
Definition Mul (d d2 : Z) : Z := chopPrecisionAndRound (d * d2).

(** [Dec.MulInt]: the product with an integer, exact. *)
Definition MulInt (d i : Z) : Z := d * i.

(** [Dec.Quo]: [d * 10^36 / d2] by big.Int.Quo (truncated, panics on a zero
    divisor), then chopped and rounded. *)
Definition Quo (d d2 : Z) : result Z :=
  if d2 =? 0 then Panic DivisionByZero
  else Ok (chopPrecisionAndRound
             (Z.quot (d * precisionReuse * precisionReuse) d2)).

(** [Dec.QuoInt]: big.Int.Quo by the integer (truncated toward zero). *)
Definition QuoInt (d i : Z) : result Z :=
  if i =? 0 then Panic DivisionByZero else Ok (Z.quot d i).

(** [Dec.TruncateInt] ([chopPrecisionAndTruncate]): toward zero. *)
Definition TruncateInt (d : Z) : Z := Z.quot d precisionReuse.

(** [Dec.TruncateDec] *)
Definition TruncateDec (d : Z) : Z := ToDec (TruncateInt d).

Definition IsZero (d : Z) : bool := d =? 0.
Definition IsPositive (d : Z) : bool := 0 <? d.

(** [sdk.Coin] and [sdk.DecCoin]. *)
Record Coin : Type := mkCoin { Denom : string; Amount : Z }.
Record DecCoin : Type := mkDecCoin { DecDenom : string; DecAmount : Z }.

(** [sdk.NewCoin] validates the coin it builds and panics on a negative
    amount.  (Denominations are taken to be well formed.) *)
Definition NewCoin (denom : string) (amount : Z) : result Coin :=
  if amount <? 0 then Panic NegativeCoinAmount else Ok (mkCoin denom amount).

(** [sdk.NewDecCoinFromDec] panics on a negative amount. *)
Definition NewDecCoinFromDec (denom : string) (amount : Z) : result DecCoin :=
  if amount <? 0 then Panic NegativeCoinAmount
  else Ok (mkDecCoin denom amount).

(** [Coins.Add] of one coin: [sdk.Coins] is kept sorted by denom, amounts
    of one denom are summed. *)
Fixpoint CoinsAdd (coins : list Coin) (c : Coin) : list Coin :=
  match coins with
  | [] => [c]
  | c0 :: rest =>
      match String.compare (Denom c) (Denom c0) with
      | Lt => c :: c0 :: rest
      | Eq => mkCoin (Denom c0) (Amount c0 + Amount c) :: rest
      | Gt => c0 :: CoinsAdd rest c
      end
  end.

(** [sdk.NewCoins]: the coins without those of amount zero, sorted by
    denom; panics unless every amount is positive and the denoms strictly
    increase ([Coins.Validate]). *)
Fixpoint insertCoin (c : Coin) (coins : list Coin) : list Coin :=
  match coins with
  | [] => [c]
  | c0 :: rest =>
      match String.compare (Denom c) (Denom c0) with
      | Gt => c0 :: insertCoin c rest
      | _ => c :: c0 :: rest
      end
  end.

Definition sortCoins (coins : list Coin) : list Coin :=
  fold_right insertCoin [] coins.

Fixpoint validCoins (coins : list Coin) : bool :=
  match coins with
  | [] => true
  | c :: rest =>
      (0 <? Amount c)
      && match rest with
         | [] => true
         | c1 :: _ =>
             match String.compare (Denom c) (Denom c1) with
             | Lt => true
             | _ => false
             end
         end
      && validCoins rest
  end.

Definition NewCoins (coins : list Coin) : result (list Coin) :=
  let newCoins := sortCoins (filter (fun c => negb (Amount c =? 0)) coins) in
  if validCoins newCoins then Ok newCoins else Panic InvalidCoins.

End sdk.

(** ** The power function (package [osmomath]) *)

Module osmomath.

(** [Dec.Power] of the SDK: an integer power by repeated squaring, every
    product chopped and rounded.  The loop [for i := power; i > 1] halves
    [i], so it follows the binary digits of the exponent. *)
Fixpoint PowerLoop (i : positive) (d tmp : Z) : Z :=
  match i with
  | xH => sdk.Mul d tmp
  | xO i' => PowerLoop i' (sdk.Mul d d) tmp
  | xI i' => PowerLoop i' (sdk.Mul d d) (sdk.Mul tmp d)
  end.

Definition Power (d : Z) (power : Z) : Z :=
  match power with
  | Zpos i => PowerLoop i d sdk.OneDec
  | _ => sdk.OneDec
  end.

Definition powPrecision : Z := 10 ^ 10. (* 0.00000001 *)
Definition one : Z := sdk.OneDec.
Definition two : Z := 2 * sdk.OneDec.

(** [AbsDifferenceWithSign a b = (|a - b|, a < b)]. *)
Definition AbsDifferenceWithSign (a b : Z) : Z * bool :=
  if b <=? a then (a - b, false) else (- a + b, true).

(** The loop of [PowApprox]: the binomial series of [(1 + x)^a] with
    [x = base - 1], summed until a term falls below [precision].  The Go
    loop has no bound of its own; [fuel] bounds the steps of the model. *)
Fixpoint PowApproxLoop (fuel : nat) (i : Z) (a x : Z) (xneg : bool)
    (precision term sum : Z) (negative : bool) : result Z :=
  if term <? precision then Ok sum
  else match fuel with
       | O => Panic PowNoConvergence
       | S fuel' =>
           let bigK := sdk.MulInt sdk.OneDec i in
           let '(c, cneg) := AbsDifferenceWithSign a (sdk.Sub bigK one) in
           let* term' := sdk.Quo (sdk.Mul term (sdk.Mul c x)) bigK in
           if sdk.IsZero term' then Ok sum
           else
             let negative' := xorb (xorb negative xneg) cneg in
             let sum' := if negative' then sdk.Sub sum term'
                         else sdk.Add sum term' in
             PowApproxLoop fuel' (i + 1) a x xneg precision term' sum' negative'
       end.

Definition powFuel : nat := Z.to_nat 100000.

Definition PowApprox (base exp precision : Z) : result Z :=
  let '(x, xneg) := AbsDifferenceWithSign base one in
  PowApproxLoop powFuel 1 exp x xneg precision sdk.OneDec sdk.OneDec false.

(** Modelled from the spec: [osmomath.Pow], the power function the solver
    calls, is not among the source files.  The spec (4.1, 9) asks for
    [base ^ exp] by one fixed iterative approximation of bounded error, and
    for a domain error on a base that is not positive.  The definition is
    that approximation as the package computes it: the exponent is split
    into its integer part, raised exactly by [Dec.Power], and its
    fractional part, approximated by the binomial series to [powPrecision];
    bases outside (0, 2) are refused.  (The package's square-root shortcut
    for the exponent one half is left out.) *)
Definition Pow (base exp : Z) : result Z :=
  if negb (sdk.IsPositive base) then Panic PowBaseNotPositive
  else if two <=? base then Panic PowBaseTooLarge
  else
    let integer := sdk.TruncateDec exp in
    let fractional := sdk.Sub exp integer in
    let n := sdk.TruncateInt integer in
    if (n <? - 2 ^ 63) || (2 ^ 63 <=? n) then Panic Int64OutOfBound
    else
      (* uint64(integer.TruncateInt64()) *)
      let power := if n <? 0 then n + 2 ^ 64 else n in
      let integerPow := Power base power in
      if sdk.IsZero fractional then Ok integerPow
      else
        let* fractionalPow := PowApprox base fractional powPrecision in
        Ok (sdk.Mul integerPow fractionalPow).

End osmomath.

(** ** The pool (package [balancer]) *)

Record PoolAsset : Type := mkPoolAsset {
  Token : sdk.Coin;   (* the balance held of one denom *)
  Weight : Z          (* sdk.Int *)
}.

Record Pool : Type := mkPool {
  Address : string;
  Id : Z;                        (* uint64 *)
  SwapFee : Z;                   (* sdk.Dec *)
  ActiveWindow : option (Z * Z); (* spec 3: optional [start, end) *)
  TotalShares : sdk.Coin;
  PoolAssets : list PoolAsset
}.

Definition balance (a : PoolAsset) : Z := sdk.Amount (Token a).
Definition denomOf (a : PoolAsset) : string := sdk.Denom (Token a).

(** The pool-state invariant of the spec (3): every balance is at least 0. *)
Definition balances_nonneg (p : Pool) : Prop :=
  Forall (fun a => 0 <= balance a) (PoolAssets p).

(** *** Accessors of the pool that the two files call

    These small methods of [Pool] are declared outside the two source files.
    Each is modelled from the spec's data model (3): a pool is an ordered
    sequence of assets with unique denoms, found by denom. *)

(** Modelled from the spec: [Pool.GetPoolAsset] (not in the sources); the
    asset of that denom, or the unknown-denomination error. *)
Fixpoint findAsset (assets : list PoolAsset) (denom : string) : option PoolAsset :=
  match assets with
  | [] => None
  | a :: rest => if String.eqb (denomOf a) denom then Some a
                 else findAsset rest denom
  end.

Definition GetPoolAsset (p : Pool) (denom : string) : result PoolAsset :=
  match findAsset (PoolAssets p) denom with
  | Some a => Ok a
  | None => Err ErrDenomNotInPool
  end.

(** Modelled from the spec: [Pool.parsePoolAssetsByDenoms] (not in the
    sources); both assets, or the unknown-denomination error. *)
Definition parsePoolAssetsByDenoms (p : Pool) (tokenADenom tokenBDenom : string)
  : result (PoolAsset * PoolAsset) :=
  let* Aasset := GetPoolAsset p tokenADenom in
  let* Basset := GetPoolAsset p tokenBDenom in
  Ok (Aasset, Basset).

(** Modelled from the spec: [Pool.parsePoolAssets] (not in the sources); the
    single coin of [tokensA] with its asset and the asset of the other
    denom. *)
Definition parsePoolAssets (p : Pool) (tokensA : list sdk.Coin) (tokenBDenom : string)
  : result (sdk.Coin * PoolAsset * PoolAsset) :=
  match tokensA with
  | [tokenA] =>
      let* (Aasset, Basset) := parsePoolAssetsByDenoms p (sdk.Denom tokenA) tokenBDenom in
      Ok (tokenA, Aasset, Basset)
  | _ => Err ErrBadCoinCount
  end.

(** Modelled from the spec: [Pool.GetTotalWeight] (not in the sources); the
    sum of all weights in the pool (3). *)
Definition GetTotalWeight (p : Pool) : Z :=
  fold_right (fun a acc => Weight a + acc) 0 (PoolAssets p).

Definition GetTotalShares (p : Pool) : Z := sdk.Amount (TotalShares p).

Definition NumAssets (p : Pool) : nat := length (PoolAssets p).

(** Modelled from the spec: [Pool.GetTotalLpBalances] (not in the sources);
    the balance of every pool asset, in the pool's order (4.3: for every
    pool asset). *)
Definition GetTotalLpBalances (p : Pool) : list sdk.Coin :=
  map Token (PoolAssets p).

(** Modelled from the spec: [Pool.UpdatePoolAssetBalance] (not in the
    sources); the balance of the coin's denom becomes the coin's amount
    (4.3: the remaining balance is reduced by exitAmt), an unknown denom is
    an error and leaves the pool as it is. *)
Fixpoint setBalance (assets : list PoolAsset) (coin : sdk.Coin) : list PoolAsset :=
  match assets with
  | [] => []
  | a :: rest =>
      if String.eqb (denomOf a) (sdk.Denom coin)
      then mkPoolAsset coin (Weight a) :: rest
      else a :: setBalance rest coin
  end.

Definition withAssets (p : Pool) (assets : list PoolAsset) : Pool :=
  mkPool (Address p) (Id p) (SwapFee p) (ActiveWindow p) (TotalShares p) assets.

Definition withTotalShares (p : Pool) (c : sdk.Coin) : Pool :=
  mkPool (Address p) (Id p) (SwapFee p) (ActiveWindow p) c (PoolAssets p).

Definition UpdatePoolAssetBalance (p : Pool) (coin : sdk.Coin) : result unit * Pool :=
  match findAsset (PoolAssets p) (sdk.Denom coin) with
  | Some _ => (Ok tt, withAssets p (setBalance (PoolAssets p) coin))
  | None => (Err ErrDenomNotInPool, p)
  end.

(** ** amm.go *)

Section Amm.

(** [osmomath.Pow], a parameter of the calculators: what is proved in this
    section holds whatever the power function computes. *)
Variable Pow : Z -> Z -> result Z.

(** [solveConstantFunctionInvariant]:
    [balanceYDelta = balanceY * (1 - (balanceXBefore/balanceXAfter)^(weightX/weightY))]. *)
Definition solveConstantFunctionInvariant
    (tokenBalanceFixedBefore tokenBalanceFixedAfter tokenWeightFixed
     tokenBalanceUnknownBefore tokenWeightUnknown : Z) : result Z :=
  (* weightRatio = (weightX/weightY) *)
  let* weightRatio := sdk.Quo tokenWeightFixed tokenWeightUnknown in
  (* y = balanceXBefore/balanceYAfter *)
  let* y := sdk.Quo tokenBalanceFixedBefore tokenBalanceFixedAfter in
  (* amountY = balanceY * (1 - (y ^ weightRatio)) *)
  let* foo := Pow y weightRatio in
  let multiplier := sdk.Sub sdk.OneDec foo in
  Ok (sdk.Mul tokenBalanceUnknownBefore multiplier).

(** [Pool.CalcOutAmtGivenIn] *)
Definition CalcOutAmtGivenIn (p : Pool) (tokensIn : list sdk.Coin)
    (tokenOutDenom : string) (swapFee : Z) : result sdk.DecCoin :=
  let* (tokenIn, poolAssetIn, poolAssetOut) :=
    parsePoolAssets p tokensIn tokenOutDenom in
  let tokenAmountInAfterFee :=
    sdk.Mul (sdk.ToDec (sdk.Amount tokenIn)) (sdk.Sub sdk.OneDec swapFee) in
  let poolTokenInBalance := sdk.ToDec (balance poolAssetIn) in
  let poolPostSwapInBalance := sdk.Add poolTokenInBalance tokenAmountInAfterFee in
  let* tokenAmountOut :=
    solveConstantFunctionInvariant
      poolTokenInBalance poolPostSwapInBalance (sdk.ToDec (Weight poolAssetIn))
      (sdk.ToDec (balance poolAssetOut)) (sdk.ToDec (Weight poolAssetOut)) in
  sdk.NewDecCoinFromDec tokenOutDenom tokenAmountOut.

(** [Pool.CalcInAmtGivenOut] *)
Definition CalcInAmtGivenOut (p : Pool) (tokensOut : list sdk.Coin)
    (tokenInDenom : string) (swapFee : Z) : result sdk.DecCoin :=
  let* (tokenOut, poolAssetOut, poolAssetIn) :=
    parsePoolAssets p tokensOut tokenInDenom in
  let poolTokenOutBalance := sdk.ToDec (balance poolAssetOut) in
  let poolPreSwapOutBalance :=
    sdk.Sub poolTokenOutBalance (sdk.ToDec (sdk.Amount tokenOut)) in
  let* tokenAmountIn :=
    solveConstantFunctionInvariant
      poolTokenOutBalance poolPreSwapOutBalance (sdk.ToDec (Weight poolAssetOut))
      (sdk.ToDec (balance poolAssetIn)) (sdk.ToDec (Weight poolAssetIn)) in
  let* tokenAmountInBeforeFee :=
    sdk.Quo tokenAmountIn (sdk.Sub sdk.OneDec swapFee) in
  sdk.NewDecCoinFromDec tokenInDenom tokenAmountInBeforeFee.

(** [Pool.SpotPrice]:
    [spot_price = (Base_supply / Weight_base) / (Quote_supply / Weight_quote)]. *)
Definition SpotPrice (p : Pool) (quoteAsset baseAsset : string) : result Z :=
  let* (quote, base) := parsePoolAssetsByDenoms p quoteAsset baseAsset in
  let* numerator := sdk.QuoInt (sdk.ToDec (balance base)) (Weight base) in
  let* denom := sdk.QuoInt (sdk.ToDec (balance quote)) (Weight quote) in
  sdk.Quo numerator denom.

(** [calcPoolOutGivenSingleIn] *)
Definition calcPoolOutGivenSingleIn
    (tokenBalanceIn normalizedTokenWeightIn poolShares tokenAmountIn swapFee : Z)
  : result Z :=
  let effectiveSwapFee :=
    sdk.Mul (sdk.Sub sdk.OneDec normalizedTokenWeightIn) swapFee in
  let tokenAmountInAfterFee :=
    sdk.Mul tokenAmountIn (sdk.Sub sdk.OneDec effectiveSwapFee) in
  let* poolAmountOut :=
    solveConstantFunctionInvariant
      (sdk.Add tokenBalanceIn tokenAmountInAfterFee)
      tokenBalanceIn
      normalizedTokenWeightIn
      poolShares
      sdk.OneDec in
  Ok (sdk.Neg poolAmountOut).

(** [Pool.singleAssetJoin].  The receiver is a pointer, but the body only
    reads the pool: the function returns the number of shares and the pool
    is the one it was given. *)
Definition singleAssetJoin (p : Pool) (tokenIn : sdk.Coin) (swapFee : Z)
  : result Z * Pool :=
  (match GetPoolAsset p (sdk.Denom tokenIn) with
   | Err e => Err e
   | Panic x => Panic x
   | Ok tokenInPoolAsset =>
       let* normalizedWeight :=
         sdk.Quo (sdk.ToDec (Weight tokenInPoolAsset))
                 (sdk.ToDec (GetTotalWeight p)) in
       let* poolOut :=
         calcPoolOutGivenSingleIn
           (sdk.ToDec (balance tokenInPoolAsset))
           normalizedWeight
           (sdk.ToDec (GetTotalShares p))
           (sdk.ToDec (sdk.Amount tokenIn))
           swapFee in
       Ok (sdk.TruncateInt poolOut)
   end, p).

(** [Pool.JoinPool] *)
Definition JoinPool (p : Pool) (tokensIn : list sdk.Coin) (swapFee : Z)
  : result Z * Pool :=
  match tokensIn with
  | [tokenIn] => singleAssetJoin p tokenIn swapFee
  | _ =>
      if negb (Nat.eqb (length tokensIn) (NumAssets p))
      then (Err ErrJoinShape, p)
      else (Err ErrTodoImplement, p)
  end.

End Amm.

(** [Pool.ExitPool].  The receiver is a pointer: the function returns the
    exited coins (or the failure) and the pool as the call leaves it. *)

(** The body of the loop [for _, asset := range balances]. *)
Fixpoint exitLoop (shareOutRatio : Z) (balances : list sdk.Coin)
    (exitedCoins : list sdk.Coin) (p : Pool) : result (list sdk.Coin) * Pool :=
  match balances with
  | [] => (Ok exitedCoins, p)
  | asset :: rest =>
      let exitAmt :=
        sdk.TruncateInt (sdk.MulInt shareOutRatio (sdk.Amount asset)) in
      if exitAmt <=? 0 then exitLoop shareOutRatio rest exitedCoins p
      else
        match sdk.NewCoin (sdk.Denom asset) exitAmt with
        | Err e => (Err e, p)
        | Panic x => (Panic x, p)
        | Ok exited =>
            let exitedCoins' := sdk.CoinsAdd exitedCoins exited in
            (* update pool assets for this exit amount. *)
            let newAmt := sdk.Amount asset - exitAmt in
            match sdk.NewCoin (sdk.Denom asset) newAmt with
            | Err e => (Err e, p)
            | Panic x => (Panic x, p)
            | Ok c =>
                (* the error of UpdatePoolAssetBalance is dropped *)
                let p' := snd (UpdatePoolAssetBalance p c) in
                exitLoop shareOutRatio rest exitedCoins' p'
            end
        end
  end.

Definition refundedSharesOf (exitingShares exitFee : Z) : Z :=
  if negb (sdk.IsZero exitFee)
  then
    (* exitingShares * (1 - exit fee) *)
    let oneSubExitFee := sdk.Sub sdk.OneDec exitFee in
    sdk.TruncateInt (sdk.MulInt oneSubExitFee exitingShares)
  else exitingShares.

Definition ExitPool (p : Pool) (exitingShares : Z) (exitFee : Z)
  : result (list sdk.Coin) * Pool :=
  let totalShares := GetTotalShares p in
  if totalShares <=? exitingShares then (Err ErrTooManySharesOut, p)
  else
    let refundedShares := refundedSharesOf exitingShares exitFee in
    match sdk.QuoInt (sdk.ToDec totalShares) refundedShares with
    | Err e => (Err e, p)
    | Panic x => (Panic x, p)
    | Ok shareOutRatio =>
        (* Make it shareOutRatio * pool LP balances *)
        let balances := GetTotalLpBalances p in
        match exitLoop shareOutRatio balances [] p with
        | (Ok exitedCoins, p') =>
            match sdk.NewCoin (sdk.Denom (TotalShares p'))
                              (totalShares - exitingShares) with
            | Ok shares => (Ok exitedCoins, withTotalShares p' shares)
            | Err e => (Err e, p')
            | Panic x => (Panic x, p')
            end
        | other => other
        end
    end.

(** Modelled from the spec: [Pool.parsePoolAssetsCoins] (not in the sources);
    it checks that each side is one coin and finds the two assets. *)
Definition parsePoolAssetsCoins (p : Pool) (tokensA tokensB : list sdk.Coin)
  : result (PoolAsset * PoolAsset) :=
  match tokensB with
  | [tokenB] =>
      let* (_, Aasset, Basset) := parsePoolAssets p tokensA (sdk.Denom tokenB) in
      Ok (Aasset, Basset)
  | _ => Err ErrBadCoinCount
  end.

(** Modelled from the spec: [Pool.UpdatePoolAssetBalances] (not in the
    sources); [UpdatePoolAssetBalance] for each coin, up to the first
    error. *)
Fixpoint UpdatePoolAssetBalances (p : Pool) (coins : list sdk.Coin)
  : result unit * Pool :=
  match coins with
  | [] => (Ok tt, p)
  | c :: rest =>
      match UpdatePoolAssetBalance p c with
      | (Ok _, p') => UpdatePoolAssetBalances p' rest
      | other => other
      end
  end.

(** [Pool.ApplySwap] *)
Definition ApplySwap (p : Pool) (tokensIn tokensOut : list sdk.Coin)
  : result unit * Pool :=
  match parsePoolAssetsCoins p tokensIn tokensOut with
  | Err e => (Err e, p)
  | Panic x => (Panic x, p)
  | Ok (inPoolAsset, outPoolAsset) =>
      match tokensIn, tokensOut with
      | tokenIn0 :: _, tokenOut0 :: _ =>
          let inToken :=
            sdk.mkCoin (denomOf inPoolAsset)
                       (balance inPoolAsset + sdk.Amount tokenIn0) in
          let outToken :=
            sdk.mkCoin (denomOf outPoolAsset)
                       (balance outPoolAsset - sdk.Amount tokenOut0) in
          match sdk.NewCoins [inToken; outToken] with
          | Ok coins => UpdatePoolAssetBalances p coins
          | Err e => (Err e, p)
          | Panic x => (Panic x, p)
          end
      | _, _ => (Panic IndexOutOfRange, p)
      end
  end.

(** ** keeper/swap.go *)

(** What the keeper reads and writes: the stored pools, by id, and the
    balances of the bank, by account and denom.  (Events, hooks and the
    total-liquidity record that [updatePoolForSwap] also feeds hold no pool
    data and return nothing; they are outside the model.) *)
Record State : Type := mkState {
  pools : gmap Z Pool;
  bank : gmap (string * string) Z
}.


(** Modelled from the spec: [Pool.IsActive] (not in the sources); the pool is
    active within its optional window [start, end) (3). *)
Definition IsActive (p : Pool) (blockTime : Z) : bool :=
  match ActiveWindow p with
  | None => true
  | Some (start, stop) => (start <=? blockTime) && (blockTime <? stop)
  end.

(** Modelled from the spec: [PoolI.AddPoolAssetBalance] and
    [PoolI.SubPoolAssetBalance] (not in the sources); the staged balance of
    the coin's denom is the old one plus, or minus, the coin's amount (4.4),
    an unknown denom is an error. *)
Definition AddPoolAssetBalance (p : Pool) (coin : sdk.Coin) : result Pool :=
  let* a := GetPoolAsset p (sdk.Denom coin) in
  Ok (withAssets p (setBalance (PoolAssets p)
        (sdk.mkCoin (sdk.Denom coin) (balance a + sdk.Amount coin)))).

Definition SubPoolAssetBalance (p : Pool) (coin : sdk.Coin) : result Pool :=
  let* a := GetPoolAsset p (sdk.Denom coin) in
  Ok (withAssets p (setBalance (PoolAssets p)
        (sdk.mkCoin (sdk.Denom coin) (balance a - sdk.Amount coin)))).

(** Modelled from the spec: [Keeper.SetPool] (not in the sources); the pool
    repository's [store] (6). *)
Definition SetPool (s : State) (p : Pool) : State :=
  mkState (<[Id p := p]> (pools s)) (bank s).

(** Modelled from the spec: [bankKeeper.SendCoins], the ledger service (6):
    [transfer(from, to, amount) -> success | InsufficientFunds]. *)
Definition balanceOf (b : gmap (string * string) Z) (addr denom : string) : Z :=
  default 0 (b !! (addr, denom)).

Fixpoint sendAll (b : gmap (string * string) Z) (from to : string)
    (coins : list sdk.Coin) : result (gmap (string * string) Z) :=
  match coins with
  | [] => Ok b
  | c :: rest =>
      let d := sdk.Denom c in
      if balanceOf b from d <? sdk.Amount c then Err ErrInsufficientFunds
      else
        let b1 := <[(from, d) := balanceOf b from d - sdk.Amount c]> b in
        let b2 := <[(to, d) := balanceOf b1 to d + sdk.Amount c]> b1 in
        sendAll b2 from to rest
  end.

Definition SendCoins (s : State) (from to : string) (coins : list sdk.Coin)
  : result State :=
  let* b := sendAll (bank s) from to coins in
  Ok (mkState (pools s) b).

(** Modelled from the spec: [Keeper.getPoolAndInOutAssets] (not in the
    sources); the repository's [load] and the two assets, by denom. *)
Definition getPoolAndInOutAssets (s : State) (poolId : Z)
    (tokenInDenom tokenOutDenom : string)
  : result (Pool * PoolAsset * PoolAsset) :=
  match pools s !! poolId with
  | None => Err ErrPoolNotFound
  | Some pool =>
      let* inPoolAsset := GetPoolAsset pool tokenInDenom in
      let* outPoolAsset := GetPoolAsset pool tokenOutDenom in
      Ok (pool, inPoolAsset, outPoolAsset)
  end.

(** [Keeper.updatePoolForSwap]: the pool as staged so far comes in, the
    state the call leaves behind goes out with the outcome. *)
Definition updatePoolForSwap (s : State) (pool : Pool) (sender : string)
    (tokenIn tokenOut : sdk.Coin) : result unit * State :=
  match AddPoolAssetBalance pool tokenIn with
  | Err e => (Err e, s) | Panic x => (Panic x, s)
  | Ok pool1 =>
  match SubPoolAssetBalance pool1 tokenOut with
  | Err e => (Err e, s) | Panic x => (Panic x, s)
  | Ok pool2 =>
  let s1 := SetPool s pool2 in
  match SendCoins s1 sender (Address pool2) [tokenIn] with
  | Err e => (Err e, s1) | Panic x => (Panic x, s1)
  | Ok s2 =>
  match SendCoins s2 (Address pool2) sender [tokenOut] with
  | Err e => (Err e, s2) | Panic x => (Panic x, s2)
  | Ok s3 => (Ok tt, s3)
  end end end end.

Section Keeper.

(** The calculators of package [types], which are not among the sources.
    [CalcOutGivenIn pool inAsset outAsset amount] stands for the call
    [types.CalcOutGivenIn(pool.Swap(), inPoolAsset.Normalize(pool.GetTotalWeight()),
    outPoolAsset.Normalize(pool.GetTotalWeight()), tokenIn.Amount, pool.GetPoolSwapFee())],
    a decimal or a panic; likewise [CalcInGivenOut].  The statements of
    this section hold for every such pair of functions. *)
Variable CalcOutGivenIn : Pool -> PoolAsset -> PoolAsset -> Z -> result Z.
Variable CalcInGivenOut : Pool -> PoolAsset -> PoolAsset -> Z -> result Z.

(** [Keeper.SwapExactAmountIn] *)
Definition SwapExactAmountIn (s : State) (blockTime : Z) (sender : string)
    (poolId : Z) (tokenIn : sdk.Coin) (tokenOutDenom : string)
    (tokenOutMinAmount : Z) : result Z * State :=
  if String.eqb (sdk.Denom tokenIn) tokenOutDenom then (Err ErrSameDenom, s)
  else
    match getPoolAndInOutAssets s poolId (sdk.Denom tokenIn) tokenOutDenom with
    | Err e => (Err e, s) | Panic x => (Panic x, s)
    | Ok (pool, inPoolAsset, outPoolAsset) =>
    if negb (IsActive pool blockTime) then (Err ErrPoolLocked, s)
    else
      match CalcOutGivenIn pool inPoolAsset outPoolAsset (sdk.Amount tokenIn) with
      | Err e => (Err e, s) | Panic x => (Panic x, s)
      | Ok dec =>
      let tokenOutAmount := sdk.TruncateInt dec in
      if tokenOutAmount <=? 0 then (Err ErrInvalidMathApprox, s)
      else if tokenOutAmount <? tokenOutMinAmount then (Err ErrLimitMinAmount, s)
      else
        (* the staged amounts, assigned to the local copies of the two
           assets *)
        let inPoolAsset' :=
          mkPoolAsset (sdk.mkCoin (denomOf inPoolAsset)
                         (balance inPoolAsset + sdk.Amount tokenIn))
                      (Weight inPoolAsset) in
        let outPoolAsset' :=
          mkPoolAsset (sdk.mkCoin (denomOf outPoolAsset)
                         (balance outPoolAsset - tokenOutAmount))
                      (Weight outPoolAsset) in
        let tokenOut := sdk.mkCoin tokenOutDenom tokenOutAmount in
        match updatePoolForSwap s pool sender tokenIn tokenOut with
        | (Ok _, s') => (Ok tokenOutAmount, s')
        | (Err e, s') => (Err e, s')
        | (Panic x, s') => (Panic x, s')
        end
      end
    end.

(** [Keeper.SwapExactAmountOut] *)
Definition SwapExactAmountOut (s : State) (blockTime : Z) (sender : string)
    (poolId : Z) (tokenInDenom : string) (tokenInMaxAmount : Z)
    (tokenOut : sdk.Coin) : result Z * State :=
  if String.eqb tokenInDenom (sdk.Denom tokenOut) then (Err ErrSameDenom, s)
  else
    match getPoolAndInOutAssets s poolId tokenInDenom (sdk.Denom tokenOut) with
    | Err e => (Err e, s) | Panic x => (Panic x, s)
    | Ok (pool, inPoolAsset, outPoolAsset) =>
    if negb (IsActive pool blockTime) then (Err ErrPoolLocked, s)
    else
      let poolOutBal := balance outPoolAsset in
      if poolOutBal <=? sdk.Amount tokenOut then (Err ErrTooManyTokensOut, s)
      else
        match CalcInGivenOut pool inPoolAsset outPoolAsset (sdk.Amount tokenOut) with
        | Err e => (Err e, s) | Panic x => (Panic x, s)
        | Ok dec =>
        let tokenInAmount := sdk.TruncateInt dec in
        if tokenInAmount <=? 0 then (Err ErrInvalidMathApprox, s)
        else if tokenInMaxAmount <? tokenInAmount then (Err ErrLimitMaxAmount, s)
        else
          let inPoolAsset' :=
            mkPoolAsset (sdk.mkCoin (denomOf inPoolAsset)
                           (balance inPoolAsset + tokenInAmount))
                        (Weight inPoolAsset) in
          let outPoolAsset' :=
            mkPoolAsset (sdk.mkCoin (denomOf outPoolAsset)
                           (balance outPoolAsset - sdk.Amount tokenOut))
                        (Weight outPoolAsset) in
          let tokenIn := sdk.mkCoin tokenInDenom tokenInAmount in
          match updatePoolForSwap s pool sender tokenIn tokenOut with
          | (Ok _, s') => (Ok tokenInAmount, s')
          | (Err e, s') => (Err e, s')
          | (Panic x, s') => (Panic x, s')
          end
        end
    end.

End Keeper.

(** ** The exit in the words of the spec (4.3)

    A second description of [ExitPool], written from the spec's sentences,
    against which the function above is compared. *)

(** [refundedShares = exitingShares * (1 - exitFee)], truncated; exactly
    [exitingShares] when the fee is zero. *)
Definition spec_refundedShares (exitingShares exitFee : Z) : Z :=
  if exitFee =? 0 then exitingShares
  else Z.quot ((10 ^ 18 - exitFee) * exitingShares) (10 ^ 18).

(** [shareOutRatio = totalShares / refundedShares], a decimal. *)
Definition spec_shareOutRatio (totalShares refundedShares : Z) : Z :=
  Z.quot (totalShares * 10 ^ 18) refundedShares.

(** [exitAmt = truncate(shareOutRatio * asset.balance)]. *)
Definition spec_exitAmt (shareOutRatio bal : Z) : Z :=
  Z.quot (shareOutRatio * bal) (10 ^ 18).

(** An asset after the exit: skipped when [exitAmt <= 0], else its balance
    reduced by [exitAmt]. *)
Definition spec_exitAsset (shareOutRatio : Z) (a : PoolAsset) : PoolAsset :=
  let exitAmt := spec_exitAmt shareOutRatio (balance a) in
  if exitAmt <=? 0 then a
  else mkPoolAsset (sdk.mkCoin (denomOf a) (balance a - exitAmt)) (Weight a).

(** The withdrawn [(denom, amount)] pairs, those of a positive amount. *)
Definition spec_exitCoin (shareOutRatio : Z) (acc : list sdk.Coin) (a : PoolAsset)
  : list sdk.Coin :=
  let exitAmt := spec_exitAmt shareOutRatio (balance a) in
  if exitAmt <=? 0 then acc
  else sdk.CoinsAdd acc (sdk.mkCoin (denomOf a) exitAmt).

Definition spec_exitPool (p : Pool) (exitingShares exitFee : Z)
  : list sdk.Coin * Pool :=
  let totalShares := GetTotalShares p in
  let refundedShares := spec_refundedShares exitingShares exitFee in
  let shareOutRatio := spec_shareOutRatio totalShares refundedShares in
  (fold_left (spec_exitCoin shareOutRatio) (PoolAssets p) [],
   mkPool (Address p) (Id p) (SwapFee p) (ActiveWindow p)
          (sdk.mkCoin (sdk.Denom (TotalShares p)) (totalShares - exitingShares))
          (map (spec_exitAsset shareOutRatio) (PoolAssets p))).

(** An asset is overdrawn when the exit amount computed for it is positive
    and larger than its balance. *)
Definition overdrawn (shareOutRatio : Z) (a : PoolAsset) : Prop :=
  0 < spec_exitAmt shareOutRatio (balance a) /\
  balance a < spec_exitAmt shareOutRatio (balance a).

(** ** Example pools *)

Definition asset (denom : string) (bal weight : Z) : PoolAsset :=
  mkPoolAsset (sdk.mkCoin denom bal) weight.

(** A pool of two assets [uatom] and [uosmo], swap fee 0.003. *)
Definition pool2 (balA wA balB wB shares : Z) : Pool :=
  mkPool "pool1" 1 (3 * 10 ^ 15) None (sdk.mkCoin "gamm/pool/1" shares)
         [asset "uatom" balA wA; asset "uosmo" balB wB].

(** Scenario A of the spec: balances 1000 and 1000, equal weights. *)
Definition poolA : Pool := pool2 1000 1 1000 1 100.

(** A pool with small balances under a large share supply. *)
Definition poolSmall : Pool := pool2 5 1 5 1 1000001.

(** A pool of three assets. *)
Definition pool3 : Pool :=
  mkPool "pool2" 2 (3 * 10 ^ 15) None (sdk.mkCoin "gamm/pool/2" 100)
         [asset "uatom" 1000 1; asset "uion" 1000 1; asset "uosmo" 1000 1].


(** ** The calculators in the words of the spec (4.2, 4.3)

    Second descriptions, written from the spec's numbered steps, against
    which the functions of amm.go are compared.  [solveInvariant] is the
    solver above; the decimals are those of the SDK. *)

Section SpecCalculators.

Variable Pow : Z -> Z -> result Z.

(** [calcOutGivenIn]: steps 1 to 3 of the spec. *)
Definition spec_calcOutGivenIn (poolAssetIn poolAssetOut : PoolAsset)
    (tokenInAmount swapFee : Z) : result Z :=
  let tokenInAfterFee :=
    sdk.Mul (sdk.ToDec tokenInAmount) (sdk.Sub sdk.OneDec swapFee) in
  let postSwapInBalance :=
    sdk.Add (sdk.ToDec (balance poolAssetIn)) tokenInAfterFee in
  solveConstantFunctionInvariant Pow
    (sdk.ToDec (balance poolAssetIn)) postSwapInBalance
    (sdk.ToDec (Weight poolAssetIn))
    (sdk.ToDec (balance poolAssetOut)) (sdk.ToDec (Weight poolAssetOut)).

(** [calcInGivenOut]: steps 1 to 3 of the spec. *)
Definition spec_calcInGivenOut (poolAssetOut poolAssetIn : PoolAsset)
    (tokenOutAmount swapFee : Z) : result Z :=
  let preSwapOutBalance :=
    sdk.Sub (sdk.ToDec (balance poolAssetOut)) (sdk.ToDec tokenOutAmount) in
  let* tokenInBeforeFeeDelta :=
    solveConstantFunctionInvariant Pow
      (sdk.ToDec (balance poolAssetOut)) preSwapOutBalance
      (sdk.ToDec (Weight poolAssetOut))
      (sdk.ToDec (balance poolAssetIn)) (sdk.ToDec (Weight poolAssetIn)) in
  sdk.Quo tokenInBeforeFeeDelta (sdk.Sub sdk.OneDec swapFee).

(** [singleAssetJoin]: the shares of the spec's four formulas, truncated
    toward zero, without the check of the sign. *)
Definition spec_singleAssetJoin (p : Pool) (tokenIn : sdk.Coin) (swapFee : Z)
  : result Z :=
  let* assetIn := GetPoolAsset p (sdk.Denom tokenIn) in
  let* normalizedWeightIn :=
    sdk.Quo (sdk.ToDec (Weight assetIn)) (sdk.ToDec (GetTotalWeight p)) in
  let effectiveSwapFee :=
    sdk.Mul swapFee (sdk.Sub sdk.OneDec normalizedWeightIn) in
  let tokenInAfterFee :=
    sdk.Mul (sdk.ToDec (sdk.Amount tokenIn)) (sdk.Sub sdk.OneDec effectiveSwapFee) in
  let* delta :=
    solveConstantFunctionInvariant Pow
      (sdk.Add (sdk.ToDec (balance assetIn)) tokenInAfterFee)
      (sdk.ToDec (balance assetIn))
      normalizedWeightIn
      (sdk.ToDec (GetTotalShares p))
      sdk.OneDec in
  Ok (sdk.TruncateInt (sdk.Neg delta)).

End SpecCalculators.

(** ** The keeper's surroundings, for the examples *)

(** Modelled from the spec: [types.CalcOutGivenIn] and [types.CalcInGivenOut]
    (not in the sources), as the spec's calculators (4.2) with the pool's
    swap fee and [osmomath.Pow].  They stand in for the keeper's parameters
    where a statement is tried on a concrete state. *)
Definition types_CalcOutGivenIn (pool : Pool) (inPoolAsset outPoolAsset : PoolAsset)
    (tokenInAmount : Z) : result Z :=
  spec_calcOutGivenIn osmomath.Pow inPoolAsset outPoolAsset tokenInAmount
    (SwapFee pool).

Definition types_CalcInGivenOut (pool : Pool) (inPoolAsset outPoolAsset : PoolAsset)
    (tokenOutAmount : Z) : result Z :=
  spec_calcInGivenOut osmomath.Pow outPoolAsset inPoolAsset tokenOutAmount
    (SwapFee pool).

(** The pool of scenario A stored under its id, a trader who holds 500
    uatom, and one who holds nothing; the pool's account holds the pool's
    balances. *)
Definition bankA : gmap (string * string) Z :=
  <[("alice", "uatom") := 500]>
    (<[("pool1", "uatom") := 1000]> (<[("pool1", "uosmo") := 1000]> ∅)).

Definition stateA : State := mkState (<[1 := poolA]> ∅) bankA.


(** ** Further descriptions used by the properties below *)

(** What an exit pays when it takes every balance: the coin of each asset
    that holds something, added in the pool's order. *)
Definition wholeBalances (assets : list PoolAsset) : list sdk.Coin :=
  fold_left (fun acc a => if balance a <=? 0 then acc
                          else sdk.CoinsAdd acc (sdk.mkCoin (denomOf a) (balance a)))
            assets [].

(** Two pools of the same shape: the same account, id, fee, window and share
    denom, and asset by asset the same denoms and weights; only balances and
    the number of shares may differ. *)
Definition same_shape (p q : Pool) : Prop :=
  Address q = Address p /\ Id q = Id p /\ SwapFee q = SwapFee p
  /\ ActiveWindow q = ActiveWindow p
  /\ sdk.Denom (TotalShares q) = sdk.Denom (TotalShares p)
  /\ map denomOf (PoolAssets q) = map denomOf (PoolAssets p)
  /\ map Weight (PoolAssets q) = map Weight (PoolAssets p).

(** The balance a pool holds of a denom, 0 when the denom is not in it. *)
Definition balanceIn (p : Pool) (denom : string) : Z :=
  match findAsset (PoolAssets p) denom with
  | Some a => balance a
  | None => 0
  end.

(** What a swap of [tokenIn] for [tokenOut] between [sender] and [pool]
    changes from the state [s] to the state [s']: the pool stored under the
    pool's id, with the two balances moved, and the same two amounts moved
    between the two accounts of the bank. *)
Definition swapped (s s' : State) (pool : Pool) (sender : string)
    (tokenIn tokenOut : sdk.Coin) : Prop :=
  let dIn := sdk.Denom tokenIn in
  let dOut := sdk.Denom tokenOut in
  exists pool',
    pools s' = <[Id pool := pool']> (pools s)
    /\ same_shape pool pool'
    /\ balanceIn pool' dIn = balanceIn pool dIn + sdk.Amount tokenIn
    /\ balanceIn pool' dOut = balanceIn pool dOut - sdk.Amount tokenOut
    /\ (forall d, d <> dIn -> d <> dOut ->
          findAsset (PoolAssets pool') d = findAsset (PoolAssets pool) d)
    /\ sdk.Amount tokenIn <= balanceOf (bank s) sender dIn
    /\ balanceOf (bank s') sender dIn
       = balanceOf (bank s) sender dIn - sdk.Amount tokenIn
    /\ balanceOf (bank s') (Address pool) dIn
       = balanceOf (bank s) (Address pool) dIn + sdk.Amount tokenIn
    /\ sdk.Amount tokenOut <= balanceOf (bank s) (Address pool) dOut
    /\ balanceOf (bank s') (Address pool) dOut
       = balanceOf (bank s) (Address pool) dOut - sdk.Amount tokenOut
    /\ balanceOf (bank s') sender dOut
       = balanceOf (bank s) sender dOut + sdk.Amount tokenOut
    /\ (forall a d, (a <> sender /\ a <> Address pool) \/ (d <> dIn /\ d <> dOut) ->
          balanceOf (bank s') a d = balanceOf (bank s) a d).

(** A calculator for the exact-out swap of the examples: the one above with
    the sign of its result turned, so that the amount to pay in is positive
    (the spec's step 3, taken literally, gives a negative amount, which the
    keeper refuses). *)
Definition positive_CalcInGivenOut (pool : Pool) (inPoolAsset outPoolAsset : PoolAsset)
    (tokenOutAmount : Z) : result Z :=
  let* d := types_CalcInGivenOut pool inPoolAsset outPoolAsset tokenOutAmount in
  Ok (sdk.Neg d).

(** What a swap of [tokenIn] for [tokenOut] leaves behind when the bank
    refuses a transfer: the staged pool is stored under the pool's id, with
    the two balances already moved; the bank is as it was when it refused the
    sender's payment, and holds that payment in the pool's account when it
    refused the payout. *)
Definition staged_stored (s s' : State) (pool : Pool) (sender : string)
    (tokenIn tokenOut : sdk.Coin) : Prop :=
  let dIn := sdk.Denom tokenIn in
  let dOut := sdk.Denom tokenOut in
  exists pool',
    pools s' = <[Id pool := pool']> (pools s)
    /\ same_shape pool pool'
    /\ balanceIn pool' dIn = balanceIn pool dIn + sdk.Amount tokenIn
    /\ balanceIn pool' dOut = balanceIn pool dOut - sdk.Amount tokenOut
    /\ ((bank s' = bank s
         /\ balanceOf (bank s) sender dIn < sdk.Amount tokenIn)
        \/ (sendAll (bank s) sender (Address pool) [tokenIn] = Ok (bank s')
            /\ balanceOf (bank s') (Address pool) dOut < sdk.Amount tokenOut)).

(** * Properties *)

(** ** Outcomes *)

Lemma fails_Err {A : Type} (e : error) : fails (@Err A e).
Proof. intros a H; discriminate H. Qed.

Lemma fails_Panic {A : Type} (p : panic) : fails (@Panic A p).
Proof. intros a H; discriminate H. Qed.

Lemma bind_Ok_inv {A B : Type} (r : result A) (k : A -> result B) (b : B) :
  bind r k = Ok b -> exists a, r = Ok a /\ k a = Ok b.
Proof. destruct r as [a|e|p]; simpl; intros H; try discriminate; eauto. Qed.

(** ** Balances of a pool under updates *)


Lemma NewCoin_nonneg (denom : string) (amount : Z) :
  0 <= amount -> sdk.NewCoin denom amount = Ok (sdk.mkCoin denom amount).
Proof. intros H. unfold sdk.NewCoin. destruct (amount <? 0) eqn:E; [lia | reflexivity]. Qed.



Lemma findAsset_setBalance_ne (assets : list PoolAsset) (coin : sdk.Coin) (denom : string) :
  sdk.Denom coin <> denom ->
  findAsset (setBalance assets coin) denom = findAsset assets denom.
Proof.
  intros Hne. induction assets as [|a rest IH]; simpl; [reflexivity|].
  destruct (String.eqb (denomOf a) (sdk.Denom coin)) eqn:E1; simpl.
  - unfold denomOf at 1; simpl.
    apply String.eqb_eq in E1.
    destruct (String.eqb (sdk.Denom coin) denom) eqn:E2.
    + apply String.eqb_eq in E2; contradiction.
    + rewrite E1, E2. reflexivity.
  - destruct (String.eqb (denomOf a) denom); [reflexivity | exact IH].
Qed.


(** ** ExitPool keeps every balance at or above zero *)



(** ** ApplySwap keeps every balance at or above zero *)




(** ** The keeper's swaps and the stored balances *)

Ltac break_result :=
  match goal with
  | |- context [match ?r with Ok _ => _ | Err _ => _ | Panic _ => _ end] =>
      let E := fresh "E" in destruct r eqn:E
  end.

Lemma GetPoolAsset_Ok (p : Pool) (denom : string) (a : PoolAsset) :
  GetPoolAsset p denom = Ok a <-> findAsset (PoolAssets p) denom = Some a.
Proof.
  unfold GetPoolAsset. destruct (findAsset (PoolAssets p) denom); split; intros H;
    inversion H; reflexivity.
Qed.

Lemma AddPoolAssetBalance_Ok (p p1 : Pool) (coin : sdk.Coin) :
  AddPoolAssetBalance p coin = Ok p1 ->
  exists a, findAsset (PoolAssets p) (sdk.Denom coin) = Some a /\
            p1 = withAssets p (setBalance (PoolAssets p)
                   (sdk.mkCoin (sdk.Denom coin) (balance a + sdk.Amount coin))).
Proof.
  unfold AddPoolAssetBalance. intros H.
  apply bind_Ok_inv in H as (a & Ha & H). inversion H; subst.
  exists a. split; [apply GetPoolAsset_Ok; exact Ha | reflexivity].
Qed.

Lemma SubPoolAssetBalance_Ok (p p1 : Pool) (coin : sdk.Coin) :
  SubPoolAssetBalance p coin = Ok p1 ->
  exists a, findAsset (PoolAssets p) (sdk.Denom coin) = Some a /\
            p1 = withAssets p (setBalance (PoolAssets p)
                   (sdk.mkCoin (sdk.Denom coin) (balance a - sdk.Amount coin))).
Proof.
  unfold SubPoolAssetBalance. intros H.
  apply bind_Ok_inv in H as (a & Ha & H). inversion H; subst.
  exists a. split; [apply GetPoolAsset_Ok; exact Ha | reflexivity].
Qed.






Lemma getPoolAndInOutAssets_Ok (s : State) (poolId : Z) (dIn dOut : string)
    (pool : Pool) (inA outA : PoolAsset) :
  getPoolAndInOutAssets s poolId dIn dOut = Ok (pool, inA, outA) ->
  pools s !! poolId = Some pool /\
  findAsset (PoolAssets pool) dIn = Some inA /\
  findAsset (PoolAssets pool) dOut = Some outA.
Proof.
  unfold getPoolAndInOutAssets. destruct (pools s !! poolId) as [q|]; [|discriminate].
  intros H. apply bind_Ok_inv in H as (a & Ha & H).
  apply bind_Ok_inv in H as (b & Hb & H). inversion H; subst.
  repeat split; apply GetPoolAsset_Ok; assumption.
Qed.

Lemma snd_lift {A B S : Type} (r : result A * S) (k : A -> B) :
  snd (match r with
       | (Ok a, s') => (Ok (k a), s')
       | (Err e, s') => (Err e, s')
       | (Panic x, s') => (Panic x, s')
       end) = snd r.
Proof. destruct r as [[a| |] s']; reflexivity. Qed.









(** ** ExitPool against the spec's description *)

Lemma refundedSharesOf_spec (exitingShares exitFee : Z) :
  refundedSharesOf exitingShares exitFee = spec_refundedShares exitingShares exitFee.
Proof.
  unfold refundedSharesOf, spec_refundedShares, sdk.IsZero.
  destruct (exitFee =? 0); reflexivity.
Qed.

Lemma exitAmt_spec (shareOutRatio bal : Z) :
  sdk.TruncateInt (sdk.MulInt shareOutRatio bal) = spec_exitAmt shareOutRatio bal.
Proof. reflexivity. Qed.

Lemma withAssets_withAssets (p : Pool) (l1 l2 : list PoolAsset) :
  withAssets (withAssets p l1) l2 = withAssets p l2.
Proof. reflexivity. Qed.

Lemma withAssets_same (p : Pool) : withAssets p (PoolAssets p) = p.
Proof. destruct p; reflexivity. Qed.

Lemma findAsset_app_Some (pre rest : list PoolAsset) (a : PoolAsset) :
  exists b, findAsset (pre ++ a :: rest) (denomOf a) = Some b.
Proof.
  induction pre as [|x pre IH]; simpl.
  - rewrite String.eqb_refl. eauto.
  - destruct (String.eqb (denomOf x) (denomOf a)); eauto.
Qed.

Lemma setBalance_app (pre rest : list PoolAsset) (a : PoolAsset) (coin : sdk.Coin) :
  Forall (fun x => denomOf x <> sdk.Denom coin) pre ->
  denomOf a = sdk.Denom coin ->
  setBalance (pre ++ a :: rest) coin = pre ++ mkPoolAsset coin (Weight a) :: rest.
Proof.
  intros Hpre Ha. induction Hpre as [|x pre Hx Hpre IH]; simpl.
  - rewrite Ha, String.eqb_refl. reflexivity.
  - apply String.eqb_neq in Hx. rewrite Hx, IH. reflexivity.
Qed.

(** The loop of [ExitPool] over the assets not yet visited: [pre] holds the
    assets already visited, as the loop left them. *)
Lemma exitLoop_spec (shareOutRatio : Z) (suffix : list PoolAsset) :
  forall (pre : list PoolAsset) (acc : list sdk.Coin) (p : Pool),
    PoolAssets p = pre ++ suffix ->
    NoDup (map denomOf suffix) ->
    Forall (fun x => denomOf x ∉ map denomOf suffix) pre ->
    Forall (fun a => ~ overdrawn shareOutRatio a) suffix ->
    exitLoop shareOutRatio (map Token suffix) acc p
    = (Ok (fold_left (spec_exitCoin shareOutRatio) suffix acc),
       withAssets p (pre ++ map (spec_exitAsset shareOutRatio) suffix)).
Proof.
  induction suffix as [|a rest IH]; intros pre acc p Hp Hnd Hpre Hover.
  - simpl. rewrite <- Hp, withAssets_same. reflexivity.
  - simpl. rewrite exitAmt_spec.
    apply NoDup_cons in Hnd as [Hnotin Hnd'].
    apply Forall_cons in Hover as [Ha Hover'].
    assert (Hpre1 : Forall (fun x => denomOf x ∉ map denomOf rest) pre).
    { eapply Forall_impl; [exact Hpre|]. simpl. intros x Hx Hin. apply Hx.
      right. exact Hin. }
    assert (Hpre2 : Forall (fun x => denomOf x <> denomOf a) pre).
    { eapply Forall_impl; [exact Hpre|]. simpl. intros x Hx Heq. apply Hx.
      rewrite Heq. left. }
    change (sdk.Amount (Token a)) with (balance a).
    unfold spec_exitAsset, spec_exitCoin.
    destruct (spec_exitAmt shareOutRatio (balance a) <=? 0) eqn:Ez.
    + (* skipped *)
      rewrite (IH (pre ++ [a]) acc p).
      * rewrite <- app_assoc. reflexivity.
      * rewrite <- app_assoc. exact Hp.
      * exact Hnd'.
      * apply Forall_app. split; [exact Hpre1|].
        constructor; [exact Hnotin | constructor].
      * exact Hover'.
    + (* withdrawn *)
      assert (Hle : spec_exitAmt shareOutRatio (balance a) <= balance a).
      { unfold overdrawn in Ha. lia. }
      rewrite NewCoin_nonneg by lia.
      change (sdk.Denom (Token a)) with (denomOf a).
      rewrite NewCoin_nonneg by lia.
      unfold UpdatePoolAssetBalance. simpl sdk.Denom. rewrite Hp.
      destruct (findAsset_app_Some pre rest a) as [b ->]. simpl snd.
      rewrite setBalance_app; [|exact Hpre2|reflexivity].
      set (a' := mkPoolAsset _ (Weight a)).
      rewrite (IH (pre ++ [a']) _ (withAssets p (pre ++ a' :: rest))).
      * rewrite withAssets_withAssets, <- app_assoc. reflexivity.
      * simpl. rewrite <- app_assoc. reflexivity.
      * exact Hnd'.
      * apply Forall_app. split; [exact Hpre1|].
        constructor; [exact Hnotin | constructor].
      * exact Hover'.
Qed.

Lemma exitLoop_not_Err (shareOutRatio : Z) (balances : list sdk.Coin) :
  forall (acc : list sdk.Coin) (p : Pool) (e : error),
    fst (exitLoop shareOutRatio balances acc p) <> Err e.
Proof.
  induction balances as [|c rest IH]; intros acc p e; simpl; [discriminate|].
  destruct (_ <=? 0); [apply IH|].
  unfold sdk.NewCoin.
  destruct (_ <? 0); [discriminate|].
  destruct (_ <? 0); [discriminate|]. apply IH.
Qed.

Lemma ExitPool_too_many (p : Pool) (exitingShares exitFee : Z) :
  GetTotalShares p <= exitingShares ->
  ExitPool p exitingShares exitFee = (Err ErrTooManySharesOut, p).
Proof.
  intros H. unfold ExitPool.
  destruct (GetTotalShares p <=? exitingShares) eqn:E; [reflexivity | lia].
Qed.

Lemma ExitPool_Err_inv (p : Pool) (exitingShares exitFee : Z) (e : error) :
  fst (ExitPool p exitingShares exitFee) = Err e ->
  GetTotalShares p <= exitingShares.
Proof.
  unfold ExitPool.
  destruct (GetTotalShares p <=? exitingShares) eqn:E; [lia|].
  unfold sdk.QuoInt. destruct (_ =? 0); [discriminate|].
  pose proof (exitLoop_not_Err
                (Z.quot (sdk.ToDec (GetTotalShares p))
                        (refundedSharesOf exitingShares exitFee))
                (GetTotalLpBalances p) [] p) as Hne.
  destruct (exitLoop _ _ _ _) as [[coins|e'|x] p']; simpl in *.
  - unfold sdk.NewCoin. destruct (_ <? 0); discriminate.
  - intros _. exfalso. exact (Hne e' eq_refl).
  - discriminate.
Qed.

(** The division of [ExitPool] aborts when no share is refunded. *)
Lemma ExitPool_zero_refund (p : Pool) (exitingShares exitFee : Z) :
  exitingShares < GetTotalShares p ->
  spec_refundedShares exitingShares exitFee = 0 ->
  ExitPool p exitingShares exitFee = (Panic DivisionByZero, p).
Proof.
  intros Hlt H0. unfold ExitPool.
  destruct (GetTotalShares p <=? exitingShares) eqn:E; [lia|].
  rewrite refundedSharesOf_spec, H0. reflexivity.
Qed.

(** The loop of [ExitPool] aborts at the first overdrawn asset. *)
Lemma exitLoop_overdrawn (shareOutRatio : Z) (suffix : list PoolAsset) :
  forall (acc : list sdk.Coin) (p : Pool),
    Exists (overdrawn shareOutRatio) suffix ->
    fst (exitLoop shareOutRatio (map Token suffix) acc p)
    = Panic NegativeCoinAmount.
Proof.
  induction suffix as [|a rest IH]; intros acc p Hex.
  - inversion Hex.
  - simpl. rewrite exitAmt_spec.
    change (sdk.Amount (Token a)) with (balance a).
    assert (Hrest : ~ overdrawn shareOutRatio a -> Exists (overdrawn shareOutRatio) rest).
    { intros Hn. apply Exists_cons in Hex as [Ha | Hr]; [contradiction | exact Hr]. }
    destruct (spec_exitAmt shareOutRatio (balance a) <=? 0) eqn:Ez.
    + apply IH, Hrest. unfold overdrawn. lia.
    + rewrite NewCoin_nonneg by lia.
      unfold sdk.NewCoin.
      destruct (balance a - spec_exitAmt shareOutRatio (balance a) <? 0) eqn:En;
        [reflexivity|].
      apply IH, Hrest. unfold overdrawn. lia.
Qed.

Lemma ExitPool_overdrawn (p : Pool) (exitingShares exitFee : Z) :
  exitingShares < GetTotalShares p ->
  spec_refundedShares exitingShares exitFee <> 0 ->
  Exists (overdrawn (spec_shareOutRatio (GetTotalShares p)
                       (spec_refundedShares exitingShares exitFee)))
         (PoolAssets p) ->
  fst (ExitPool p exitingShares exitFee) = Panic NegativeCoinAmount.
Proof.
  intros Hlt Hr Hex. unfold ExitPool.
  destruct (GetTotalShares p <=? exitingShares) eqn:E; [lia|].
  rewrite refundedSharesOf_spec. unfold sdk.QuoInt.
  destruct (spec_refundedShares exitingShares exitFee =? 0) eqn:E0; [lia|].
  change (Z.quot (sdk.ToDec (GetTotalShares p))
                 (spec_refundedShares exitingShares exitFee))
    with (spec_shareOutRatio (GetTotalShares p)
            (spec_refundedShares exitingShares exitFee)).
  unfold GetTotalLpBalances.
  pose proof (exitLoop_overdrawn _ (PoolAssets p) [] p Hex) as Hp.
  destruct (exitLoop _ _ _ _) as [r p']. simpl in Hp. subst r. reflexivity.
Qed.

(** ** JoinPool *)

(** C8.  [JoinPool] hands a single coin to [singleAssetJoin]; with any other
    number of coins it fails: with the not-implemented error when the number
    is that of the pool's assets, with the join-shape error otherwise. *)
Theorem JoinPool_shape (Pow : Z -> Z -> result Z) (p : Pool)
    (tokensIn : list sdk.Coin) (swapFee : Z) :
  (forall tokenIn, tokensIn = [tokenIn] ->
     JoinPool Pow p tokensIn swapFee = singleAssetJoin Pow p tokenIn swapFee)
  /\ (length tokensIn <> 1%nat -> length tokensIn = NumAssets p ->
      JoinPool Pow p tokensIn swapFee = (Err ErrTodoImplement, p))
  /\ (length tokensIn <> 1%nat -> length tokensIn <> NumAssets p ->
      JoinPool Pow p tokensIn swapFee = (Err ErrJoinShape, p)).
Proof.
  split; [|split].
  - intros tokenIn ->. reflexivity.
  - intros H1 Hn. unfold JoinPool.
    destruct tokensIn as [|t [|t' rest]];
      [|exfalso; apply H1; reflexivity|];
      rewrite Hn, Nat.eqb_refl; reflexivity.
  - intros H1 Hn. unfold JoinPool.
    destruct tokensIn as [|t [|t' rest]];
      [|exfalso; apply H1; reflexivity|];
      apply Nat.eqb_neq in Hn; rewrite Hn; reflexivity.
Qed.

(** Scenario D of the spec: two coins offered to a pool of three assets. *)
Lemma JoinPool_shape_witness :
  JoinPool osmomath.Pow pool3
    [sdk.mkCoin "uatom" 10; sdk.mkCoin "uosmo" 10] (3 * 10 ^ 15)
  = (Err ErrJoinShape, pool3).
Proof.
  apply (proj2 (proj2 (JoinPool_shape osmomath.Pow pool3
           [sdk.mkCoin "uatom" 10; sdk.mkCoin "uosmo" 10] (3 * 10 ^ 15)))).
  - vm_compute. discriminate.
  - vm_compute. discriminate.
Defined.

(** C9.  The claim expects a join to change the pool.  [JoinPool] does not:
    100 uatom offered to the pool of scenario A yield 4 shares, and the pool
    that the call leaves behind is the pool it was given, with its uatom
    balance still 1000 and its total of shares still 100. *)
Theorem JoinPool_leaves_pool_unchanged :
  JoinPool osmomath.Pow poolA [sdk.mkCoin "uatom" 100] (3 * 10 ^ 15)
  = (Ok 4, poolA).
Proof. vm_compute. reflexivity. Qed.

(** ** The invariant solver *)

Lemma chopNonNeg_nonneg (d : Z) : 0 <= d -> 0 <= sdk.chopNonNeg d.
Proof.
  intros H. unfold sdk.chopNonNeg.
  assert (Hq : 0 <= Z.quot d sdk.precisionReuse).
  { apply Z.quot_pos; [exact H | unfold sdk.precisionReuse; lia]. }
  destruct (_ =? 0); [exact Hq|].
  destruct (_ ?= _); [destruct (Z.even _)| |]; lia.
Qed.

Lemma chopPrecisionAndRound_nonpos (d : Z) :
  d <= 0 -> sdk.chopPrecisionAndRound d <= 0.
Proof.
  intros H. unfold sdk.chopPrecisionAndRound.
  destruct (d <? 0) eqn:E.
  - pose proof (chopNonNeg_nonneg (- d)). lia.
  - assert (d = 0) by lia. subst. vm_compute. discriminate.
Qed.

Lemma chopPrecisionAndRound_nonneg (d : Z) :
  0 <= d -> 0 <= sdk.chopPrecisionAndRound d.
Proof.
  intros H. unfold sdk.chopPrecisionAndRound.
  destruct (d <? 0) eqn:E; [lia|]. apply chopNonNeg_nonneg; exact H.
Qed.

Lemma Quo_nonzero (d d2 : Z) :
  d2 <> 0 ->
  sdk.Quo d d2
  = Ok (sdk.chopPrecisionAndRound
          (Z.quot (d * sdk.precisionReuse * sdk.precisionReuse) d2)).
Proof.
  intros H. unfold sdk.Quo. destruct (d2 =? 0) eqn:E; [lia | reflexivity].
Qed.

(** A quotient of a non-negative by a negative decimal is not positive. *)
Lemma Quo_nonneg_neg (d d2 : Z) :
  0 <= d -> d2 < 0 -> exists y, sdk.Quo d d2 = Ok y /\ y <= 0.
Proof.
  intros Hd Hd2. rewrite Quo_nonzero by lia. eexists; split; [reflexivity|].
  apply chopPrecisionAndRound_nonpos.
  assert (Hn : 0 <= d * sdk.precisionReuse * sdk.precisionReuse).
  { unfold sdk.precisionReuse. lia. }
  rewrite <- (Z.opp_involutive d2), Z.quot_opp_r by lia.
  pose proof (Z.quot_pos _ (- d2) Hn ltac:(lia)). lia.
Qed.

Lemma osmomath_Pow_domain (base exp : Z) :
  base <= 0 -> osmomath.Pow base exp = Panic PowBaseNotPositive.
Proof.
  intros H. unfold osmomath.Pow, sdk.IsPositive.
  destruct (0 <? base) eqn:E; [lia | reflexivity].
Qed.

Lemma fails_bind {A B : Type} (r : result A) (k : A -> result B) :
  fails r -> fails (bind r k).
Proof.
  intros Hf b H. apply bind_Ok_inv in H as (a & Ha & _). exact (Hf a Ha).
Qed.

Lemma solve_zero_divisor (Pow : Z -> Z -> result Z)
    (before after wFixed balUnknown wUnknown : Z) :
  after = 0 \/ wUnknown = 0 ->
  solveConstantFunctionInvariant Pow before after wFixed balUnknown wUnknown
  = Panic DivisionByZero.
Proof.
  intros H. unfold solveConstantFunctionInvariant.
  destruct (Z.eq_dec wUnknown 0) as [->|Hw].
  - reflexivity.
  - destruct H as [->|H]; [|contradiction].
    rewrite (Quo_nonzero _ _ Hw). reflexivity.
Qed.

Lemma solve_negative_after (Pow : Z -> Z -> result Z)
    (before after wFixed balUnknown wUnknown : Z) :
  (forall base exp, base <= 0 -> fails (Pow base exp)) ->
  after < 0 -> 0 <= before ->
  fails (solveConstantFunctionInvariant Pow before after wFixed balUnknown wUnknown).
Proof.
  intros HPow Hafter Hbefore a. unfold solveConstantFunctionInvariant.
  destruct (sdk.Quo wFixed wUnknown) as [w| |]; simpl; try discriminate.
  destruct (Quo_nonneg_neg _ _ Hbefore Hafter) as (y & -> & Hy). simpl.
  pose proof (HPow y w Hy) as Hf.
  destruct (Pow y w) as [v| |]; simpl; try discriminate.
  exfalso. exact (Hf v eq_refl).
Qed.

(** C7 (as amended).  The solver has no error result and checks nothing
    itself.  It aborts on the division by zero whenever [balanceFixedAfter]
    or [weightUnknown] is zero; and, when the power function refuses a base
    that is not positive, it aborts whenever [balanceFixedAfter] is negative
    and [balanceFixedBefore] is not. *)
Theorem solveConstantFunctionInvariant_domain (Pow : Z -> Z -> result Z)
    (tokenBalanceFixedBefore tokenBalanceFixedAfter tokenWeightFixed
     tokenBalanceUnknownBefore tokenWeightUnknown : Z) :
  (tokenBalanceFixedAfter = 0 \/ tokenWeightUnknown = 0 ->
   solveConstantFunctionInvariant Pow
     tokenBalanceFixedBefore tokenBalanceFixedAfter tokenWeightFixed
     tokenBalanceUnknownBefore tokenWeightUnknown
   = Panic DivisionByZero)
  /\ ((forall base exp, base <= 0 -> fails (Pow base exp)) ->
      tokenBalanceFixedAfter < 0 -> 0 <= tokenBalanceFixedBefore ->
      fails (solveConstantFunctionInvariant Pow
               tokenBalanceFixedBefore tokenBalanceFixedAfter tokenWeightFixed
               tokenBalanceUnknownBefore tokenWeightUnknown)).
Proof.
  split.
  - apply solve_zero_divisor.
  - apply solve_negative_after.
Qed.

(** A balance driven below zero, and a zero balance, with [osmomath.Pow]. *)
Lemma solveConstantFunctionInvariant_domain_witness :
  solveConstantFunctionInvariant osmomath.Pow
    (1000 * 10 ^ 18) 0 (10 ^ 18) (1000 * 10 ^ 18) (10 ^ 18)
  = Panic DivisionByZero
  /\ fails (solveConstantFunctionInvariant osmomath.Pow
              (1000 * 10 ^ 18) (- 10 ^ 18) (10 ^ 18) (1000 * 10 ^ 18) (10 ^ 18)).
Proof.
  split.
  - apply (proj1 (solveConstantFunctionInvariant_domain osmomath.Pow
             (1000 * 10 ^ 18) 0 (10 ^ 18) (1000 * 10 ^ 18) (10 ^ 18))).
    left. reflexivity.
  - apply (proj2 (solveConstantFunctionInvariant_domain osmomath.Pow
             (1000 * 10 ^ 18) (- 10 ^ 18) (10 ^ 18) (1000 * 10 ^ 18) (10 ^ 18))).
    + intros base exp H. rewrite (osmomath_Pow_domain base exp H).
      apply fails_Panic.
    + lia.
    + lia.
Defined.

(** C7, as stated, fails: with [weightUnknown = -1] (and [weightFixed = -1])
    the solver returns a value, and so it does with both balances of the
    fixed side at -1.  The quotients are the same as for the weights 1 and 1,
    and for the balances 1 and 1. *)
Lemma solveConstantFunctionInvariant_accepts_negative :
  solveConstantFunctionInvariant osmomath.Pow
    (10 ^ 18) (10 ^ 18) (- 10 ^ 18) (5 * 10 ^ 18) (- 10 ^ 18) = Ok 0
  /\ solveConstantFunctionInvariant osmomath.Pow
       (- 10 ^ 18) (- 10 ^ 18) (10 ^ 18) (5 * 10 ^ 18) (10 ^ 18) = Ok 0.
Proof. split; vm_compute; reflexivity. Qed.

(** ** The spot price *)

(** Rounding to 18 places moves a non-negative number by at most half a
    unit of the last place. *)
Lemma chopNonNeg_bound (d : Z) :
  0 <= d ->
  - sdk.precisionReuse <= 2 * (sdk.chopNonNeg d * sdk.precisionReuse - d)
                       <= sdk.precisionReuse.
Proof.
  intros Hd. unfold sdk.chopNonNeg, sdk.fivePrecision. cbv zeta.
  assert (Hs : sdk.precisionReuse = 2 * (sdk.precisionReuse / 2))
    by (vm_compute; reflexivity).
  assert (Hpos : 0 < sdk.precisionReuse) by (vm_compute; reflexivity).
  pose proof (Z.quot_rem' d sdk.precisionReuse) as Hqr.
  pose proof (Z.rem_bound_pos d sdk.precisionReuse Hd Hpos) as Hr.
  set (q := Z.quot d sdk.precisionReuse) in *.
  set (r := Z.rem d sdk.precisionReuse) in *.
  set (h := sdk.precisionReuse / 2) in *.
  set (s := sdk.precisionReuse) in *.
  clearbody q r h s.
  destruct (r =? 0) eqn:E0; [apply Z.eqb_eq in E0; lia|].
  destruct (r ?= h) eqn:Ec.
  - apply Z.compare_eq in Ec. destruct (Z.even q); lia.
  - change (r < h) in Ec. lia.
  - change (r > h) in Ec. lia.
Qed.

Lemma round_of_quotient_bound (n d s m q : Z) :
  0 <= n -> 0 < d -> 2 <= s -> 0 <= m ->
  m * d <= n * s * s < m * d + d ->
  - s <= 2 * (q * s - m) <= s ->
  - d <= q * d - n * s <= d.
Proof.
  intros Hn Hd Hs Hm Hmd Hc.
  assert (A0 : 0 <= d * (s - 2)) by (apply Z.mul_nonneg_nonneg; lia).
  split.
  - destruct (Z_le_gt_dec (- d) (q * d - n * s)) as [H|H]; [exact H|exfalso].
    assert (A1 : 0 <= (2 * (q * s - m) + s) * d)
      by (apply Z.mul_nonneg_nonneg; lia).
    assert (A2 : (q * d - n * s + d + 1) * (2 * s) <= 0)
      by (apply Z.mul_nonpos_nonneg; lia).
    lia.
  - destruct (Z_le_gt_dec (q * d - n * s) d) as [H|H]; [exact H|exfalso].
    assert (A1 : 0 <= (s - 2 * (q * s - m)) * d)
      by (apply Z.mul_nonneg_nonneg; lia).
    assert (A2 : 0 <= (q * d - n * s - d - 1) * (2 * s))
      by (apply Z.mul_nonneg_nonneg; lia).
    lia.
Qed.

(** The quotient of two positive decimals, against the exact ratio. *)
Lemma Quo_bound (n d : Z) :
  0 <= n -> 0 < d ->
  exists q, sdk.Quo n d = Ok q /\ 0 <= q /\
            - d <= q * d - n * sdk.precisionReuse <= d.
Proof.
  intros Hn Hd. rewrite Quo_nonzero by lia.
  assert (Hs2 : 2 <= sdk.precisionReuse) by (vm_compute; discriminate).
  set (m := Z.quot (n * sdk.precisionReuse * sdk.precisionReuse) d).
  assert (Hm0 : 0 <= n * sdk.precisionReuse * sdk.precisionReuse).
  { apply Z.mul_nonneg_nonneg; [apply Z.mul_nonneg_nonneg|]; lia. }
  assert (Hm : 0 <= m) by (apply Z.quot_pos; lia).
  assert (Hmd : m * d <= n * sdk.precisionReuse * sdk.precisionReuse < m * d + d).
  { unfold m. rewrite Z.quot_div_nonneg by lia.
    pose proof (Z.div_mod (n * sdk.precisionReuse * sdk.precisionReuse) d
                  ltac:(lia)) as Hdm.
    pose proof (Z.mod_pos_bound (n * sdk.precisionReuse * sdk.precisionReuse) d Hd).
    rewrite (Z.mul_comm _ d). lia. }
  exists (sdk.chopPrecisionAndRound m). split; [reflexivity|].
  split; [apply chopPrecisionAndRound_nonneg; exact Hm|].
  unfold sdk.chopPrecisionAndRound.
  destruct (m <? 0) eqn:E; [lia|].
  apply (round_of_quotient_bound n d sdk.precisionReuse m); auto.
  apply chopNonNeg_bound; exact Hm.
Qed.

Lemma QuoInt_pos (bal w : Z) :
  0 < w <= bal * 10 ^ 18 ->
  exists n, sdk.QuoInt (sdk.ToDec bal) w = Ok n /\ 0 < n.
Proof.
  intros [Hw Hle]. unfold sdk.QuoInt, sdk.ToDec, sdk.precisionReuse.
  destruct (w =? 0) eqn:E; [lia|]. eexists; split; [reflexivity|].
  rewrite Z.quot_div_nonneg by lia.
  apply Z.div_str_pos. lia.
Qed.

(** The product of two rounded reciprocal quotients. *)
Lemma reciprocal_product_bound (n d p q s : Z) :
  0 < n -> 0 < d -> 0 <= p -> 0 <= q -> 0 < s ->
  - d <= p * d - n * s <= d ->
  - n <= q * n - d * s <= n ->
  Z.abs (p * q - s * s) <= p + q + 3.
Proof.
  intros Hn Hd Hp Hq Hpos H1 H2.
  set (e1 := p * d - n * s) in *.
  set (e2 := q * n - d * s) in *.
  assert (Hprod : (p * q - s * s) * (n * d) = n * s * e2 + d * s * e1 + e1 * e2).
  { unfold e1, e2. ring. }
  assert (Hns : n * s <= d * (p + 1)) by (unfold e1 in H1; lia).
  assert (Hds : d * s <= n * (q + 1)) by (unfold e2 in H2; lia).
  assert (Hnd : 0 < n * d) by (apply Z.mul_pos_pos; lia).
  assert (Hns0 : 0 <= n * s) by (apply Z.mul_nonneg_nonneg; lia).
  assert (Hds0 : 0 <= d * s) by (apply Z.mul_nonneg_nonneg; lia).
  assert (He1 : Z.abs e1 <= d) by lia.
  assert (He2 : Z.abs e2 <= n) by lia.
  assert (Ha : Z.abs (n * s * e2) <= n * d * (p + 1)).
  { rewrite Z.abs_mul, (Z.abs_eq (n * s)) by exact Hns0.
    transitivity (n * s * n).
    - apply Z.mul_le_mono_nonneg_l; [exact Hns0 | exact He2].
    - replace (n * d * (p + 1)) with (d * (p + 1) * n) by ring.
      apply Z.mul_le_mono_nonneg_r; [lia | exact Hns]. }
  assert (Hb : Z.abs (d * s * e1) <= n * d * (q + 1)).
  { rewrite Z.abs_mul, (Z.abs_eq (d * s)) by exact Hds0.
    transitivity (d * s * d).
    - apply Z.mul_le_mono_nonneg_l; [exact Hds0 | exact He1].
    - replace (n * d * (q + 1)) with (n * (q + 1) * d) by ring.
      apply Z.mul_le_mono_nonneg_r; [lia | exact Hds]. }
  assert (Hc : Z.abs (e1 * e2) <= n * d).
  { rewrite Z.abs_mul.
    transitivity (d * Z.abs e2).
    - apply Z.mul_le_mono_nonneg_r; [apply Z.abs_nonneg | exact He1].
    - rewrite (Z.mul_comm n d). apply Z.mul_le_mono_nonneg_l; lia. }
  assert (Hsum : Z.abs ((p * q - s * s) * (n * d)) <= (p + q + 3) * (n * d)).
  { rewrite Hprod.
    eapply Z.le_trans; [apply Z.abs_triangle|].
    eapply Z.le_trans; [apply Z.add_le_mono_r; apply Z.abs_triangle|].
    replace ((p + q + 3) * (n * d))
      with (n * d * (p + 1) + n * d * (q + 1) + n * d) by ring.
    apply Z.add_le_mono; [apply Z.add_le_mono|]; assumption. }
  rewrite Z.abs_mul, (Z.abs_eq (n * d)) in Hsum by lia.
  apply Z.mul_le_mono_pos_r in Hsum; [exact Hsum | exact Hnd].
Qed.

(** C10 (as amended).  For two denoms of the pool whose balances are at
    least [10^-18] of their weights (so that neither weight-adjusted balance
    truncates to zero), both spot prices are returned and their product
    differs from 1 by at most the sum of the two prices plus three units of
    the last place, all in units of [10^-36]: the tolerance is relative to
    the prices, not a fixed one. *)
Theorem SpotPrice_symmetry (p : Pool) (quoteDenom baseDenom : string)
    (quote base : PoolAsset) :
  findAsset (PoolAssets p) quoteDenom = Some quote ->
  findAsset (PoolAssets p) baseDenom = Some base ->
  0 < Weight quote <= balance quote * 10 ^ 18 ->
  0 < Weight base <= balance base * 10 ^ 18 ->
  exists priceQB priceBQ,
    SpotPrice p quoteDenom baseDenom = Ok priceQB
    /\ SpotPrice p baseDenom quoteDenom = Ok priceBQ
    /\ Z.abs (priceQB * priceBQ - 10 ^ 36) <= priceQB + priceBQ + 3.
Proof.
  intros Hq Hb Hwq Hwb.
  destruct (QuoInt_pos _ _ Hwq) as (d & Ed & Hd).
  destruct (QuoInt_pos _ _ Hwb) as (n & En & Hn).
  destruct (Quo_bound n d ltac:(lia) Hd) as (pq & Epq & Hpq0 & Hpq).
  destruct (Quo_bound d n ltac:(lia) Hn) as (pb & Epb & Hpb0 & Hpb).
  exists pq, pb.
  assert (Gq : GetPoolAsset p quoteDenom = Ok quote) by (apply GetPoolAsset_Ok; exact Hq).
  assert (Gb : GetPoolAsset p baseDenom = Ok base) by (apply GetPoolAsset_Ok; exact Hb).
  split; [|split].
  - unfold SpotPrice, parsePoolAssetsByDenoms. rewrite Gq, Gb. simpl.
    rewrite En. simpl. rewrite Ed. simpl. exact Epq.
  - unfold SpotPrice, parsePoolAssetsByDenoms. rewrite Gq, Gb. simpl.
    rewrite Ed. simpl. rewrite En. simpl. exact Epb.
  - replace (10 ^ 36) with (sdk.precisionReuse * sdk.precisionReuse)
      by (vm_compute; reflexivity).
    apply (reciprocal_product_bound n d pq pb sdk.precisionReuse); auto.
    vm_compute; reflexivity.
Qed.

(** Balances 1000 and 3000 at equal weights: the prices are 3 and
    0.333333333333333333, their product misses 1 by [10^-18]. *)
Lemma SpotPrice_symmetry_witness :
  exists priceQB priceBQ,
    SpotPrice (pool2 1000 1 3000 1 100) "uatom" "uosmo" = Ok priceQB
    /\ SpotPrice (pool2 1000 1 3000 1 100) "uosmo" "uatom" = Ok priceBQ
    /\ Z.abs (priceQB * priceBQ - 10 ^ 36) <= priceQB + priceBQ + 3.
Proof.
  apply (SpotPrice_symmetry (pool2 1000 1 3000 1 100) "uatom" "uosmo"
           (asset "uatom" 1000 1) (asset "uosmo" 3000 1)).
  - reflexivity.
  - reflexivity.
  - vm_compute. split; [reflexivity | discriminate].
  - vm_compute. split; [reflexivity | discriminate].
Defined.

(** C10, as stated, fails.  With balances 1 and [10^19] at equal weights the
    prices are [10^19] and 0 (the reciprocal rounds to zero) and their
    product is 0; with a balance of 1 under a weight of [2 * 10^18] the
    weight-adjusted balance truncates to zero and the call aborts on the
    division. *)
Lemma SpotPrice_product_zero :
  SpotPrice (pool2 1 1 (10 ^ 19) 1 100) "uatom" "uosmo" = Ok (10 ^ 37)
  /\ SpotPrice (pool2 1 1 (10 ^ 19) 1 100) "uosmo" "uatom" = Ok 0
  /\ SpotPrice (pool2 1 (2 * 10 ^ 18) 1000 1 100) "uatom" "uosmo"
     = Panic DivisionByZero.
Proof. repeat split; vm_compute; reflexivity. Qed.

(** ** The calculators of amm.go against the spec's formulas *)

Lemma parsePoolAssets_one (p : Pool) (tokenA : sdk.Coin) (tokenBDenom : string)
    (Aasset Basset : PoolAsset) :
  findAsset (PoolAssets p) (sdk.Denom tokenA) = Some Aasset ->
  findAsset (PoolAssets p) tokenBDenom = Some Basset ->
  parsePoolAssets p [tokenA] tokenBDenom = Ok (tokenA, Aasset, Basset).
Proof.
  intros HA HB. unfold parsePoolAssets, parsePoolAssetsByDenoms.
  apply GetPoolAsset_Ok in HA, HB. rewrite HA, HB. reflexivity.
Qed.

Lemma NewDecCoinFromDec_nonneg (denom : string) (amount : Z) :
  0 <= amount ->
  sdk.NewDecCoinFromDec denom amount = Ok (sdk.mkDecCoin denom amount).
Proof.
  intros H. unfold sdk.NewDecCoinFromDec.
  destruct (amount <? 0) eqn:E; [lia | reflexivity].
Qed.

Lemma CalcOutAmtGivenIn_eq (Pow : Z -> Z -> result Z) (p : Pool)
    (tokenIn : sdk.Coin) (tokenOutDenom : string) (swapFee : Z)
    (poolAssetIn poolAssetOut : PoolAsset) :
  findAsset (PoolAssets p) (sdk.Denom tokenIn) = Some poolAssetIn ->
  findAsset (PoolAssets p) tokenOutDenom = Some poolAssetOut ->
  CalcOutAmtGivenIn Pow p [tokenIn] tokenOutDenom swapFee
  = (let* tokenAmountOut :=
       spec_calcOutGivenIn Pow poolAssetIn poolAssetOut
         (sdk.Amount tokenIn) swapFee in
     sdk.NewDecCoinFromDec tokenOutDenom tokenAmountOut).
Proof.
  intros Hin Hout. unfold CalcOutAmtGivenIn.
  rewrite (parsePoolAssets_one _ _ _ _ _ Hin Hout). reflexivity.
Qed.

Lemma CalcInAmtGivenOut_eq (Pow : Z -> Z -> result Z) (p : Pool)
    (tokenOut : sdk.Coin) (tokenInDenom : string) (swapFee : Z)
    (poolAssetOut poolAssetIn : PoolAsset) :
  findAsset (PoolAssets p) (sdk.Denom tokenOut) = Some poolAssetOut ->
  findAsset (PoolAssets p) tokenInDenom = Some poolAssetIn ->
  CalcInAmtGivenOut Pow p [tokenOut] tokenInDenom swapFee
  = (let* tokenAmountIn :=
       spec_calcInGivenOut Pow poolAssetOut poolAssetIn
         (sdk.Amount tokenOut) swapFee in
     sdk.NewDecCoinFromDec tokenInDenom tokenAmountIn).
Proof.
  intros Hout Hin. unfold CalcInAmtGivenOut.
  rewrite (parsePoolAssets_one _ _ _ _ _ Hout Hin).
  unfold spec_calcInGivenOut. simpl.
  destruct (solveConstantFunctionInvariant _ _ _ _ _ _); reflexivity.
Qed.

(** The calculators return no error of their own making: an error they
    return is one of the power function's or of the lookup of the assets. *)
Lemma Quo_not_Err (d d2 : Z) (e : error) : sdk.Quo d d2 <> Err e.
Proof. unfold sdk.Quo. destruct (d2 =? 0); discriminate. Qed.

Lemma NewDecCoinFromDec_not_Err (denom : string) (amount : Z) (e : error) :
  sdk.NewDecCoinFromDec denom amount <> Err e.
Proof. unfold sdk.NewDecCoinFromDec. destruct (amount <? 0); discriminate. Qed.

Lemma bind_Err_inv {A B : Type} (r : result A) (k : A -> result B) (e : error) :
  bind r k = Err e -> r = Err e \/ exists a, r = Ok a /\ k a = Err e.
Proof.
  destruct r as [a|e'|x]; simpl; intros H;
    [eauto | left; inversion H; reflexivity | discriminate].
Qed.

Lemma solve_not_Err (Pow : Z -> Z -> result Z) (e : error)
    (before after wFixed balUnknown wUnknown : Z) :
  (forall base exp, Pow base exp <> Err e) ->
  solveConstantFunctionInvariant Pow before after wFixed balUnknown wUnknown
  <> Err e.
Proof.
  intros HPow H. unfold solveConstantFunctionInvariant in H.
  apply bind_Err_inv in H as [H | (w & _ & H)]; [exact (Quo_not_Err _ _ _ H)|].
  apply bind_Err_inv in H as [H | (y & _ & H)]; [exact (Quo_not_Err _ _ _ H)|].
  apply bind_Err_inv in H as [H | (v & _ & H)]; [exact (HPow _ _ H) | discriminate].
Qed.

Lemma GetPoolAsset_Err (p : Pool) (denom : string) (e : error) :
  GetPoolAsset p denom = Err e -> e = ErrDenomNotInPool.
Proof.
  unfold GetPoolAsset. destruct (findAsset _ _); intros H; inversion H; reflexivity.
Qed.

Lemma parsePoolAssets_Err (p : Pool) (tokensA : list sdk.Coin) (denom : string)
    (e : error) :
  parsePoolAssets p tokensA denom = Err e ->
  e = ErrDenomNotInPool \/ e = ErrBadCoinCount.
Proof.
  unfold parsePoolAssets, parsePoolAssetsByDenoms.
  destruct tokensA as [|tokenA [|t rest]]; intros H;
    try (right; inversion H; reflexivity).
  left.
  apply bind_Err_inv in H as [H | ([a b] & _ & H)]; [|discriminate].
  apply bind_Err_inv in H as [H | (a & _ & H)];
    [exact (GetPoolAsset_Err _ _ _ H)|].
  apply bind_Err_inv in H as [H | (b & _ & H)];
    [exact (GetPoolAsset_Err _ _ _ H) | discriminate].
Qed.

Lemma CalcOutAmtGivenIn_no_math_error (Pow : Z -> Z -> result Z) (p : Pool)
    (tokensIn : list sdk.Coin) (tokenOutDenom : string) (swapFee : Z) :
  (forall base exp, Pow base exp <> Err ErrInvalidMathApprox) ->
  CalcOutAmtGivenIn Pow p tokensIn tokenOutDenom swapFee
  <> Err ErrInvalidMathApprox.
Proof.
  intros HPow H. unfold CalcOutAmtGivenIn in H.
  apply bind_Err_inv in H as [H | ([[tokenIn inA] outA] & _ & H)].
  - apply parsePoolAssets_Err in H as [H | H]; discriminate H.
  - apply bind_Err_inv in H as [H | (d & _ & H)].
    + exact (solve_not_Err Pow _ _ _ _ _ _ HPow H).
    + exact (NewDecCoinFromDec_not_Err _ _ _ H).
Qed.

Lemma PowApproxLoop_not_Err (fuel : nat) :
  forall (i a x : Z) (xneg : bool) (precision term sum : Z) (negative : bool)
         (e : error),
    osmomath.PowApproxLoop fuel i a x xneg precision term sum negative <> Err e.
Proof.
  induction fuel as [|fuel IH]; intros i a x xneg precision term sum negative e;
    simpl.
  - destruct (term <? precision); discriminate.
  - destruct (term <? precision); [discriminate|].
    destruct (osmomath.AbsDifferenceWithSign a _) as [c cneg].
    intros H. apply bind_Err_inv in H as [H | (term' & _ & H)].
    + exact (Quo_not_Err _ _ _ H).
    + destruct (sdk.IsZero term'); [discriminate | exact (IH _ _ _ _ _ _ _ _ _ H)].
Qed.

Lemma osmomath_Pow_not_Err (base exp : Z) (e : error) :
  osmomath.Pow base exp <> Err e.
Proof.
  unfold osmomath.Pow.
  destruct (negb _); [discriminate|].
  destruct (_ <=? base); [discriminate|].
  destruct (_ || _); [discriminate|].
  destruct (sdk.IsZero _); [discriminate|].
  intros H. apply bind_Err_inv in H as [H | (v & _ & H)]; [|discriminate].
  unfold osmomath.PowApprox in H.
  destruct (osmomath.AbsDifferenceWithSign base osmomath.one) as [x xneg].
  exact (PowApproxLoop_not_Err _ _ _ _ _ _ _ _ _ _ H).
Qed.

(** ** What the keeper's swaps return *)

Lemma sendAll_outcome (coins : list sdk.Coin) :
  forall (b : gmap (string * string) Z) (from to : string),
    (exists b', sendAll b from to coins = Ok b')
    \/ sendAll b from to coins = Err ErrInsufficientFunds.
Proof.
  induction coins as [|c rest IH]; intros b from to; simpl.
  - left. eauto.
  - destruct (_ <? _); [right; reflexivity | apply IH].
Qed.

Lemma SendCoins_outcome (s : State) (from to : string) (coins : list sdk.Coin) :
  (exists s', SendCoins s from to coins = Ok s' /\ pools s' = pools s)
  \/ SendCoins s from to coins = Err ErrInsufficientFunds.
Proof.
  unfold SendCoins.
  destruct (sendAll_outcome coins (bank s) from to) as [[b' ->] | ->]; simpl.
  - left. eauto.
  - right. reflexivity.
Qed.

(** The ways [updatePoolForSwap] ends: done; or refused before anything is
    stored, because a denom is not in the pool; or refused by the bank after
    the staged pool has been stored. *)
Lemma updatePoolForSwap_outcome (s : State) (pool : Pool) (sender : string)
    (tokenIn tokenOut : sdk.Coin) :
  (exists s', updatePoolForSwap s pool sender tokenIn tokenOut = (Ok tt, s'))
  \/ updatePoolForSwap s pool sender tokenIn tokenOut = (Err ErrDenomNotInPool, s)
  \/ (exists s' pool',
         updatePoolForSwap s pool sender tokenIn tokenOut
         = (Err ErrInsufficientFunds, s')
         /\ pools s' = <[Id pool' := pool']> (pools s)).
Proof.
  unfold updatePoolForSwap.
  destruct (AddPoolAssetBalance pool tokenIn) as [pool1|e|x] eqn:E1.
  2:{ right; left. unfold AddPoolAssetBalance, GetPoolAsset in E1.
      destruct (findAsset _ _); simpl in E1; inversion E1. reflexivity. }
  2:{ unfold AddPoolAssetBalance, GetPoolAsset in E1.
      destruct (findAsset _ _); simpl in E1; inversion E1. }
  destruct (SubPoolAssetBalance pool1 tokenOut) as [pool2|e|x] eqn:E2.
  2:{ right; left. unfold SubPoolAssetBalance, GetPoolAsset in E2.
      destruct (findAsset _ _); simpl in E2; inversion E2. reflexivity. }
  2:{ unfold SubPoolAssetBalance, GetPoolAsset in E2.
      destruct (findAsset _ _); simpl in E2; inversion E2. }
  destruct (SendCoins_outcome (SetPool s pool2) sender (Address pool2) [tokenIn])
    as [(s2 & -> & Hp2) | ->].
  2:{ right; right. exists (SetPool s pool2), pool2. split; reflexivity. }
  destruct (SendCoins_outcome s2 (Address pool2) sender [tokenOut])
    as [(s3 & -> & Hp3) | ->].
  - left. eauto.
  - right; right. exists s2, pool2. split; [reflexivity | exact Hp2].
Qed.

(** C3 (as amended).  [CalcOutAmtGivenIn] computes the decimal of the spec's
    three steps and returns it as it is, as a decimal coin: it neither
    truncates it (a decimal that is not negative is always returned) nor
    fails with the math-approximation error (unless the power function
    itself returned that error, which [osmomath.Pow] never does).  The truncation toward zero
    and that error are [SwapExactAmountIn]'s: once the denoms differ, the
    pool and its two assets are found and the pool is active, the swap
    fails with the math-approximation error exactly when the calculator's
    decimal truncates to an amount [<= 0], and an amount it returns is the
    truncated decimal. *)
Theorem CalcOutAmtGivenIn_spec :
  (forall (Pow : Z -> Z -> result Z) (p : Pool) (tokenIn : sdk.Coin)
          (tokenOutDenom : string) (swapFee : Z)
          (poolAssetIn poolAssetOut : PoolAsset),
      findAsset (PoolAssets p) (sdk.Denom tokenIn) = Some poolAssetIn ->
      findAsset (PoolAssets p) tokenOutDenom = Some poolAssetOut ->
      CalcOutAmtGivenIn Pow p [tokenIn] tokenOutDenom swapFee
      = (let* tokenAmountOut :=
           spec_calcOutGivenIn Pow poolAssetIn poolAssetOut
             (sdk.Amount tokenIn) swapFee in
         sdk.NewDecCoinFromDec tokenOutDenom tokenAmountOut)
      /\ (forall tokenAmountOut,
             spec_calcOutGivenIn Pow poolAssetIn poolAssetOut
               (sdk.Amount tokenIn) swapFee = Ok tokenAmountOut ->
             0 <= tokenAmountOut ->
             CalcOutAmtGivenIn Pow p [tokenIn] tokenOutDenom swapFee
             = Ok (sdk.mkDecCoin tokenOutDenom tokenAmountOut)))
  /\ (forall (Pow : Z -> Z -> result Z) (p : Pool) (tokensIn : list sdk.Coin)
             (tokenOutDenom : string) (swapFee : Z),
      (forall base exp, Pow base exp <> Err ErrInvalidMathApprox) ->
      CalcOutAmtGivenIn Pow p tokensIn tokenOutDenom swapFee
      <> Err ErrInvalidMathApprox)
  /\ (forall (CalcOutGivenIn : Pool -> PoolAsset -> PoolAsset -> Z -> result Z)
             (s : State) (blockTime : Z) (sender : string) (poolId : Z)
             (tokenIn : sdk.Coin) (tokenOutDenom : string)
             (tokenOutMinAmount : Z)
             (pool : Pool) (inPoolAsset outPoolAsset : PoolAsset) (dec : Z),
      sdk.Denom tokenIn <> tokenOutDenom ->
      getPoolAndInOutAssets s poolId (sdk.Denom tokenIn) tokenOutDenom
      = Ok (pool, inPoolAsset, outPoolAsset) ->
      IsActive pool blockTime = true ->
      CalcOutGivenIn pool inPoolAsset outPoolAsset (sdk.Amount tokenIn) = Ok dec ->
      (fst (SwapExactAmountIn CalcOutGivenIn s blockTime sender poolId tokenIn
              tokenOutDenom tokenOutMinAmount) = Err ErrInvalidMathApprox
       <-> sdk.TruncateInt dec <= 0)
      /\ (forall tokenOutAmount,
             fst (SwapExactAmountIn CalcOutGivenIn s blockTime sender poolId
                    tokenIn tokenOutDenom tokenOutMinAmount) = Ok tokenOutAmount ->
             tokenOutAmount = sdk.TruncateInt dec)).
Proof.
  split; [|split].
  - intros Pow p tokenIn tokenOutDenom swapFee poolAssetIn poolAssetOut Hin Hout.
    split; [apply CalcOutAmtGivenIn_eq; assumption|].
    intros d Hd Hge.
    rewrite (CalcOutAmtGivenIn_eq _ _ _ _ _ _ _ Hin Hout), Hd. simpl.
    apply NewDecCoinFromDec_nonneg; exact Hge.
  - exact CalcOutAmtGivenIn_no_math_error.
  - intros calc s blockTime sender poolId tokenIn tokenOutDenom tokenOutMinAmount
           pool inA outA dec Hne Hget Hact Hcalc.
    unfold SwapExactAmountIn.
    apply String.eqb_neq in Hne. rewrite Hne, Hget, Hact, Hcalc. simpl negb.
    cbv iota.
    destruct (sdk.TruncateInt dec <=? 0) eqn:Ez.
    + simpl. split; [split; [lia | reflexivity] | discriminate].
    + destruct (sdk.TruncateInt dec <? tokenOutMinAmount) eqn:Em.
      * simpl. split; [split; [discriminate | lia] | discriminate].
      * cbv zeta.
        destruct (updatePoolForSwap_outcome s pool sender tokenIn
                    (sdk.mkCoin tokenOutDenom (sdk.TruncateInt dec)))
          as [[s1 E] | [E | (s1 & pool' & E & _)]]; rewrite E; simpl.
        -- split; [split; [discriminate | lia] |].
           intros a H; inversion H; reflexivity.
        -- split; [split; [discriminate | lia] | discriminate].
        -- split; [split; [discriminate | lia] | discriminate].
Qed.

(** Scenario A: 100 uatom into the pool of 1000 and 1000, fee 0.003.  The
    calculator returns the decimal 90.661089388014913; the keeper's swap
    pays out 90. *)
Lemma CalcOutAmtGivenIn_spec_witness :
  CalcOutAmtGivenIn osmomath.Pow poolA [sdk.mkCoin "uatom" 100] "uosmo" (3 * 10 ^ 15)
  = Ok (sdk.mkDecCoin "uosmo" 90661089388014913000)
  /\ (fst (SwapExactAmountIn types_CalcOutGivenIn stateA 0 "alice" 1
             (sdk.mkCoin "uatom" 100) "uosmo" 1) = Err ErrInvalidMathApprox
      <-> sdk.TruncateInt 90661089388014913000 <= 0)
  /\ CalcOutAmtGivenIn osmomath.Pow poolA [sdk.mkCoin "uatom" 1] "uosmo" (3 * 10 ^ 15)
     <> Err ErrInvalidMathApprox.
Proof.
  split; [|split].
  - apply (proj2 (proj1 CalcOutAmtGivenIn_spec osmomath.Pow poolA
                    (sdk.mkCoin "uatom" 100) "uosmo" (3 * 10 ^ 15)
                    (asset "uatom" 1000 1) (asset "uosmo" 1000 1)
                    eq_refl eq_refl)).
    + vm_compute. reflexivity.
    + vm_compute. discriminate.
  - apply (proj1 (proj2 (proj2 CalcOutAmtGivenIn_spec) types_CalcOutGivenIn
                    stateA 0 "alice" 1 (sdk.mkCoin "uatom" 100) "uosmo" 1
                    poolA (asset "uatom" 1000 1) (asset "uosmo" 1000 1)
                    90661089388014913000
                    ltac:(discriminate) eq_refl eq_refl
                    ltac:(vm_compute; reflexivity))).
  - apply (proj1 (proj2 CalcOutAmtGivenIn_spec) osmomath.Pow poolA
             [sdk.mkCoin "uatom" 1] "uosmo" (3 * 10 ^ 15)).
    intros base exp. apply osmomath_Pow_not_Err.
Defined.

(** C3, as stated, fails.  One uatom into the pool of scenario A: the
    calculator returns the decimal 0.996006981039903, which is not truncated
    and truncates to 0, and does not fail.  One uatom into a pool that holds
    [10^20] of them: it returns the decimal 0. *)
Lemma CalcOutAmtGivenIn_returns_untruncated :
  CalcOutAmtGivenIn osmomath.Pow poolA [sdk.mkCoin "uatom" 1] "uosmo" (3 * 10 ^ 15)
  = Ok (sdk.mkDecCoin "uosmo" 996006981039903000)
  /\ sdk.TruncateInt 996006981039903000 = 0
  /\ CalcOutAmtGivenIn osmomath.Pow (pool2 (10 ^ 20) 1 1000 1 100)
       [sdk.mkCoin "uatom" 1] "uosmo" (3 * 10 ^ 15)
     = Ok (sdk.mkDecCoin "uosmo" 0).
Proof. repeat split; vm_compute; reflexivity. Qed.

(** ** The single-asset join against the spec's formulas *)

Lemma Mul_comm (d d2 : Z) : sdk.Mul d d2 = sdk.Mul d2 d.
Proof. unfold sdk.Mul. rewrite Z.mul_comm. reflexivity. Qed.

(** C5 (as amended).  [singleAssetJoin], and [JoinPool] of one coin, return
    the shares of the spec's formulas, the negated solver amount truncated
    toward zero, whatever their sign: there is no check of the result, and
    no math-approximation error (unless the power function itself returned
    that error, which [osmomath.Pow] never does). *)
Theorem singleAssetJoin_spec (Pow : Z -> Z -> result Z) (p : Pool)
    (tokenIn : sdk.Coin) (swapFee : Z) :
  singleAssetJoin Pow p tokenIn swapFee
  = (spec_singleAssetJoin Pow p tokenIn swapFee, p)
  /\ JoinPool Pow p [tokenIn] swapFee
     = (spec_singleAssetJoin Pow p tokenIn swapFee, p)
  /\ ((forall base exp, Pow base exp <> Err ErrInvalidMathApprox) ->
      fst (JoinPool Pow p [tokenIn] swapFee) <> Err ErrInvalidMathApprox).
Proof.
  assert (H : singleAssetJoin Pow p tokenIn swapFee
              = (spec_singleAssetJoin Pow p tokenIn swapFee, p)).
  { unfold singleAssetJoin, spec_singleAssetJoin, calcPoolOutGivenSingleIn.
    destruct (GetPoolAsset p (sdk.Denom tokenIn)) as [a| |]; simpl; try reflexivity.
    destruct (sdk.Quo _ _) as [nw| |]; simpl; try reflexivity.
    rewrite (Mul_comm (sdk.Sub sdk.OneDec nw) swapFee).
    destruct (solveConstantFunctionInvariant _ _ _ _ _ _); reflexivity. }
  split; [exact H | split; [exact H|]].
  intros HPow. change (JoinPool Pow p [tokenIn] swapFee)
    with (singleAssetJoin Pow p tokenIn swapFee).
  rewrite H. simpl fst. unfold spec_singleAssetJoin. intros E.
  apply bind_Err_inv in E as [E | (a & _ & E)].
  - apply GetPoolAsset_Err in E. discriminate E.
  - apply bind_Err_inv in E as [E | (nw & _ & E)]; [exact (Quo_not_Err _ _ _ E)|].
    apply bind_Err_inv in E as [E | (d & _ & E)]; [|discriminate].
    exact (solve_not_Err Pow _ _ _ _ _ _ HPow E).
Qed.

(** 100 uatom offered to the pool of scenario A. *)
Lemma singleAssetJoin_spec_witness :
  JoinPool osmomath.Pow poolA [sdk.mkCoin "uatom" 100] (3 * 10 ^ 15)
  = (spec_singleAssetJoin osmomath.Pow poolA (sdk.mkCoin "uatom" 100) (3 * 10 ^ 15),
     poolA)
  /\ fst (JoinPool osmomath.Pow poolA [sdk.mkCoin "uatom" 100] (3 * 10 ^ 15))
     <> Err ErrInvalidMathApprox.
Proof.
  split.
  - exact (proj1 (proj2 (singleAssetJoin_spec osmomath.Pow poolA
                           (sdk.mkCoin "uatom" 100) (3 * 10 ^ 15)))).
  - apply (proj2 (proj2 (singleAssetJoin_spec osmomath.Pow poolA
                           (sdk.mkCoin "uatom" 100) (3 * 10 ^ 15)))).
    intros base exp. apply osmomath_Pow_not_Err.
Defined.

(** C5, as stated, fails.  One uatom offered to the pool of scenario A is
    worth less than one share: the join returns 0 shares and no error. *)
Lemma singleAssetJoin_returns_zero_shares :
  singleAssetJoin osmomath.Pow poolA (sdk.mkCoin "uatom" 1) (3 * 10 ^ 15)
  = (Ok 0, poolA)
  /\ JoinPool osmomath.Pow poolA [sdk.mkCoin "uatom" 1] (3 * 10 ^ 15)
     = (Ok 0, poolA).
Proof. split; vm_compute; reflexivity. Qed.

(** * Further properties of the code *)

(** ** ExitPool below the total of shares *)

Lemma not_Exists_Forall_not {A : Type} (P : A -> Prop) (l : list A) :
  ~ Exists P l -> Forall (fun x => ~ P x) l.
Proof.
  induction l as [|x l IH]; intros H; constructor.
  - intros Hx. apply H. left. exact Hx.
  - apply IH. intros Hl. apply H. right. exact Hl.
Qed.

(** [ExitPool] on a pool where no asset is overdrawn. *)
Lemma ExitPool_not_overdrawn (p : Pool) (exitingShares exitFee : Z) :
  exitingShares < GetTotalShares p ->
  NoDup (map denomOf (PoolAssets p)) ->
  spec_refundedShares exitingShares exitFee <> 0 ->
  Forall (fun a =>
            ~ overdrawn (spec_shareOutRatio (GetTotalShares p)
                           (spec_refundedShares exitingShares exitFee)) a)
         (PoolAssets p) ->
  ExitPool p exitingShares exitFee
  = (Ok (fst (spec_exitPool p exitingShares exitFee)),
     snd (spec_exitPool p exitingShares exitFee)).
Proof.
  intros Hlt Hnd Hr Hover. unfold ExitPool.
  destruct (GetTotalShares p <=? exitingShares) eqn:E; [lia|].
  rewrite refundedSharesOf_spec. unfold sdk.QuoInt.
  destruct (spec_refundedShares exitingShares exitFee =? 0) eqn:E0; [lia|].
  change (Z.quot (sdk.ToDec (GetTotalShares p))
                 (spec_refundedShares exitingShares exitFee))
    with (spec_shareOutRatio (GetTotalShares p)
            (spec_refundedShares exitingShares exitFee)).
  unfold GetTotalLpBalances.
  rewrite (exitLoop_spec _ (PoolAssets p) [] [] p); auto.
  simpl app. rewrite NewCoin_nonneg by (simpl; lia).
  reflexivity.
Qed.

(** The share ratio of the code is at least 1 when at most all shares are
    refunded, and then an exit amount is at least the balance. *)
Lemma shareOutRatio_ge_one (totalShares refundedShares : Z) :
  0 < refundedShares <= totalShares ->
  10 ^ 18 <= spec_shareOutRatio totalShares refundedShares.
Proof.
  intros [Hr Hle]. unfold spec_shareOutRatio.
  assert (Hs : 0 < 10 ^ 18) by (vm_compute; reflexivity).
  set (s := 10 ^ 18) in *. clearbody s.
  rewrite Z.quot_div_nonneg by nia.
  apply Z.div_le_lower_bound; [lia | nia].
Qed.

Lemma exitAmt_ge_balance (shareOutRatio bal : Z) :
  10 ^ 18 <= shareOutRatio -> 0 <= bal ->
  bal <= spec_exitAmt shareOutRatio bal.
Proof.
  intros Hr Hb. unfold spec_exitAmt.
  assert (Hs : 0 < 10 ^ 18) by (vm_compute; reflexivity).
  set (s := 10 ^ 18) in *. clearbody s.
  rewrite Z.quot_div_nonneg by nia.
  apply Z.div_le_lower_bound; [lia | nia].
Qed.

Lemma exitAmt_ge_factor (k shareOutRatio bal : Z) :
  0 <= k -> k * 10 ^ 18 <= shareOutRatio -> 0 <= bal ->
  k * bal <= spec_exitAmt shareOutRatio bal.
Proof.
  intros Hk Hr Hb. unfold spec_exitAmt.
  assert (Hs : 0 < 10 ^ 18) by (vm_compute; reflexivity).
  set (s := 10 ^ 18) in *. clearbody s.
  rewrite Z.quot_div_nonneg by nia.
  apply Z.div_le_lower_bound; [lia | nia].
Qed.

(** X1.  Below the total of shares, an exit whose refunded shares are zero
    (no shares at all, or so few that the fee leaves less than one) aborts
    on the division by zero and leaves the pool as it is. *)
Theorem ExitPool_aborts_without_refund (p : Pool) (exitingShares exitFee : Z) :
  exitingShares < GetTotalShares p ->
  (exitingShares = 0
   \/ (exitFee <> 0 /\ 0 <= exitFee <= 10 ^ 18
       /\ 0 <= (10 ^ 18 - exitFee) * exitingShares < 10 ^ 18)) ->
  ExitPool p exitingShares exitFee = (Panic DivisionByZero, p).
Proof.
  intros Hlt H. apply ExitPool_zero_refund; [exact Hlt|].
  unfold spec_refundedShares.
  destruct H as [-> | (Hne & Hfee & Hsmall)].
  - destruct (exitFee =? 0); [reflexivity|]. rewrite Z.mul_0_r. reflexivity.
  - destruct (exitFee =? 0) eqn:E; [apply Z.eqb_eq in E; contradiction|].
    apply Z.quot_small. exact Hsmall.
Qed.

(** No share, and one share under an exit fee of one half. *)
Lemma ExitPool_aborts_without_refund_witness :
  ExitPool poolA 0 0 = (Panic DivisionByZero, poolA)
  /\ ExitPool poolA 1 (5 * 10 ^ 17) = (Panic DivisionByZero, poolA).
Proof.
  split.
  - apply (ExitPool_aborts_without_refund poolA 0 0).
    + vm_compute. reflexivity.
    + left. reflexivity.
  - apply (ExitPool_aborts_without_refund poolA 1 (5 * 10 ^ 17)).
    + vm_compute. reflexivity.
    + right. vm_compute. repeat split; discriminate.
Defined.

(** X2.  Without an exit fee, an exit of at most half of the shares never
    succeeds on a pool that holds anything: the share ratio is at least 2,
    the exit amount of an asset with a positive balance is at least twice
    that balance, and the call aborts in [sdk.NewCoin]. *)
Theorem ExitPool_half_never_succeeds (p : Pool) (exitingShares : Z) :
  0 < exitingShares -> 2 * exitingShares <= GetTotalShares p ->
  Exists (fun a => 0 < balance a) (PoolAssets p) ->
  fst (ExitPool p exitingShares 0) = Panic NegativeCoinAmount.
Proof.
  intros Hpos Hhalf Hex.
  apply ExitPool_overdrawn;
    [lia | change (spec_refundedShares exitingShares 0) with exitingShares; lia |].
  change (spec_refundedShares exitingShares 0) with exitingShares.
  assert (Hr : 2 * 10 ^ 18 <= spec_shareOutRatio (GetTotalShares p) exitingShares).
  { unfold spec_shareOutRatio.
    assert (Hs : 0 < 10 ^ 18) by (vm_compute; reflexivity).
    set (s := 10 ^ 18) in *. clearbody s.
    rewrite Z.quot_div_nonneg by nia.
    apply Z.div_le_lower_bound; [lia | nia]. }
  eapply Exists_impl; [exact Hex|]. simpl. intros a Ha.
  pose proof (exitAmt_ge_factor 2 _ (balance a) ltac:(lia) Hr ltac:(lia)).
  unfold overdrawn. lia.
Qed.

(** A quarter of the shares of the pool of scenario A. *)
Lemma ExitPool_half_never_succeeds_witness :
  fst (ExitPool poolA 25 0) = Panic NegativeCoinAmount.
Proof.
  apply (ExitPool_half_never_succeeds poolA 25).
  - lia.
  - vm_compute. discriminate.
  - left. vm_compute. reflexivity.
Defined.

Lemma exitAsset_whole (shareOutRatio : Z) (a : PoolAsset) :
  0 <= balance a ->
  ~ overdrawn shareOutRatio a ->
  10 ^ 18 <= shareOutRatio ->
  balance (spec_exitAsset shareOutRatio a) = 0
  /\ forall acc,
       spec_exitCoin shareOutRatio acc a
       = (if balance a <=? 0 then acc
          else sdk.CoinsAdd acc (sdk.mkCoin (denomOf a) (balance a))).
Proof.
  intros Hb Hover Hr.
  pose proof (exitAmt_ge_balance shareOutRatio (balance a) Hr Hb) as Hge.
  unfold spec_exitAsset, spec_exitCoin, overdrawn in *.
  destruct (spec_exitAmt shareOutRatio (balance a) <=? 0) eqn:Ez.
  - assert (balance a = 0) by lia. split; [assumption|].
    intros acc. destruct (balance a <=? 0) eqn:Eb; [reflexivity | lia].
  - assert (Heq : spec_exitAmt shareOutRatio (balance a) = balance a) by lia.
    rewrite Heq. split; [unfold balance; simpl; lia|].
    intros acc. destruct (balance a <=? 0) eqn:Eb; [lia | reflexivity].
Qed.

Lemma fold_exitCoin_whole (shareOutRatio : Z) (assets : list PoolAsset) :
  Forall (fun a => 0 <= balance a) assets ->
  Forall (fun a => ~ overdrawn shareOutRatio a) assets ->
  10 ^ 18 <= shareOutRatio ->
  forall acc,
    fold_left (spec_exitCoin shareOutRatio) assets acc
    = fold_left (fun acc a => if balance a <=? 0 then acc
                              else sdk.CoinsAdd acc
                                     (sdk.mkCoin (denomOf a) (balance a)))
                assets acc.
Proof.
  intros Hb Hover Hr. induction assets as [|a rest IH]; intros acc; [reflexivity|].
  apply Forall_cons in Hb as [Ha Hb]. apply Forall_cons in Hover as [Hoa Hover].
  simpl. rewrite (proj2 (exitAsset_whole _ a Ha Hoa Hr)). apply IH; assumption.
Qed.

(** X3.  With at least one and at most all shares refunded, an exit that
    succeeds takes everything: it returns the whole balance of every asset
    that holds something, leaves every balance at zero, and lowers the total
    of shares by the exiting shares only. *)
Theorem ExitPool_success_takes_all (p p' : Pool) (exitingShares exitFee : Z)
    (coins : list sdk.Coin) :
  balances_nonneg p ->
  NoDup (map denomOf (PoolAssets p)) ->
  0 < spec_refundedShares exitingShares exitFee <= GetTotalShares p ->
  ExitPool p exitingShares exitFee = (Ok coins, p') ->
  coins = wholeBalances (PoolAssets p)
  /\ Forall (fun a => balance a = 0) (PoolAssets p')
  /\ GetTotalShares p' = GetTotalShares p - exitingShares.
Proof.
  intros Hnn Hnd Hr Hok.
  assert (Hlt : exitingShares < GetTotalShares p).
  { destruct (Z_lt_ge_dec exitingShares (GetTotalShares p)) as [H|H]; [exact H|].
    rewrite ExitPool_too_many in Hok by lia. discriminate Hok. }
  set (ratio := spec_shareOutRatio (GetTotalShares p)
                  (spec_refundedShares exitingShares exitFee)) in *.
  assert (Hover : Forall (fun a => ~ overdrawn ratio a) (PoolAssets p)).
  { apply not_Exists_Forall_not. intros Hex.
    pose proof (ExitPool_overdrawn p exitingShares exitFee Hlt ltac:(lia) Hex) as Hp.
    rewrite Hok in Hp. discriminate Hp. }
  assert (Hratio : 10 ^ 18 <= ratio) by (apply shareOutRatio_ge_one; exact Hr).
  rewrite (ExitPool_not_overdrawn p exitingShares exitFee Hlt Hnd ltac:(lia) Hover)
    in Hok.
  inversion Hok; subst coins p'. clear Hok.
  unfold spec_exitPool. simpl. fold ratio.
  split; [|split].
  - unfold wholeBalances. apply fold_exitCoin_whole; assumption.
  - unfold balances_nonneg in Hnn.
    induction (PoolAssets p) as [|a rest IH]; simpl; constructor.
    + apply Forall_cons in Hnn as [Ha _]. apply Forall_cons in Hover as [Hoa _].
      exact (proj1 (exitAsset_whole ratio a Ha Hoa Hratio)).
    + apply Forall_cons in Hnn as [_ Hnn]. apply Forall_cons in Hover as [_ Hover].
      apply NoDup_cons in Hnd as [_ Hnd]. apply IH; assumption.
  - reflexivity.
Qed.

(** 1000000 of the 1000001 shares of [poolSmall], which holds 5 and 5. *)
Lemma ExitPool_success_takes_all_witness :
  [sdk.mkCoin "uatom" 5; sdk.mkCoin "uosmo" 5] = wholeBalances (PoolAssets poolSmall)
  /\ Forall (fun a => balance a = 0) (PoolAssets (pool2 0 1 0 1 1))
  /\ GetTotalShares (pool2 0 1 0 1 1) = GetTotalShares poolSmall - 1000000.
Proof.
  apply (ExitPool_success_takes_all poolSmall (pool2 0 1 0 1 1) 1000000 0).
  - repeat constructor; unfold balance; simpl; lia.
  - vm_compute. repeat constructor; rewrite ?elem_of_cons, ?elem_of_nil;
      intros H; repeat (destruct H as [H|H]; [discriminate H|]); exact H.
  - vm_compute. split; [reflexivity | discriminate].
  - vm_compute. reflexivity.
Defined.

(** ** The shape of the pool under ExitPool and ApplySwap *)

Lemma same_shape_refl (p : Pool) : same_shape p p.
Proof. unfold same_shape. repeat split; reflexivity. Qed.

Lemma same_shape_trans (p q r : Pool) :
  same_shape p q -> same_shape q r -> same_shape p r.
Proof.
  unfold same_shape.
  intros (A1 & A2 & A3 & A4 & A5 & A6 & A7) (B1 & B2 & B3 & B4 & B5 & B6 & B7).
  repeat split; congruence.
Qed.

Lemma setBalance_denoms (assets : list PoolAsset) (coin : sdk.Coin) :
  map denomOf (setBalance assets coin) = map denomOf assets
  /\ map Weight (setBalance assets coin) = map Weight assets.
Proof.
  induction assets as [|a rest [IH1 IH2]]; simpl; [split; reflexivity|].
  destruct (String.eqb (denomOf a) (sdk.Denom coin)) eqn:E; simpl.
  - apply String.eqb_eq in E. unfold denomOf at 1. simpl. rewrite E.
    split; reflexivity.
  - rewrite IH1, IH2. split; reflexivity.
Qed.

Lemma withAssets_setBalance_shape (p : Pool) (coin : sdk.Coin) :
  same_shape p (withAssets p (setBalance (PoolAssets p) coin)).
Proof.
  unfold same_shape. simpl.
  destruct (setBalance_denoms (PoolAssets p) coin) as [-> ->].
  repeat split; reflexivity.
Qed.

Lemma UpdatePoolAssetBalance_shape (p : Pool) (coin : sdk.Coin) :
  same_shape p (snd (UpdatePoolAssetBalance p coin)).
Proof.
  unfold UpdatePoolAssetBalance.
  destruct (findAsset _ _); simpl;
    [apply withAssets_setBalance_shape | apply same_shape_refl].
Qed.

Lemma exitLoop_shape (shareOutRatio : Z) (balances : list sdk.Coin) :
  forall (acc : list sdk.Coin) (p : Pool),
    same_shape p (snd (exitLoop shareOutRatio balances acc p)).
Proof.
  induction balances as [|c rest IH]; intros acc p; simpl;
    [apply same_shape_refl|].
  destruct (_ <=? 0); [apply IH|].
  destruct (sdk.NewCoin (sdk.Denom c) _); simpl; try apply same_shape_refl.
  destruct (sdk.NewCoin (sdk.Denom c) _); simpl; try apply same_shape_refl.
  eapply same_shape_trans; [apply UpdatePoolAssetBalance_shape | apply IH].
Qed.

Lemma UpdatePoolAssetBalances_shape (coins : list sdk.Coin) :
  forall p, same_shape p (snd (UpdatePoolAssetBalances p coins)).
Proof.
  induction coins as [|c rest IH]; intros p; simpl; [apply same_shape_refl|].
  pose proof (UpdatePoolAssetBalance_shape p c) as H.
  destruct (UpdatePoolAssetBalance p c) as [[u| |] p1]; simpl in *; try exact H.
  eapply same_shape_trans; [exact H | apply IH].
Qed.

(** X4.  Whatever their arguments and however they end, [ExitPool] and
    [ApplySwap] leave the pool its account, id, fee, window and share denom,
    and asset by asset its denoms and weights: no asset is added, removed,
    renamed, reordered or reweighted. *)
Theorem pool_shape_kept :
  (forall (p : Pool) (exitingShares exitFee : Z),
      same_shape p (snd (ExitPool p exitingShares exitFee)))
  /\ (forall (p : Pool) (tokensIn tokensOut : list sdk.Coin),
      same_shape p (snd (ApplySwap p tokensIn tokensOut))).
Proof.
  split.
  - intros p exitingShares exitFee. unfold ExitPool.
    destruct (_ <=? exitingShares); [apply same_shape_refl|].
    destruct (sdk.QuoInt _ _) as [ratio| |]; simpl; try apply same_shape_refl.
    pose proof (exitLoop_shape ratio (GetTotalLpBalances p) [] p) as H.
    destruct (exitLoop _ _ _ _) as [[coins| |] p1]; simpl in *; try exact H.
    unfold sdk.NewCoin. destruct (_ <? 0); simpl; [exact H|].
    destruct H as (A1 & A2 & A3 & A4 & A5 & A6 & A7).
    unfold same_shape. simpl. repeat split; assumption.
  - intros p tokensIn tokensOut. unfold ApplySwap.
    destruct (parsePoolAssetsCoins _ _ _) as [[inA outA]| |]; simpl;
      try apply same_shape_refl.
    destruct tokensIn; [apply same_shape_refl|].
    destruct tokensOut; [apply same_shape_refl|].
    destruct (sdk.NewCoins _); simpl; try apply same_shape_refl.
    apply UpdatePoolAssetBalances_shape.
Qed.

(** ** What ApplySwap writes *)

Lemma findAsset_denomOf (assets : list PoolAsset) (denom : string) (a : PoolAsset) :
  findAsset assets denom = Some a -> denomOf a = denom.
Proof.
  induction assets as [|a0 rest IH]; simpl; [discriminate|].
  destruct (String.eqb (denomOf a0) denom) eqn:E; intros H.
  - inversion H; subst. apply String.eqb_eq; exact E.
  - auto.
Qed.

Lemma findAsset_setBalance_eq (assets : list PoolAsset) (coin : sdk.Coin)
    (a : PoolAsset) :
  findAsset assets (sdk.Denom coin) = Some a ->
  findAsset (setBalance assets coin) (sdk.Denom coin)
  = Some (mkPoolAsset coin (Weight a)).
Proof.
  induction assets as [|a0 rest IH]; simpl; [discriminate|].
  destruct (String.eqb (denomOf a0) (sdk.Denom coin)) eqn:E; intros H; simpl.
  - inversion H; subst. unfold denomOf at 1. simpl.
    rewrite String.eqb_refl. reflexivity.
  - rewrite E. apply IH. exact H.
Qed.

Lemma balanceIn_found (p : Pool) (denom : string) (a : PoolAsset) :
  findAsset (PoolAssets p) denom = Some a -> balanceIn p denom = balance a.
Proof. unfold balanceIn. intros ->. reflexivity. Qed.

(** Two coins of different denoms, both in the pool, written one after the
    other. *)
Lemma UpdatePoolAssetBalances_two (p : Pool) (c1 c2 : sdk.Coin) (a1 a2 : PoolAsset) :
  findAsset (PoolAssets p) (sdk.Denom c1) = Some a1 ->
  findAsset (PoolAssets p) (sdk.Denom c2) = Some a2 ->
  sdk.Denom c1 <> sdk.Denom c2 ->
  exists p',
    UpdatePoolAssetBalances p [c1; c2] = (Ok tt, p')
    /\ balanceIn p' (sdk.Denom c1) = sdk.Amount c1
    /\ balanceIn p' (sdk.Denom c2) = sdk.Amount c2
    /\ (forall d, d <> sdk.Denom c1 -> d <> sdk.Denom c2 ->
          findAsset (PoolAssets p') d = findAsset (PoolAssets p) d).
Proof.
  intros H1 H2 Hne. simpl. unfold UpdatePoolAssetBalance.
  rewrite H1. simpl PoolAssets.
  rewrite (findAsset_setBalance_ne _ c1 (sdk.Denom c2) Hne), H2.
  eexists. split; [reflexivity|]. simpl PoolAssets. split; [|split].
  - unfold balanceIn. simpl PoolAssets.
    rewrite findAsset_setBalance_ne by congruence.
    rewrite (findAsset_setBalance_eq _ c1 a1 H1). reflexivity.
  - unfold balanceIn. simpl PoolAssets.
    erewrite findAsset_setBalance_eq; [reflexivity|].
    rewrite findAsset_setBalance_ne by exact Hne. exact H2.
  - intros d Hd1 Hd2.
    rewrite findAsset_setBalance_ne by congruence.
    apply findAsset_setBalance_ne. congruence.
Qed.

Lemma compare_neq_cases (d1 d2 : string) :
  d1 <> d2 ->
  (String.compare d1 d2 = Lt /\ String.compare d2 d1 = Gt)
  \/ (String.compare d1 d2 = Gt /\ String.compare d2 d1 = Lt).
Proof.
  intros Hne. pose proof (String.compare_antisym d2 d1) as Ha.
  destruct (String.compare d1 d2) eqn:E.
  - apply String.compare_eq_iff in E. contradiction.
  - left. rewrite Ha. split; reflexivity.
  - right. rewrite Ha. split; reflexivity.
Qed.

Lemma filter_nonzero_keep (c : sdk.Coin) (coins : list sdk.Coin) :
  sdk.Amount c <> 0 ->
  filter (fun c => negb (sdk.Amount c =? 0)) (c :: coins)
  = c :: filter (fun c => negb (sdk.Amount c =? 0)) coins.
Proof.
  intros H. apply filter_cons_True.
  destruct (sdk.Amount c =? 0) eqn:E; [apply Z.eqb_eq in E; contradiction|exact I].
Qed.

Lemma filter_nonzero_drop (c : sdk.Coin) (coins : list sdk.Coin) :
  sdk.Amount c = 0 ->
  filter (fun c => negb (sdk.Amount c =? 0)) (c :: coins)
  = filter (fun c => negb (sdk.Amount c =? 0)) coins.
Proof.
  intros H. apply filter_cons_False. rewrite H. simpl. intros [].
Qed.

(** [sdk.NewCoins] on two positive coins of different denoms: the two coins,
    in the order of their denoms. *)
Lemma NewCoins_two (c1 c2 : sdk.Coin) :
  0 < sdk.Amount c1 -> 0 < sdk.Amount c2 -> sdk.Denom c1 <> sdk.Denom c2 ->
  (String.compare (sdk.Denom c1) (sdk.Denom c2) = Lt
   /\ sdk.NewCoins [c1; c2] = Ok [c1; c2])
  \/ (String.compare (sdk.Denom c1) (sdk.Denom c2) = Gt
      /\ sdk.NewCoins [c1; c2] = Ok [c2; c1]).
Proof.
  intros H1 H2 Hne. unfold sdk.NewCoins.
  rewrite filter_nonzero_keep by lia. rewrite filter_nonzero_keep by lia.
  rewrite filter_nil. simpl.
  assert (P1 : (0 <? sdk.Amount c1) = true) by lia.
  assert (P2 : (0 <? sdk.Amount c2) = true) by lia.
  destruct (compare_neq_cases _ _ Hne) as [[C1 C2] | [C1 C2]]; rewrite C1.
  - left. split; [reflexivity|]. simpl. rewrite P1, P2, C1. reflexivity.
  - right. split; [reflexivity|]. simpl. rewrite P1, P2, C2. reflexivity.
Qed.

(** [sdk.NewCoins] on a positive coin and a coin of amount zero: the positive
    coin alone. *)
Lemma NewCoins_drops_zero (c1 c2 : sdk.Coin) :
  0 < sdk.Amount c1 -> sdk.Amount c2 = 0 -> sdk.NewCoins [c1; c2] = Ok [c1].
Proof.
  intros H1 H2. unfold sdk.NewCoins.
  rewrite filter_nonzero_keep by lia. rewrite filter_nonzero_drop by exact H2.
  rewrite filter_nil. simpl.
  assert (P1 : (0 <? sdk.Amount c1) = true) by lia.
  rewrite P1. reflexivity.
Qed.

(** X5.  A swap applied to the pool, between two different denoms of the
    pool and with both new balances positive, succeeds, raises the balance
    of the in denom by the amount paid in, lowers that of the out denom by
    the amount paid out, and touches no other asset. *)
Theorem ApplySwap_effect (p : Pool) (tokenIn tokenOut : sdk.Coin)
    (inPoolAsset outPoolAsset : PoolAsset) :
  findAsset (PoolAssets p) (sdk.Denom tokenIn) = Some inPoolAsset ->
  findAsset (PoolAssets p) (sdk.Denom tokenOut) = Some outPoolAsset ->
  sdk.Denom tokenIn <> sdk.Denom tokenOut ->
  0 < balance inPoolAsset + sdk.Amount tokenIn ->
  0 < balance outPoolAsset - sdk.Amount tokenOut ->
  exists p',
    ApplySwap p [tokenIn] [tokenOut] = (Ok tt, p')
    /\ balanceIn p' (sdk.Denom tokenIn) = balanceIn p (sdk.Denom tokenIn) + sdk.Amount tokenIn
    /\ balanceIn p' (sdk.Denom tokenOut) = balanceIn p (sdk.Denom tokenOut) - sdk.Amount tokenOut
    /\ (forall d, d <> sdk.Denom tokenIn -> d <> sdk.Denom tokenOut ->
          findAsset (PoolAssets p') d = findAsset (PoolAssets p) d).
Proof.
  intros Hin Hout Hne HposIn HposOut.
  rewrite (balanceIn_found _ _ _ Hin), (balanceIn_found _ _ _ Hout).
  unfold ApplySwap, parsePoolAssetsCoins.
  rewrite (parsePoolAssets_one _ _ _ _ _ Hin Hout). simpl bind. cbv iota.
  rewrite (findAsset_denomOf _ _ _ Hin), (findAsset_denomOf _ _ _ Hout).
  set (cIn := sdk.mkCoin (sdk.Denom tokenIn) (balance inPoolAsset + sdk.Amount tokenIn)).
  set (cOut := sdk.mkCoin (sdk.Denom tokenOut) (balance outPoolAsset - sdk.Amount tokenOut)).
  destruct (NewCoins_two cIn cOut HposIn HposOut Hne) as [[_ ->] | [_ ->]].
  - destruct (UpdatePoolAssetBalances_two p cIn cOut _ _ Hin Hout Hne)
      as (p' & Hp' & B1 & B2 & Hother).
    exists p'. auto.
  - destruct (UpdatePoolAssetBalances_two p cOut cIn _ _ Hout Hin
                ltac:(simpl; congruence))
      as (p' & Hp' & B1 & B2 & Hother).
    exists p'. auto.
Qed.

(** 100 uatom in and 90 uosmo out of the pool of scenario A. *)
Lemma ApplySwap_effect_witness :
  exists p',
    ApplySwap poolA [sdk.mkCoin "uatom" 100] [sdk.mkCoin "uosmo" 90] = (Ok tt, p')
    /\ balanceIn p' "uatom" = balanceIn poolA "uatom" + 100
    /\ balanceIn p' "uosmo" = balanceIn poolA "uosmo" - 90
    /\ (forall d, d <> "uatom" -> d <> "uosmo" ->
          findAsset (PoolAssets p') d = findAsset (PoolAssets poolA) d).
Proof.
  apply (ApplySwap_effect poolA (sdk.mkCoin "uatom" 100) (sdk.mkCoin "uosmo" 90)
           (asset "uatom" 1000 1) (asset "uosmo" 1000 1)).
  - reflexivity.
  - reflexivity.
  - discriminate.
  - vm_compute. reflexivity.
  - vm_compute. reflexivity.
Defined.

Lemma UpdatePoolAssetBalances_one (p : Pool) (c : sdk.Coin) (a : PoolAsset) :
  findAsset (PoolAssets p) (sdk.Denom c) = Some a ->
  exists p',
    UpdatePoolAssetBalances p [c] = (Ok tt, p')
    /\ balanceIn p' (sdk.Denom c) = sdk.Amount c
    /\ (forall d, d <> sdk.Denom c ->
          findAsset (PoolAssets p') d = findAsset (PoolAssets p) d).
Proof.
  intros H. simpl. unfold UpdatePoolAssetBalance. rewrite H.
  eexists. split; [reflexivity|]. simpl PoolAssets. split.
  - unfold balanceIn. simpl PoolAssets.
    rewrite (findAsset_setBalance_eq _ c a H). reflexivity.
  - intros d Hd. apply findAsset_setBalance_ne. congruence.
Qed.

(** X6.  A swap applied to the pool that pays out the whole balance of the
    out denom succeeds but does not record it: [sdk.NewCoins] drops the coin
    of amount zero, so the balance of the out denom stays what it was, while
    the balance of the in denom is raised. *)
Theorem ApplySwap_whole_balance_out (p : Pool) (tokenIn tokenOut : sdk.Coin)
    (inPoolAsset outPoolAsset : PoolAsset) :
  findAsset (PoolAssets p) (sdk.Denom tokenIn) = Some inPoolAsset ->
  findAsset (PoolAssets p) (sdk.Denom tokenOut) = Some outPoolAsset ->
  0 < balance inPoolAsset + sdk.Amount tokenIn ->
  sdk.Amount tokenOut = balance outPoolAsset ->
  sdk.Denom tokenIn <> sdk.Denom tokenOut ->
  exists p',
    ApplySwap p [tokenIn] [tokenOut] = (Ok tt, p')
    /\ balanceIn p' (sdk.Denom tokenIn) = balanceIn p (sdk.Denom tokenIn) + sdk.Amount tokenIn
    /\ balanceIn p' (sdk.Denom tokenOut) = balanceIn p (sdk.Denom tokenOut).
Proof.
  intros Hin Hout HposIn Hall Hne.
  rewrite (balanceIn_found _ _ _ Hin).
  unfold ApplySwap, parsePoolAssetsCoins.
  rewrite (parsePoolAssets_one _ _ _ _ _ Hin Hout). simpl bind. cbv iota.
  rewrite (findAsset_denomOf _ _ _ Hin), (findAsset_denomOf _ _ _ Hout).
  rewrite NewCoins_drops_zero by (simpl; lia).
  destruct (UpdatePoolAssetBalances_one p
              (sdk.mkCoin (sdk.Denom tokenIn)
                 (balance inPoolAsset + sdk.Amount tokenIn)) _ Hin)
    as (p' & Hp' & B1 & Hother).
  exists p'. split; [exact Hp'|]. split; [exact B1|].
  unfold balanceIn. rewrite Hother by (simpl; congruence). reflexivity.
Qed.

(** 100 uatom in and all 1000 uosmo out of the pool of scenario A. *)
Lemma ApplySwap_whole_balance_out_witness :
  exists p',
    ApplySwap poolA [sdk.mkCoin "uatom" 100] [sdk.mkCoin "uosmo" 1000] = (Ok tt, p')
    /\ balanceIn p' "uatom" = balanceIn poolA "uatom" + 100
    /\ balanceIn p' "uosmo" = balanceIn poolA "uosmo".
Proof.
  apply (ApplySwap_whole_balance_out poolA (sdk.mkCoin "uatom" 100)
           (sdk.mkCoin "uosmo" 1000) (asset "uatom" 1000 1) (asset "uosmo" 1000 1)).
  - reflexivity.
  - reflexivity.
  - vm_compute. reflexivity.
  - reflexivity.
  - discriminate.
Defined.

(** ** The keeper's swaps when they succeed *)

(** One coin sent between two different accounts. *)
Lemma sendAll_one (b b' : gmap (string * string) Z) (from to : string)
    (c : sdk.Coin) :
  from <> to ->
  sendAll b from to [c] = Ok b' ->
  sdk.Amount c <= balanceOf b from (sdk.Denom c)
  /\ balanceOf b' from (sdk.Denom c) = balanceOf b from (sdk.Denom c) - sdk.Amount c
  /\ balanceOf b' to (sdk.Denom c) = balanceOf b to (sdk.Denom c) + sdk.Amount c
  /\ (forall a d, (a <> from /\ a <> to) \/ d <> sdk.Denom c ->
        balanceOf b' a d = balanceOf b a d).
Proof.
  intros Hne. simpl.
  destruct (balanceOf b from (sdk.Denom c) <? sdk.Amount c) eqn:E; [discriminate|].
  intros H; inversion H; subst b'; clear H.
  apply Z.ltb_ge in E. split; [exact E|].
  assert (Hto : balanceOf
                  (<[(from, sdk.Denom c) := balanceOf b from (sdk.Denom c) - sdk.Amount c]> b)
                  to (sdk.Denom c) = balanceOf b to (sdk.Denom c)).
  { unfold balanceOf at 1. rewrite lookup_insert_ne by congruence. reflexivity. }
  rewrite Hto. split; [|split].
  - unfold balanceOf at 1. rewrite lookup_insert_ne by congruence.
    rewrite lookup_insert_eq. reflexivity.
  - unfold balanceOf at 1. rewrite lookup_insert_eq. reflexivity.
  - intros a d Had. unfold balanceOf at 1.
    rewrite !lookup_insert_ne by (intros Heq; inversion Heq; subst; tauto).
    reflexivity.
Qed.

Lemma SendCoins_one (s s' : State) (from to : string) (c : sdk.Coin) :
  from <> to ->
  SendCoins s from to [c] = Ok s' ->
  pools s' = pools s
  /\ sdk.Amount c <= balanceOf (bank s) from (sdk.Denom c)
  /\ balanceOf (bank s') from (sdk.Denom c)
     = balanceOf (bank s) from (sdk.Denom c) - sdk.Amount c
  /\ balanceOf (bank s') to (sdk.Denom c)
     = balanceOf (bank s) to (sdk.Denom c) + sdk.Amount c
  /\ (forall a d, (a <> from /\ a <> to) \/ d <> sdk.Denom c ->
        balanceOf (bank s') a d = balanceOf (bank s) a d).
Proof.
  intros Hne H. unfold SendCoins in H.
  apply bind_Ok_inv in H as (b & Hb & H). inversion H; subst s'; clear H.
  simpl. split; [reflexivity|]. apply (sendAll_one _ _ _ _ _ Hne Hb).
Qed.

(** The pool that [updatePoolForSwap] stages, when the two denoms differ. *)
Lemma staged_pool (pool pool1 pool2 : Pool) (tokenIn tokenOut : sdk.Coin) :
  sdk.Denom tokenIn <> sdk.Denom tokenOut ->
  AddPoolAssetBalance pool tokenIn = Ok pool1 ->
  SubPoolAssetBalance pool1 tokenOut = Ok pool2 ->
  same_shape pool pool2
  /\ balanceIn pool2 (sdk.Denom tokenIn)
     = balanceIn pool (sdk.Denom tokenIn) + sdk.Amount tokenIn
  /\ balanceIn pool2 (sdk.Denom tokenOut)
     = balanceIn pool (sdk.Denom tokenOut) - sdk.Amount tokenOut
  /\ (forall d, d <> sdk.Denom tokenIn -> d <> sdk.Denom tokenOut ->
        findAsset (PoolAssets pool2) d = findAsset (PoolAssets pool) d).
Proof.
  intros Hne H1 H2.
  apply AddPoolAssetBalance_Ok in H1 as (a & Ha & ->).
  apply SubPoolAssetBalance_Ok in H2 as (b & Hb & ->).
  simpl in Hb. rewrite findAsset_setBalance_ne in Hb by exact Hne.
  rewrite withAssets_withAssets. simpl PoolAssets.
  set (cIn := sdk.mkCoin (sdk.Denom tokenIn) (balance a + sdk.Amount tokenIn)).
  set (cOut := sdk.mkCoin (sdk.Denom tokenOut) (balance b - sdk.Amount tokenOut)).
  rewrite (balanceIn_found _ _ _ Ha), (balanceIn_found _ _ _ Hb).
  split; [|split; [|split]].
  - eapply same_shape_trans; [apply (withAssets_setBalance_shape pool cIn)|].
    apply (withAssets_setBalance_shape
             (withAssets pool (setBalance (PoolAssets pool) cIn)) cOut).
  - unfold balanceIn. simpl PoolAssets.
    rewrite (findAsset_setBalance_ne _ cOut (sdk.Denom tokenIn))
      by (simpl; congruence).
    pose proof (findAsset_setBalance_eq _ cIn a Ha) as E.
    change (sdk.Denom cIn) with (sdk.Denom tokenIn) in E.
    rewrite E. reflexivity.
  - unfold balanceIn. simpl PoolAssets.
    assert (Hb' : findAsset (setBalance (PoolAssets pool) cIn) (sdk.Denom cOut)
                  = Some b).
    { simpl. rewrite (findAsset_setBalance_ne _ cIn (sdk.Denom tokenOut) Hne).
      exact Hb. }
    pose proof (findAsset_setBalance_eq _ cOut b Hb') as E.
    change (sdk.Denom cOut) with (sdk.Denom tokenOut) in E.
    rewrite E. reflexivity.
  - intros d Hd1 Hd2.
    rewrite (findAsset_setBalance_ne _ cOut d) by (simpl; congruence).
    apply (findAsset_setBalance_ne _ cIn d). simpl; congruence.
Qed.

Lemma updatePoolForSwap_swapped (s s' : State) (pool : Pool) (sender : string)
    (tokenIn tokenOut : sdk.Coin) :
  sender <> Address pool ->
  sdk.Denom tokenIn <> sdk.Denom tokenOut ->
  updatePoolForSwap s pool sender tokenIn tokenOut = (Ok tt, s') ->
  swapped s s' pool sender tokenIn tokenOut.
Proof.
  intros Hsender Hne. unfold updatePoolForSwap.
  destruct (AddPoolAssetBalance pool tokenIn) as [pool1| |] eqn:E1; try discriminate.
  destruct (SubPoolAssetBalance pool1 tokenOut) as [pool2| |] eqn:E2; try discriminate.
  destruct (staged_pool _ _ _ _ _ Hne E1 E2) as (Hshape & Bin & Bout & Bother).
  assert (Haddr : Address pool2 = Address pool) by apply Hshape.
  assert (Hid : Id pool2 = Id pool) by apply Hshape.
  rewrite Haddr.
  destruct (SendCoins (SetPool s pool2) sender (Address pool) [tokenIn])
    as [s2| |] eqn:E3; try discriminate.
  destruct (SendCoins s2 (Address pool) sender [tokenOut])
    as [s3| |] eqn:E4; try discriminate.
  intros H; inversion H; subst s3; clear H.
  apply (SendCoins_one _ _ _ _ _ Hsender) in E3
    as (Hp2 & Fin & Sin & Pin & Oin).
  apply (SendCoins_one _ _ _ _ _ (not_eq_sym Hsender)) in E4
    as (Hp3 & Fout & Pout & Sout & Oout).
  simpl in Hp2, Fin, Sin, Pin, Oin.
  exists pool2. cbv zeta.
  split; [rewrite Hp3, Hp2, Hid; reflexivity|].
  split; [exact Hshape|]. split; [exact Bin|]. split; [exact Bout|].
  split; [exact Bother|]. split; [exact Fin|].
  split; [rewrite Oout by (right; exact Hne); exact Sin|].
  split; [rewrite Oout by (right; exact Hne); exact Pin|].
  split; [rewrite <- (Oin (Address pool) (sdk.Denom tokenOut))
            by (right; congruence); exact Fout|].
  split; [rewrite Pout; rewrite (Oin (Address pool) (sdk.Denom tokenOut))
            by (right; congruence); reflexivity|].
  split; [rewrite Sout; rewrite (Oin sender (sdk.Denom tokenOut))
            by (right; congruence); reflexivity|].
  intros a d Had.
  rewrite Oout by (destruct Had as [[? ?]|[? ?]]; [left; split; congruence | right; congruence]).
  apply Oin. destruct Had as [[? ?]|[? ?]]; [left; split; congruence | right; congruence].
Qed.

(** X7.  When [updatePoolForSwap] succeeds for a sender other than the pool's
    own account and two different denoms, the pool is stored under its id
    with the in balance raised by the amount of [tokenIn] and the out balance
    lowered by the amount of [tokenOut], its other fields and assets as they
    were; the bank has moved the same two amounts between the sender and the
    pool's account, both of which held enough, and no other balance of the
    bank has changed. *)
Theorem updatePoolForSwap_books (s s' : State) (pool : Pool) (sender : string)
    (tokenIn tokenOut : sdk.Coin) :
  sender <> Address pool ->
  sdk.Denom tokenIn <> sdk.Denom tokenOut ->
  updatePoolForSwap s pool sender tokenIn tokenOut = (Ok tt, s') ->
  swapped s s' pool sender tokenIn tokenOut.
Proof. exact (updatePoolForSwap_swapped s s' pool sender tokenIn tokenOut). Qed.

(** The trader of scenario A pays 100 uatom for 90 uosmo. *)
Lemma updatePoolForSwap_books_witness :
  swapped stateA
    (snd (updatePoolForSwap stateA poolA "alice"
            (sdk.mkCoin "uatom" 100) (sdk.mkCoin "uosmo" 90)))
    poolA "alice" (sdk.mkCoin "uatom" 100) (sdk.mkCoin "uosmo" 90).
Proof.
  apply updatePoolForSwap_books.
  - discriminate.
  - discriminate.
  - vm_compute. reflexivity.
Defined.

Lemma lift_Ok_inv {A B S : Type} (r : result A * S) (b : B) (out : B) (s' : S) :
  match r with
  | (Ok _, s1) => (Ok b, s1)
  | (Err e, s1) => (Err e, s1)
  | (Panic x, s1) => (Panic x, s1)
  end = (Ok out, s') ->
  out = b /\ exists a, r = (Ok a, s').
Proof.
  destruct r as [[a| |] s1]; intros H; inversion H; subst. eauto.
Qed.

(** X8.  An exact-in swap that succeeds was made on an active pool stored
    under the given id, between two different denoms of that pool; the
    amount it returns is the calculator's decimal, truncated, is positive
    and is at least the caller's minimum; and, for a sender other than the
    pool's own account, the state has changed by exactly the swap of
    [tokenIn] for that amount of the out denom. *)
Theorem SwapExactAmountIn_success
    (CalcOutGivenIn : Pool -> PoolAsset -> PoolAsset -> Z -> result Z)
    (s s' : State) (blockTime : Z) (sender : string) (poolId : Z)
    (tokenIn : sdk.Coin) (tokenOutDenom : string)
    (tokenOutMinAmount tokenOutAmount : Z) :
  SwapExactAmountIn CalcOutGivenIn s blockTime sender poolId tokenIn
    tokenOutDenom tokenOutMinAmount = (Ok tokenOutAmount, s') ->
  exists pool inPoolAsset outPoolAsset dec,
    pools s !! poolId = Some pool
    /\ IsActive pool blockTime = true
    /\ sdk.Denom tokenIn <> tokenOutDenom
    /\ findAsset (PoolAssets pool) (sdk.Denom tokenIn) = Some inPoolAsset
    /\ findAsset (PoolAssets pool) tokenOutDenom = Some outPoolAsset
    /\ CalcOutGivenIn pool inPoolAsset outPoolAsset (sdk.Amount tokenIn) = Ok dec
    /\ tokenOutAmount = sdk.TruncateInt dec
    /\ 0 < tokenOutAmount
    /\ tokenOutMinAmount <= tokenOutAmount
    /\ (sender <> Address pool ->
        swapped s s' pool sender tokenIn (sdk.mkCoin tokenOutDenom tokenOutAmount)).
Proof.
  unfold SwapExactAmountIn.
  destruct (String.eqb (sdk.Denom tokenIn) tokenOutDenom) eqn:Ed; [discriminate|].
  apply String.eqb_neq in Ed.
  destruct (getPoolAndInOutAssets _ _ _ _) as [[[pool inA] outA]| |] eqn:Eg;
    try discriminate.
  apply getPoolAndInOutAssets_Ok in Eg as (Hpool & Hin & Hout).
  destruct (IsActive pool blockTime) eqn:Ea; simpl negb; cbv iota; [|discriminate].
  destruct (CalcOutGivenIn pool inA outA (sdk.Amount tokenIn)) as [dec| |] eqn:Ec;
    try discriminate.
  cbv zeta.
  destruct (sdk.TruncateInt dec <=? 0) eqn:E0; [discriminate|].
  destruct (sdk.TruncateInt dec <? tokenOutMinAmount) eqn:Em; [discriminate|].
  intros H. apply lift_Ok_inv in H as (-> & [] & Hu).
  apply Z.leb_gt in E0. apply Z.ltb_ge in Em.
  exists pool, inA, outA, dec. repeat (split; [assumption || reflexivity|]).
  intros Hsender.
  apply (updatePoolForSwap_swapped _ _ _ _ _ _ Hsender); [exact Ed | exact Hu].
Qed.

(** The trader of scenario A sells 100 uatom for uosmo, at least 1. *)
Lemma SwapExactAmountIn_success_witness :
  exists pool inPoolAsset outPoolAsset dec,
    pools stateA !! 1 = Some pool
    /\ IsActive pool 0 = true
    /\ "uatom" <> "uosmo"
    /\ findAsset (PoolAssets pool) "uatom" = Some inPoolAsset
    /\ findAsset (PoolAssets pool) "uosmo" = Some outPoolAsset
    /\ types_CalcOutGivenIn pool inPoolAsset outPoolAsset 100 = Ok dec
    /\ 90 = sdk.TruncateInt dec
    /\ 0 < 90
    /\ 1 <= 90
    /\ ("alice" <> Address pool ->
        swapped stateA
          (snd (SwapExactAmountIn types_CalcOutGivenIn stateA 0 "alice" 1
                  (sdk.mkCoin "uatom" 100) "uosmo" 1))
          pool "alice" (sdk.mkCoin "uatom" 100) (sdk.mkCoin "uosmo" 90)).
Proof.
  apply (SwapExactAmountIn_success types_CalcOutGivenIn stateA _ 0 "alice" 1
           (sdk.mkCoin "uatom" 100) "uosmo" 1 90).
  vm_compute. reflexivity.
Defined.

(** X9.  An exact-out swap that succeeds was made on an active pool stored
    under the given id, between two different denoms of that pool, for less
    than the pool's balance of the out denom; the amount it returns is the
    calculator's decimal, truncated, is positive and is at most the caller's
    maximum; and, for a sender other than the pool's own account, the state
    has changed by exactly the swap of that amount of the in denom for
    [tokenOut]. *)
Theorem SwapExactAmountOut_success
    (CalcInGivenOut : Pool -> PoolAsset -> PoolAsset -> Z -> result Z)
    (s s' : State) (blockTime : Z) (sender : string) (poolId : Z)
    (tokenInDenom : string) (tokenInMaxAmount : Z) (tokenOut : sdk.Coin)
    (tokenInAmount : Z) :
  SwapExactAmountOut CalcInGivenOut s blockTime sender poolId tokenInDenom
    tokenInMaxAmount tokenOut = (Ok tokenInAmount, s') ->
  exists pool inPoolAsset outPoolAsset dec,
    pools s !! poolId = Some pool
    /\ IsActive pool blockTime = true
    /\ tokenInDenom <> sdk.Denom tokenOut
    /\ findAsset (PoolAssets pool) tokenInDenom = Some inPoolAsset
    /\ findAsset (PoolAssets pool) (sdk.Denom tokenOut) = Some outPoolAsset
    /\ sdk.Amount tokenOut < balance outPoolAsset
    /\ CalcInGivenOut pool inPoolAsset outPoolAsset (sdk.Amount tokenOut) = Ok dec
    /\ tokenInAmount = sdk.TruncateInt dec
    /\ 0 < tokenInAmount
    /\ tokenInAmount <= tokenInMaxAmount
    /\ (sender <> Address pool ->
        swapped s s' pool sender (sdk.mkCoin tokenInDenom tokenInAmount) tokenOut).
Proof.
  unfold SwapExactAmountOut.
  destruct (String.eqb tokenInDenom (sdk.Denom tokenOut)) eqn:Ed; [discriminate|].
  apply String.eqb_neq in Ed.
  destruct (getPoolAndInOutAssets _ _ _ _) as [[[pool inA] outA]| |] eqn:Eg;
    try discriminate.
  apply getPoolAndInOutAssets_Ok in Eg as (Hpool & Hin & Hout).
  destruct (IsActive pool blockTime) eqn:Ea; simpl negb; cbv iota; [|discriminate].
  cbv zeta.
  destruct (balance outA <=? sdk.Amount tokenOut) eqn:Eb; [discriminate|].
  destruct (CalcInGivenOut pool inA outA (sdk.Amount tokenOut)) as [dec| |] eqn:Ec;
    try discriminate.
  destruct (sdk.TruncateInt dec <=? 0) eqn:E0; [discriminate|].
  destruct (tokenInMaxAmount <? sdk.TruncateInt dec) eqn:Em; [discriminate|].
  intros H. apply lift_Ok_inv in H as (-> & [] & Hu).
  apply Z.leb_gt in E0. apply Z.ltb_ge in Em. apply Z.leb_gt in Eb.
  exists pool, inA, outA, dec. repeat (split; [assumption || reflexivity|]).
  intros Hsender.
  apply (updatePoolForSwap_swapped _ _ _ _ _ _ Hsender); [exact Ed | exact Hu].
Qed.

(** The trader of scenario A buys 90 uosmo for uatom, at most 500. *)
Lemma SwapExactAmountOut_success_witness :
  exists pool inPoolAsset outPoolAsset dec,
    pools stateA !! 1 = Some pool
    /\ IsActive pool 0 = true
    /\ "uatom" <> "uosmo"
    /\ findAsset (PoolAssets pool) "uatom" = Some inPoolAsset
    /\ findAsset (PoolAssets pool) "uosmo" = Some outPoolAsset
    /\ 90 < balance outPoolAsset
    /\ positive_CalcInGivenOut pool inPoolAsset outPoolAsset 90 = Ok dec
    /\ 99 = sdk.TruncateInt dec
    /\ 0 < 99
    /\ 99 <= 500
    /\ ("alice" <> Address pool ->
        swapped stateA
          (snd (SwapExactAmountOut positive_CalcInGivenOut stateA 0 "alice" 1
                  "uatom" 500 (sdk.mkCoin "uosmo" 90)))
          pool "alice" (sdk.mkCoin "uatom" 99) (sdk.mkCoin "uosmo" 90)).
Proof.
  apply (SwapExactAmountOut_success positive_CalcInGivenOut stateA _ 0 "alice" 1
           "uatom" 500 (sdk.mkCoin "uosmo" 90) 99).
  vm_compute. reflexivity.
Defined.

(** Whatever its outcome, [updatePoolForSwap] leaves the stored pools as they
    were or stores, under the pool's id, a pool of the same shape. *)
Lemma updatePoolForSwap_pools (s : State) (pool : Pool) (sender : string)
    (tokenIn tokenOut : sdk.Coin) :
  pools (snd (updatePoolForSwap s pool sender tokenIn tokenOut)) = pools s
  \/ exists pool',
       same_shape pool pool'
       /\ pools (snd (updatePoolForSwap s pool sender tokenIn tokenOut))
          = <[Id pool := pool']> (pools s).
Proof.
  unfold updatePoolForSwap.
  destruct (AddPoolAssetBalance pool tokenIn) as [pool1| |] eqn:E1;
    try (left; reflexivity).
  destruct (SubPoolAssetBalance pool1 tokenOut) as [pool2| |] eqn:E2;
    try (left; reflexivity).
  apply AddPoolAssetBalance_Ok in E1 as (a & Ha & ->).
  apply SubPoolAssetBalance_Ok in E2 as (b & Hb & ->).
  right.
  match goal with |- context [SetPool s ?q] => set (pool2 := q) end.
  assert (Hshape : same_shape pool pool2).
  { eapply same_shape_trans; [apply withAssets_setBalance_shape|].
    apply withAssets_setBalance_shape. }
  assert (Hid : Id pool2 = Id pool) by apply Hshape.
  exists pool2. split; [exact Hshape|].
  destruct (SendCoins_outcome (SetPool s pool2) sender (Address pool2) [tokenIn])
    as [(s2 & -> & Hp2) | ->]; [|reflexivity].
  destruct (SendCoins_outcome s2 (Address pool2) sender [tokenOut])
    as [(s3 & -> & Hp3) | ->]; cbn [snd].
  - rewrite Hp3, Hp2. reflexivity.
  - rewrite Hp2. reflexivity.
Qed.

Lemma pools_frame (m m' : gmap Z Pool) (poolId : Z) (pool : Pool) :
  m !! poolId = Some pool ->
  (m' = m \/ exists pool', same_shape pool pool' /\ m' = <[poolId := pool']> m) ->
  (forall id, id <> poolId -> m' !! id = m !! id)
  /\ exists pool', m' !! poolId = Some pool' /\ same_shape pool pool'.
Proof.
  intros Hpool [-> | (pool' & Hshape & ->)].
  - split; [reflexivity|]. exists pool. split; [exact Hpool | apply same_shape_refl].
  - split.
    + intros id Hid. apply lookup_insert_ne. congruence.
    + exists pool'. split; [apply lookup_insert_eq | exact Hshape].
Qed.

(** X10.  Whatever their outcome, the keeper's two swaps on a pool stored
    under its own id leave every pool stored under another id as it was,
    and leave under that id a pool with the address, id, swap fee, window,
    share denom, asset denoms and weights of the pool before. *)
Theorem swap_touches_one_pool
    (CalcOutGivenIn CalcInGivenOut : Pool -> PoolAsset -> PoolAsset -> Z -> result Z)
    (s : State) (blockTime : Z) (sender : string) (poolId : Z) (pool : Pool)
    (tokenIn : sdk.Coin) (tokenOutDenom : string) (tokenOutMinAmount : Z)
    (tokenInDenom : string) (tokenInMaxAmount : Z) (tokenOut : sdk.Coin) :
  pools s !! poolId = Some pool ->
  Id pool = poolId ->
  ((forall id, id <> poolId ->
      pools (snd (SwapExactAmountIn CalcOutGivenIn s blockTime sender poolId
                    tokenIn tokenOutDenom tokenOutMinAmount)) !! id
      = pools s !! id)
   /\ exists pool',
        pools (snd (SwapExactAmountIn CalcOutGivenIn s blockTime sender poolId
                      tokenIn tokenOutDenom tokenOutMinAmount)) !! poolId
        = Some pool'
        /\ same_shape pool pool')
  /\ ((forall id, id <> poolId ->
        pools (snd (SwapExactAmountOut CalcInGivenOut s blockTime sender poolId
                      tokenInDenom tokenInMaxAmount tokenOut)) !! id
        = pools s !! id)
      /\ exists pool',
           pools (snd (SwapExactAmountOut CalcInGivenOut s blockTime sender poolId
                         tokenInDenom tokenInMaxAmount tokenOut)) !! poolId
           = Some pool'
           /\ same_shape pool pool').
Proof.
  intros Hpool Hid. split.
  - apply (pools_frame _ _ _ _ Hpool). unfold SwapExactAmountIn.
    destruct (String.eqb _ _); [left; reflexivity|].
    destruct (getPoolAndInOutAssets _ _ _ _) as [[[pool0 inA] outA]| |] eqn:Eg;
      try (left; reflexivity).
    apply getPoolAndInOutAssets_Ok in Eg as (Hpool0 & _ & _).
    rewrite Hpool in Hpool0. inversion Hpool0; subst pool0.
    destruct (negb _); [left; reflexivity|].
    destruct (CalcOutGivenIn _ _ _ _); try (left; reflexivity).
    cbv zeta.
    destruct (_ <=? 0); [left; reflexivity|].
    destruct (_ <? _); [left; reflexivity|].
    rewrite snd_lift. rewrite <- Hid. apply updatePoolForSwap_pools.
  - apply (pools_frame _ _ _ _ Hpool). unfold SwapExactAmountOut.
    destruct (String.eqb _ _); [left; reflexivity|].
    destruct (getPoolAndInOutAssets _ _ _ _) as [[[pool0 inA] outA]| |] eqn:Eg;
      try (left; reflexivity).
    apply getPoolAndInOutAssets_Ok in Eg as (Hpool0 & _ & _).
    rewrite Hpool in Hpool0. inversion Hpool0; subst pool0.
    destruct (negb _); [left; reflexivity|].
    cbv zeta.
    destruct (_ <=? _); [left; reflexivity|].
    destruct (CalcInGivenOut _ _ _ _); try (left; reflexivity).
    destruct (_ <=? 0); [left; reflexivity|].
    destruct (_ <? _); [left; reflexivity|].
    rewrite snd_lift. rewrite <- Hid. apply updatePoolForSwap_pools.
Qed.

(** The two swaps of the trader of scenario A on the pool stored under 1. *)
Lemma swap_touches_one_pool_witness :
  ((forall id, id <> 1 ->
      pools (snd (SwapExactAmountIn types_CalcOutGivenIn stateA 0 "alice" 1
                    (sdk.mkCoin "uatom" 100) "uosmo" 1)) !! id
      = pools stateA !! id)
   /\ exists pool',
        pools (snd (SwapExactAmountIn types_CalcOutGivenIn stateA 0 "alice" 1
                      (sdk.mkCoin "uatom" 100) "uosmo" 1)) !! 1
        = Some pool'
        /\ same_shape poolA pool')
  /\ ((forall id, id <> 1 ->
        pools (snd (SwapExactAmountOut positive_CalcInGivenOut stateA 0 "alice" 1
                      "uatom" 500 (sdk.mkCoin "uosmo" 90))) !! id
        = pools stateA !! id)
      /\ exists pool',
           pools (snd (SwapExactAmountOut positive_CalcInGivenOut stateA 0 "alice" 1
                         "uatom" 500 (sdk.mkCoin "uosmo" 90))) !! 1
           = Some pool'
           /\ same_shape poolA pool').
Proof.
  apply (swap_touches_one_pool types_CalcOutGivenIn positive_CalcInGivenOut
           stateA 0 "alice" 1 poolA (sdk.mkCoin "uatom" 100) "uosmo" 1
           "uatom" 500 (sdk.mkCoin "uosmo" 90)).
  - reflexivity.
  - reflexivity.
Defined.

(** ** The calculators at their edges *)

(** A common factor of the two decimals of a quotient cancels. *)
Lemma Quo_scale (c d d2 : Z) :
  c <> 0 -> sdk.Quo (c * d) (c * d2) = sdk.Quo d d2.
Proof.
  intros Hc. unfold sdk.Quo.
  destruct (d2 =? 0) eqn:E.
  - apply Z.eqb_eq in E. subst d2. rewrite Z.mul_0_r. reflexivity.
  - apply Z.eqb_neq in E.
    assert (E' : (c * d2 =? 0) = false) by (apply Z.eqb_neq; lia).
    rewrite E'. do 2 f_equal.
    replace (c * d * sdk.precisionReuse * sdk.precisionReuse)
      with (c * (d * sdk.precisionReuse * sdk.precisionReuse)) by ring.
    apply Z.quot_mul_cancel_l; assumption.
Qed.

(** X11.  [solveConstantFunctionInvariant] depends on the two balances of the
    fixed token only through their ratio, and on the two weights only through
    theirs: a common non-zero factor of the two balances, and one of the two
    weights, changes nothing in its result, whatever the power function. *)
Theorem solveConstantFunctionInvariant_scale (Pow : Z -> Z -> result Z)
    (c k tokenBalanceFixedBefore tokenBalanceFixedAfter tokenWeightFixed
     tokenBalanceUnknownBefore tokenWeightUnknown : Z) :
  c <> 0 -> k <> 0 ->
  solveConstantFunctionInvariant Pow
    (c * tokenBalanceFixedBefore) (c * tokenBalanceFixedAfter)
    (k * tokenWeightFixed) tokenBalanceUnknownBefore (k * tokenWeightUnknown)
  = solveConstantFunctionInvariant Pow
      tokenBalanceFixedBefore tokenBalanceFixedAfter
      tokenWeightFixed tokenBalanceUnknownBefore tokenWeightUnknown.
Proof.
  intros Hc Hk. unfold solveConstantFunctionInvariant.
  rewrite (Quo_scale k _ _ Hk), (Quo_scale c _ _ Hc). reflexivity.
Qed.

(** Balances 1000 and 1100 at weights 1 and 2, against three times the
    balances at five times the weights. *)
Lemma solveConstantFunctionInvariant_scale_witness :
  solveConstantFunctionInvariant osmomath.Pow
    (3 * sdk.ToDec 1000) (3 * sdk.ToDec 1100) (5 * sdk.ToDec 1)
    (sdk.ToDec 1000) (5 * sdk.ToDec 2)
  = solveConstantFunctionInvariant osmomath.Pow
      (sdk.ToDec 1000) (sdk.ToDec 1100) (sdk.ToDec 1)
      (sdk.ToDec 1000) (sdk.ToDec 2).
Proof.
  apply (solveConstantFunctionInvariant_scale osmomath.Pow 3 5);
    discriminate.
Defined.

Lemma Quo_self (d : Z) : d <> 0 -> sdk.Quo d d = Ok sdk.OneDec.
Proof.
  intros H. rewrite (Quo_nonzero _ _ H). f_equal.
  replace (d * sdk.precisionReuse * sdk.precisionReuse)
    with (sdk.precisionReuse * sdk.precisionReuse * d) by ring.
  rewrite Z.quot_mul by exact H. reflexivity.
Qed.

Lemma Mul_zero_l (d : Z) : sdk.Mul 0 d = 0.
Proof. unfold sdk.Mul. rewrite Z.mul_0_l. reflexivity. Qed.

Lemma Mul_zero_r (d : Z) : sdk.Mul d 0 = 0.
Proof. unfold sdk.Mul. rewrite Z.mul_0_r. reflexivity. Qed.

(** With nothing traded the solver is asked for the power of one. *)
Lemma solve_same_balance (Pow : Z -> Z -> result Z)
    (bal wFixed balUnknown wUnknown ratio : Z) :
  bal <> 0 ->
  sdk.Quo wFixed wUnknown = Ok ratio ->
  Pow sdk.OneDec ratio = Ok sdk.OneDec ->
  solveConstantFunctionInvariant Pow bal bal wFixed balUnknown wUnknown = Ok 0.
Proof.
  intros Hb Hr Hp. unfold solveConstantFunctionInvariant.
  rewrite Hr. simpl bind. rewrite (Quo_self _ Hb). simpl bind.
  rewrite Hp. simpl bind. unfold sdk.Sub. rewrite Z.sub_diag, Mul_zero_r.
  reflexivity.
Qed.

Lemma ToDec_nonzero (i : Z) : i <> 0 -> sdk.ToDec i <> 0.
Proof.
  intros H. unfold sdk.ToDec. apply Z.neq_mul_0. split; [exact H|].
  vm_compute. discriminate.
Qed.

(** X12.  A trade of nothing is a trade for nothing: when the power function
    gives one for the base one, [CalcOutAmtGivenIn] on a coin of amount zero
    returns zero of the out denom, whatever the swap fee, and
    [CalcInAmtGivenOut] on a coin of amount zero returns zero of the in
    denom, for every swap fee but one. *)
Theorem zero_trade (Pow : Z -> Z -> result Z) (p : Pool)
    (tokenInDenom tokenOutDenom : string) (swapFee : Z)
    (poolAssetIn poolAssetOut : PoolAsset) :
  findAsset (PoolAssets p) tokenInDenom = Some poolAssetIn ->
  findAsset (PoolAssets p) tokenOutDenom = Some poolAssetOut ->
  (forall ratio,
      sdk.Quo (sdk.ToDec (Weight poolAssetIn)) (sdk.ToDec (Weight poolAssetOut))
      = Ok ratio ->
      Pow sdk.OneDec ratio = Ok sdk.OneDec) ->
  (forall ratio,
      sdk.Quo (sdk.ToDec (Weight poolAssetOut)) (sdk.ToDec (Weight poolAssetIn))
      = Ok ratio ->
      Pow sdk.OneDec ratio = Ok sdk.OneDec) ->
  Weight poolAssetIn <> 0 -> Weight poolAssetOut <> 0 ->
  (balance poolAssetIn <> 0 ->
   CalcOutAmtGivenIn Pow p [sdk.mkCoin tokenInDenom 0] tokenOutDenom swapFee
   = Ok (sdk.mkDecCoin tokenOutDenom 0))
  /\ (balance poolAssetOut <> 0 -> swapFee <> sdk.OneDec ->
      CalcInAmtGivenOut Pow p [sdk.mkCoin tokenOutDenom 0] tokenInDenom swapFee
      = Ok (sdk.mkDecCoin tokenInDenom 0)).
Proof.
  intros Hin Hout Hpow1 Hpow2 Hwi Hwo.
  apply ToDec_nonzero in Hwi, Hwo.
  split.
  - intros Hb. apply ToDec_nonzero in Hb.
    rewrite (CalcOutAmtGivenIn_eq Pow p (sdk.mkCoin tokenInDenom 0) tokenOutDenom
               swapFee poolAssetIn poolAssetOut Hin Hout).
    unfold spec_calcOutGivenIn. simpl sdk.Amount.
    change (sdk.ToDec 0) with 0. rewrite Mul_zero_l.
    unfold sdk.Add. rewrite Z.add_0_r.
    rewrite (solve_same_balance Pow _ _ _ _ _ Hb (Quo_nonzero _ _ Hwo)
               (Hpow1 _ (Quo_nonzero _ _ Hwo))).
    reflexivity.
  - intros Hb Hfee. apply ToDec_nonzero in Hb.
    rewrite (CalcInAmtGivenOut_eq Pow p (sdk.mkCoin tokenOutDenom 0) tokenInDenom
               swapFee poolAssetOut poolAssetIn Hout Hin).
    unfold spec_calcInGivenOut. simpl sdk.Amount.
    change (sdk.ToDec 0) with 0. unfold sdk.Sub at 1. rewrite Z.sub_0_r.
    rewrite (solve_same_balance Pow _ _ _ _ _ Hb (Quo_nonzero _ _ Hwi)
               (Hpow2 _ (Quo_nonzero _ _ Hwi))).
    simpl bind.
    assert (Hd : sdk.Sub sdk.OneDec swapFee <> 0) by (unfold sdk.Sub; lia).
    rewrite (Quo_nonzero _ _ Hd). reflexivity.
Qed.

(** The pool of scenario A, swap fee 0.003. *)
Lemma zero_trade_witness :
  CalcOutAmtGivenIn osmomath.Pow poolA [sdk.mkCoin "uatom" 0] "uosmo" (3 * 10 ^ 15)
  = Ok (sdk.mkDecCoin "uosmo" 0)
  /\ CalcInAmtGivenOut osmomath.Pow poolA [sdk.mkCoin "uosmo" 0] "uatom" (3 * 10 ^ 15)
     = Ok (sdk.mkDecCoin "uatom" 0).
Proof.
  destruct (zero_trade osmomath.Pow poolA "uatom" "uosmo" (3 * 10 ^ 15)
              (asset "uatom" 1000 1) (asset "uosmo" 1000 1)) as [H1 H2].
  - reflexivity.
  - reflexivity.
  - intros ratio H. vm_compute in H. inversion H; subst ratio.
    vm_compute. reflexivity.
  - intros ratio H. vm_compute in H. inversion H; subst ratio.
    vm_compute. reflexivity.
  - vm_compute. discriminate.
  - vm_compute. discriminate.
  - split; [apply H1 | apply H2]; vm_compute; discriminate.
Defined.

Lemma SpotPrice_eq (p : Pool) (quoteAsset baseAsset : string)
    (quote base : PoolAsset) :
  findAsset (PoolAssets p) quoteAsset = Some quote ->
  findAsset (PoolAssets p) baseAsset = Some base ->
  SpotPrice p quoteAsset baseAsset
  = (let* numerator := sdk.QuoInt (sdk.ToDec (balance base)) (Weight base) in
     let* denom := sdk.QuoInt (sdk.ToDec (balance quote)) (Weight quote) in
     sdk.Quo numerator denom).
Proof.
  intros Hq Hb. unfold SpotPrice, parsePoolAssetsByDenoms.
  apply GetPoolAsset_Ok in Hq, Hb. rewrite Hq, Hb. reflexivity.
Qed.

(** X13.  For two denoms of the pool, [SpotPrice] returns a price or panics
    on a division by zero, and it panics exactly when a weight of the two
    assets is zero or the balance of the quote asset, as a decimal, is
    smaller in absolute value than its weight (a zero balance in
    particular). *)
Theorem SpotPrice_division_by_zero (p : Pool) (quoteAsset baseAsset : string)
    (quote base : PoolAsset) :
  findAsset (PoolAssets p) quoteAsset = Some quote ->
  findAsset (PoolAssets p) baseAsset = Some base ->
  ((Weight base = 0 \/ Weight quote = 0
    \/ Z.abs (sdk.ToDec (balance quote)) < Z.abs (Weight quote)) ->
   SpotPrice p quoteAsset baseAsset = Panic DivisionByZero)
  /\ (~ (Weight base = 0 \/ Weight quote = 0
         \/ Z.abs (sdk.ToDec (balance quote)) < Z.abs (Weight quote)) ->
      exists price, SpotPrice p quoteAsset baseAsset = Ok price).
Proof.
  intros Hq Hb. rewrite (SpotPrice_eq _ _ _ _ _ Hq Hb).
  unfold sdk.QuoInt.
  destruct (Weight base =? 0) eqn:Eb.
  { apply Z.eqb_eq in Eb. split; [reflexivity | intros H; exfalso; apply H; auto]. }
  apply Z.eqb_neq in Eb. simpl bind.
  destruct (Weight quote =? 0) eqn:Eq.
  { apply Z.eqb_eq in Eq. split; [reflexivity | intros H; exfalso; apply H; auto]. }
  apply Z.eqb_neq in Eq. simpl bind.
  pose proof (Z.quot_small_iff (sdk.ToDec (balance quote)) (Weight quote) Eq) as Hs.
  unfold sdk.Quo.
  destruct (Z.quot (sdk.ToDec (balance quote)) (Weight quote) =? 0) eqn:E0.
  - apply Z.eqb_eq in E0. split; [reflexivity|].
    intros H; exfalso; apply H. right; right. apply Hs. exact E0.
  - apply Z.eqb_neq in E0. split.
    + intros [H | [H | H]]; [contradiction | contradiction |].
      exfalso. apply E0. apply Hs. exact H.
    + intros _. eexists. reflexivity.
Qed.

(** The pool of scenario A prices uatom in uosmo; a pool without uosmo
    cannot price in uosmo. *)
Lemma SpotPrice_division_by_zero_witness :
  (exists price, SpotPrice poolA "uosmo" "uatom" = Ok price)
  /\ SpotPrice (pool2 1000 1 0 1 100) "uosmo" "uatom" = Panic DivisionByZero.
Proof.
  split.
  - apply (proj2 (SpotPrice_division_by_zero poolA "uosmo" "uatom"
                    (asset "uosmo" 1000 1) (asset "uatom" 1000 1)
                    eq_refl eq_refl)).
    vm_compute. intros [H | [H | H]]; discriminate H.
  - apply (proj1 (SpotPrice_division_by_zero (pool2 1000 1 0 1 100) "uosmo" "uatom"
                    (asset "uosmo" 0 1) (asset "uatom" 1000 1)
                    eq_refl eq_refl)).
    right; right. vm_compute. reflexivity.
Defined.

(** X14.  [SpotPrice] is exact at two points: an empty balance of the base
    asset is priced at zero, and two assets of equal balance and equal
    weight are priced at one, with no rounding error (the weight not
    exceeding the balance as a decimal). *)
Theorem SpotPrice_exact (p : Pool) (quoteAsset baseAsset : string)
    (quote base : PoolAsset) :
  findAsset (PoolAssets p) quoteAsset = Some quote ->
  findAsset (PoolAssets p) baseAsset = Some base ->
  0 < Weight quote <= balance quote * 10 ^ 18 ->
  (balance base = 0 -> Weight base <> 0 ->
   SpotPrice p quoteAsset baseAsset = Ok 0)
  /\ (balance base = balance quote -> Weight base = Weight quote ->
      SpotPrice p quoteAsset baseAsset = Ok sdk.OneDec).
Proof.
  intros Hq Hb Hw. rewrite (SpotPrice_eq _ _ _ _ _ Hq Hb).
  destruct (QuoInt_pos _ _ Hw) as (n & Hn & Hpos).
  split.
  - intros H0 Hwb. rewrite H0. unfold sdk.QuoInt at 1.
    destruct (Weight base =? 0) eqn:E; [apply Z.eqb_eq in E; contradiction|].
    simpl bind. rewrite Hn. simpl bind.
    rewrite Quo_nonzero by lia. reflexivity.
  - intros -> ->. rewrite Hn. simpl bind. apply Quo_self. lia.
Qed.

(** The pool of scenario A, and the same pool with no uatom. *)
Lemma SpotPrice_exact_witness :
  SpotPrice (pool2 0 1 1000 1 100) "uosmo" "uatom" = Ok 0
  /\ SpotPrice poolA "uosmo" "uatom" = Ok sdk.OneDec.
Proof.
  split.
  - apply (proj1 (SpotPrice_exact (pool2 0 1 1000 1 100) "uosmo" "uatom"
                    (asset "uosmo" 1000 1) (asset "uatom" 0 1)
                    eq_refl eq_refl ltac:(vm_compute; split; [reflexivity | discriminate]))).
    + reflexivity.
    + vm_compute. discriminate.
  - apply (proj2 (SpotPrice_exact poolA "uosmo" "uatom"
                    (asset "uosmo" 1000 1) (asset "uatom" 1000 1)
                    eq_refl eq_refl ltac:(vm_compute; split; [reflexivity | discriminate]))).
    + reflexivity.
    + reflexivity.
Defined.

(** ** ApplySwap is all or nothing *)

Lemma Forall_insertCoin (P : sdk.Coin -> Prop) (c : sdk.Coin) (coins : list sdk.Coin) :
  P c -> Forall P coins -> Forall P (sdk.insertCoin c coins).
Proof.
  intros Hc. induction 1 as [|c0 rest H0 Hrest IH]; simpl.
  - constructor; [exact Hc | constructor].
  - destruct (String.compare _ _); repeat constructor; assumption.
Qed.

Lemma Forall_sortCoins (P : sdk.Coin -> Prop) (coins : list sdk.Coin) :
  Forall P coins -> Forall P (sdk.sortCoins coins).
Proof.
  induction 1 as [|c rest Hc Hrest IH]; simpl; [constructor|].
  apply Forall_insertCoin; assumption.
Qed.

Lemma NewCoins_Forall (P : sdk.Coin -> Prop) (coins newCoins : list sdk.Coin) :
  Forall P coins -> sdk.NewCoins coins = Ok newCoins -> Forall P newCoins.
Proof.
  intros H. unfold sdk.NewCoins. destruct (sdk.validCoins _); [|discriminate].
  intros E; inversion E; subst. apply Forall_sortCoins.
  apply Forall_forall. intros c Hc. apply list_elem_of_filter in Hc as [_ Hc].
  rewrite Forall_forall in H. apply H. exact Hc.
Qed.

Lemma findAsset_setBalance_is_Some (assets : list PoolAsset) (coin : sdk.Coin)
    (denom : string) :
  is_Some (findAsset assets denom) ->
  is_Some (findAsset (setBalance assets coin) denom).
Proof.
  intros [a Ha]. destruct (String.eqb (sdk.Denom coin) denom) eqn:E.
  - apply String.eqb_eq in E. subst denom.
    rewrite (findAsset_setBalance_eq _ _ _ Ha). eauto.
  - apply String.eqb_neq in E.
    rewrite (findAsset_setBalance_ne _ _ _ E). eauto.
Qed.

(** Coins of denoms that the pool holds are all written. *)
Lemma UpdatePoolAssetBalances_known (coins : list sdk.Coin) :
  forall p,
    Forall (fun c => is_Some (findAsset (PoolAssets p) (sdk.Denom c))) coins ->
    fst (UpdatePoolAssetBalances p coins) = Ok tt.
Proof.
  induction coins as [|c rest IH]; intros p H; simpl; [reflexivity|].
  inversion H as [|? ? [a Ha] Hrest]; subst.
  unfold UpdatePoolAssetBalance. rewrite Ha. apply IH.
  eapply Forall_impl; [exact Hrest|]. simpl. intros c0 Hc0.
  apply findAsset_setBalance_is_Some. exact Hc0.
Qed.

Lemma findAsset_own (assets : list PoolAsset) (denom : string) (a : PoolAsset) :
  findAsset assets denom = Some a -> is_Some (findAsset assets (denomOf a)).
Proof.
  intros H. rewrite (findAsset_denomOf _ _ _ H). eauto.
Qed.

Lemma parsePoolAssetsCoins_Ok (p : Pool) (tokensIn tokensOut : list sdk.Coin)
    (inPoolAsset outPoolAsset : PoolAsset) :
  parsePoolAssetsCoins p tokensIn tokensOut = Ok (inPoolAsset, outPoolAsset) ->
  exists tokenIn tokenOut,
    tokensIn = [tokenIn] /\ tokensOut = [tokenOut]
    /\ findAsset (PoolAssets p) (sdk.Denom tokenIn) = Some inPoolAsset
    /\ findAsset (PoolAssets p) (sdk.Denom tokenOut) = Some outPoolAsset.
Proof.
  unfold parsePoolAssetsCoins, parsePoolAssets, parsePoolAssetsByDenoms.
  destruct tokensOut as [|tokenOut [|? ?]]; try discriminate.
  destruct tokensIn as [|tokenIn [|? ?]]; try discriminate.
  destruct (GetPoolAsset p (sdk.Denom tokenIn)) as [a| |] eqn:Ea; try discriminate.
  destruct (GetPoolAsset p (sdk.Denom tokenOut)) as [b| |] eqn:Eb; try discriminate.
  simpl. intros H; inversion H; subst.
  exists tokenIn, tokenOut. repeat split; apply GetPoolAsset_Ok; assumption.
Qed.

(** X15.  [ApplySwap] is all or nothing: it either succeeds, or fails and
    leaves the pool exactly as it was; no failure leaves one balance written
    and the other not. *)
Theorem ApplySwap_all_or_nothing (p : Pool) (tokensIn tokensOut : list sdk.Coin) :
  (exists p', ApplySwap p tokensIn tokensOut = (Ok tt, p'))
  \/ (fails (fst (ApplySwap p tokensIn tokensOut))
      /\ snd (ApplySwap p tokensIn tokensOut) = p).
Proof.
  unfold ApplySwap.
  destruct (parsePoolAssetsCoins p tokensIn tokensOut) as [[inA outA]| |] eqn:Ep;
    [| right; split; [apply fails_Err | reflexivity]
     | right; split; [apply fails_Panic | reflexivity]].
  apply parsePoolAssetsCoins_Ok in Ep
    as (tokenIn & tokenOut & -> & -> & Hin & Hout).
  destruct (sdk.NewCoins _) as [coins| |] eqn:En;
    [| right; split; [apply fails_Err | reflexivity]
     | right; split; [apply fails_Panic | reflexivity]].
  left.
  assert (Hall : Forall (fun c => is_Some (findAsset (PoolAssets p) (sdk.Denom c)))
                   coins).
  { eapply NewCoins_Forall; [|exact En].
    repeat constructor; simpl; eapply findAsset_own; eassumption. }
  pose proof (UpdatePoolAssetBalances_known coins p Hall) as Hok.
  destruct (UpdatePoolAssetBalances p coins) as [r p'].
  simpl in Hok. subst r. exists p'. reflexivity.
Qed.

(** ** The fee of a single-asset join *)

Lemma chopNonNeg_exact (x : Z) : sdk.chopNonNeg (x * sdk.precisionReuse) = x.
Proof.
  assert (Hs : sdk.precisionReuse <> 0) by (vm_compute; discriminate).
  unfold sdk.chopNonNeg. rewrite Z.rem_mul by exact Hs.
  rewrite Z.quot_mul by exact Hs. reflexivity.
Qed.

(** Multiplying by the decimal one is exact. *)
Lemma Mul_one_r (d : Z) : sdk.Mul d sdk.OneDec = d.
Proof.
  unfold sdk.Mul, sdk.OneDec, sdk.chopPrecisionAndRound.
  destruct (d * sdk.precisionReuse <? 0).
  - rewrite <- Z.mul_opp_l, chopNonNeg_exact. lia.
  - apply chopNonNeg_exact.
Qed.

(** X16.  [calcPoolOutGivenSingleIn] charges nothing in two cases: at the
    normalized weight one, whatever the swap fee, and at the swap fee zero,
    whatever the weight.  The shares are then those of the whole amount paid
    in: the solver's result for the balance raised by that amount, with its
    sign turned. *)
Theorem calcPoolOutGivenSingleIn_no_fee (Pow : Z -> Z -> result Z)
    (tokenBalanceIn normalizedTokenWeightIn poolShares tokenAmountIn swapFee : Z) :
  normalizedTokenWeightIn = sdk.OneDec \/ swapFee = 0 ->
  calcPoolOutGivenSingleIn Pow tokenBalanceIn normalizedTokenWeightIn poolShares
    tokenAmountIn swapFee
  = (let* poolAmountOut :=
       solveConstantFunctionInvariant Pow
         (sdk.Add tokenBalanceIn tokenAmountIn) tokenBalanceIn
         normalizedTokenWeightIn poolShares sdk.OneDec in
     Ok (sdk.Neg poolAmountOut)).
Proof.
  intros H. unfold calcPoolOutGivenSingleIn.
  assert (E : sdk.Mul (sdk.Sub sdk.OneDec normalizedTokenWeightIn) swapFee = 0).
  { destruct H as [-> | ->].
    - unfold sdk.Sub. rewrite Z.sub_diag. apply Mul_zero_l.
    - apply Mul_zero_r. }
  rewrite E. unfold sdk.Sub at 1. rewrite Z.sub_0_r, Mul_one_r. reflexivity.
Qed.

(** A deposit of 100 against a balance of 1000 and 100 shares, at the weight
    one with the fee 0.003 and at the weight one half with no fee. *)
Lemma calcPoolOutGivenSingleIn_no_fee_witness :
  calcPoolOutGivenSingleIn osmomath.Pow (sdk.ToDec 1000) sdk.OneDec (sdk.ToDec 100)
    (sdk.ToDec 100) (3 * 10 ^ 15)
  = (let* poolAmountOut :=
       solveConstantFunctionInvariant osmomath.Pow
         (sdk.Add (sdk.ToDec 1000) (sdk.ToDec 100)) (sdk.ToDec 1000)
         sdk.OneDec (sdk.ToDec 100) sdk.OneDec in
     Ok (sdk.Neg poolAmountOut))
  /\ calcPoolOutGivenSingleIn osmomath.Pow (sdk.ToDec 1000) (5 * 10 ^ 17)
       (sdk.ToDec 100) (sdk.ToDec 100) 0
     = (let* poolAmountOut :=
          solveConstantFunctionInvariant osmomath.Pow
            (sdk.Add (sdk.ToDec 1000) (sdk.ToDec 100)) (sdk.ToDec 1000)
            (5 * 10 ^ 17) (sdk.ToDec 100) sdk.OneDec in
        Ok (sdk.Neg poolAmountOut)).
Proof.
  split.
  - apply calcPoolOutGivenSingleIn_no_fee. left. reflexivity.
  - apply calcPoolOutGivenSingleIn_no_fee. right. reflexivity.
Defined.

(** * The state a failed swap leaves behind *)

(** The bank's answer to a transfer of one coin. *)
Lemma SendCoins_one_cases (s : State) (from to : string) (c : sdk.Coin) :
  (balanceOf (bank s) from (sdk.Denom c) < sdk.Amount c
   /\ SendCoins s from to [c] = Err ErrInsufficientFunds)
  \/ (exists b', sendAll (bank s) from to [c] = Ok b'
                 /\ SendCoins s from to [c] = Ok (mkState (pools s) b')).
Proof.
  unfold SendCoins. simpl.
  destruct (balanceOf (bank s) from (sdk.Denom c) <? sdk.Amount c) eqn:E.
  - left. apply Z.ltb_lt in E. split; [exact E | reflexivity].
  - right. eexists. split; reflexivity.
Qed.

(** A pool whose balance of some denom differs is another pool. *)
Lemma balanceIn_differs (p q : Pool) (denom : string) :
  balanceIn q denom <> balanceIn p denom -> q <> p.
Proof. intros H ->. apply H. reflexivity. Qed.

(** The ways [updatePoolForSwap] fails, for two different denoms: before
    anything is stored, or on the bank's refusal, after the staged pool has
    been stored. *)
Lemma updatePoolForSwap_failure (s s' : State) (pool : Pool) (sender : string)
    (tokenIn tokenOut : sdk.Coin) (r : result unit) :
  sdk.Denom tokenIn <> sdk.Denom tokenOut ->
  updatePoolForSwap s pool sender tokenIn tokenOut = (r, s') ->
  fails r ->
  s' = s
  \/ (r = Err ErrInsufficientFunds
      /\ staged_stored s s' pool sender tokenIn tokenOut).
Proof.
  intros Hne H Hf. unfold updatePoolForSwap in H.
  destruct (AddPoolAssetBalance pool tokenIn) as [pool1| |] eqn:E1;
    try (inversion H; left; reflexivity).
  destruct (SubPoolAssetBalance pool1 tokenOut) as [pool2| |] eqn:E2;
    try (inversion H; left; reflexivity).
  destruct (staged_pool _ _ _ _ _ Hne E1 E2) as (Hshape & Bin & Bout & _).
  assert (Haddr : Address pool2 = Address pool) by apply Hshape.
  assert (Hid : Id pool2 = Id pool) by apply Hshape.
  rewrite Haddr in H. right.
  destruct (SendCoins_one_cases (SetPool s pool2) sender (Address pool) tokenIn)
    as [[Hlow E3] | (b' & Hb' & E3)]; rewrite E3 in H.
  - inversion H; subst r s'. split; [reflexivity|].
    exists pool2. simpl. rewrite Hid.
    repeat (split; [reflexivity || assumption|]).
    left. split; [reflexivity | exact Hlow].
  - destruct (SendCoins_one_cases (mkState (pools (SetPool s pool2)) b')
                (Address pool) sender tokenOut)
      as [[Hlow E4] | (b'' & Hb'' & E4)]; rewrite E4 in H.
    + inversion H; subst r s'. split; [reflexivity|].
      exists pool2. simpl. rewrite Hid.
      repeat (split; [reflexivity || assumption|]).
      right. split; [exact Hb' | exact Hlow].
    + inversion H; subst r. exfalso. exact (Hf tt eq_refl).
Qed.

Lemma lift_failure {A B S : Type} (r0 : result A * S) (b : B)
    (r : result B) (s' : S) :
  match r0 with
  | (Ok _, s1) => (Ok b, s1)
  | (Err e, s1) => (Err e, s1)
  | (Panic x, s1) => (Panic x, s1)
  end = (r, s') ->
  fails r ->
  exists r1, r0 = (r1, s') /\ fails r1
             /\ forall e, r1 = Err e -> r = Err e.
Proof.
  destruct r0 as [[a| |] s1]; intros H Hf; inversion H; subst.
  - exfalso. exact (Hf b eq_refl).
  - eexists. split; [reflexivity|]. split; [apply fails_Err|].
    intros e0 He; inversion He; reflexivity.
  - eexists. split; [reflexivity|]. split; [apply fails_Panic|].
    intros e0 He; discriminate He.
Qed.

(** C6 (as amended).  A swap of the keeper that fails before the ledger
    transfer leaves the state as it was.  The one failure that does not is
    the bank's refusal of a transfer: the swap returns the bank's error
    after [updatePoolForSwap] has stored the staged pool ([SetPool] comes
    before [SendCoins]).  The state the call leaves behind then holds, under
    the pool's id, the pool with the in balance raised by the amount paid in
    and the out balance lowered by the positive amount paid out, which is no
    longer the pool that was loaded; its bank is the bank of before when the
    sender's payment was refused, and the bank with that payment made when
    the payout was refused.  The code undoes neither. *)
Theorem swap_failure_state
    (CalcOutGivenIn CalcInGivenOut : Pool -> PoolAsset -> PoolAsset -> Z -> result Z)
    (s : State) (blockTime : Z) (sender : string) (poolId : Z)
    (tokenIn : sdk.Coin) (tokenOutDenom : string) (tokenOutMinAmount : Z)
    (tokenInDenom : string) (tokenInMaxAmount : Z) (tokenOut : sdk.Coin) :
  (forall r s',
      SwapExactAmountIn CalcOutGivenIn s blockTime sender poolId tokenIn
        tokenOutDenom tokenOutMinAmount = (r, s') ->
      fails r ->
      s' = s
      \/ (r = Err ErrInsufficientFunds
          /\ exists pool tokenOutAmount,
               pools s !! poolId = Some pool
               /\ 0 < tokenOutAmount
               /\ staged_stored s s' pool sender tokenIn
                    (sdk.mkCoin tokenOutDenom tokenOutAmount)
               /\ pools s' !! Id pool <> Some pool))
  /\ (forall r s',
      SwapExactAmountOut CalcInGivenOut s blockTime sender poolId tokenInDenom
        tokenInMaxAmount tokenOut = (r, s') ->
      fails r ->
      s' = s
      \/ (r = Err ErrInsufficientFunds
          /\ exists pool tokenInAmount,
               pools s !! poolId = Some pool
               /\ 0 < tokenInAmount
               /\ staged_stored s s' pool sender
                    (sdk.mkCoin tokenInDenom tokenInAmount) tokenOut
               /\ pools s' !! Id pool <> Some pool)).
Proof.
  split.
  - intros r s' H Hf. unfold SwapExactAmountIn in H.
    destruct (String.eqb (sdk.Denom tokenIn) tokenOutDenom) eqn:Ed;
      [inversion H; left; reflexivity|].
    apply String.eqb_neq in Ed.
    destruct (getPoolAndInOutAssets _ _ _ _) as [[[pool inA] outA]| |] eqn:Eg;
      try (inversion H; left; reflexivity).
    apply getPoolAndInOutAssets_Ok in Eg as (Hpool & _ & _).
    destruct (negb _); [inversion H; left; reflexivity|].
    destruct (CalcOutGivenIn _ _ _ _) as [dec| |];
      try (inversion H; left; reflexivity).
    destruct (sdk.TruncateInt dec <=? 0) eqn:E0; [inversion H; left; reflexivity|].
    destruct (_ <? _); [inversion H; left; reflexivity|].
    cbv zeta in H. apply Z.leb_gt in E0.
    apply lift_failure in H as (r1 & Hu & Hf1 & Herr); [|exact Hf].
    destruct (updatePoolForSwap_failure s s' pool sender tokenIn
                (sdk.mkCoin tokenOutDenom (sdk.TruncateInt dec)) r1 Ed Hu Hf1)
      as [-> | [-> Hst]]; [left; reflexivity|].
    right. split; [apply Herr; reflexivity|].
    exists pool, (sdk.TruncateInt dec).
    split; [exact Hpool|]. split; [exact E0|]. split; [exact Hst|].
    destruct Hst as (pool' & Hp' & _ & _ & Bout & _). simpl in Bout.
    rewrite Hp', lookup_insert_eq. intros Heq; inversion Heq as [Heq'].
    rewrite Heq' in Bout. lia.
  - intros r s' H Hf. unfold SwapExactAmountOut in H.
    destruct (String.eqb tokenInDenom (sdk.Denom tokenOut)) eqn:Ed;
      [inversion H; left; reflexivity|].
    apply String.eqb_neq in Ed.
    destruct (getPoolAndInOutAssets _ _ _ _) as [[[pool inA] outA]| |] eqn:Eg;
      try (inversion H; left; reflexivity).
    apply getPoolAndInOutAssets_Ok in Eg as (Hpool & _ & _).
    destruct (negb _); [inversion H; left; reflexivity|].
    cbv zeta in H.
    destruct (_ <=? _); [inversion H; left; reflexivity|].
    destruct (CalcInGivenOut _ _ _ _) as [dec| |];
      try (inversion H; left; reflexivity).
    destruct (sdk.TruncateInt dec <=? 0) eqn:E0; [inversion H; left; reflexivity|].
    destruct (_ <? _); [inversion H; left; reflexivity|].
    apply Z.leb_gt in E0.
    apply lift_failure in H as (r1 & Hu & Hf1 & Herr); [|exact Hf].
    destruct (updatePoolForSwap_failure s s' pool sender
                (sdk.mkCoin tokenInDenom (sdk.TruncateInt dec)) tokenOut r1 Ed Hu Hf1)
      as [-> | [-> Hst]]; [left; reflexivity|].
    right. split; [apply Herr; reflexivity|].
    exists pool, (sdk.TruncateInt dec).
    split; [exact Hpool|]. split; [exact E0|]. split; [exact Hst|].
    destruct Hst as (pool' & Hp' & _ & Bin & _). simpl in Bin.
    rewrite Hp', lookup_insert_eq. intros Heq; inversion Heq as [Heq'].
    rewrite Heq' in Bin. lia.
Qed.

(** A trader without funds offers 100 uatom to the pool of scenario A, for
    at least 1 uosmo. *)
Lemma swap_failure_state_witness :
  snd (SwapExactAmountIn types_CalcOutGivenIn stateA 0 "bob" 1
         (sdk.mkCoin "uatom" 100) "uosmo" 1) = stateA
  \/ (fst (SwapExactAmountIn types_CalcOutGivenIn stateA 0 "bob" 1
             (sdk.mkCoin "uatom" 100) "uosmo" 1) = Err ErrInsufficientFunds
      /\ exists pool tokenOutAmount,
           pools stateA !! 1 = Some pool
           /\ 0 < tokenOutAmount
           /\ staged_stored stateA
                (snd (SwapExactAmountIn types_CalcOutGivenIn stateA 0 "bob" 1
                        (sdk.mkCoin "uatom" 100) "uosmo" 1))
                pool "bob" (sdk.mkCoin "uatom" 100)
                (sdk.mkCoin "uosmo" tokenOutAmount)
           /\ pools (snd (SwapExactAmountIn types_CalcOutGivenIn stateA 0 "bob" 1
                            (sdk.mkCoin "uatom" 100) "uosmo" 1)) !! Id pool
              <> Some pool).
Proof.
  apply (proj1 (swap_failure_state types_CalcOutGivenIn types_CalcInGivenOut
                  stateA 0 "bob" 1 (sdk.mkCoin "uatom" 100) "uosmo" 1
                  "uatom" 1000 (sdk.mkCoin "uosmo" 90))).
  - apply surjective_pairing.
  - vm_compute. intros a H. discriminate H.
Defined.

(** C6, as stated, fails.  The trader holds no uatom: [updatePoolForSwap]
    stages the balances 1100 and 910, stores the pool and only then asks
    the bank, which refuses; the swap returns the bank's error and the
    stored pool is the staged one, not the pool of before. *)
Lemma swap_failure_leaves_staged_pool :
  fst (updatePoolForSwap stateA poolA "bob"
         (sdk.mkCoin "uatom" 100) (sdk.mkCoin "uosmo" 90))
  = Err ErrInsufficientFunds
  /\ pools (snd (updatePoolForSwap stateA poolA "bob"
                   (sdk.mkCoin "uatom" 100) (sdk.mkCoin "uosmo" 90))) !! 1
     = Some (pool2 1100 1 910 1 100)
  /\ fst (SwapExactAmountIn types_CalcOutGivenIn stateA 0 "bob" 1
            (sdk.mkCoin "uatom" 100) "uosmo" 1)
     = Err ErrInsufficientFunds
  /\ pools (snd (SwapExactAmountIn types_CalcOutGivenIn stateA 0 "bob" 1
                   (sdk.mkCoin "uatom" 100) "uosmo" 1)) !! 1
     = Some (pool2 1100 1 910 1 100)
  /\ pools stateA !! 1 = Some poolA.
Proof. repeat split; vm_compute; reflexivity. Qed.

(** * Two computations that turn against the trader *)

(** C2.  [ExitPool] divides the wrong way round.  For an exit below the
    total of shares with [0 < refundedShares <= totalShares], from a pool of
    non-negative balances, the call does not return the too-many-shares
    error; yet [shareOutRatio = totalShares / refundedShares] is at least
    one, so the amount it computes for every asset is at least the asset's
    whole balance, and as soon as the amount exceeds the balance of one
    asset the call aborts, [sdk.NewCoin] refusing the negative balance it is
    asked to write: nothing is paid out. *)
Theorem ExitPool_overdraws (p : Pool) (exitingShares exitFee : Z) :
  balances_nonneg p ->
  exitingShares < GetTotalShares p ->
  0 < spec_refundedShares exitingShares exitFee <= GetTotalShares p ->
  fst (ExitPool p exitingShares exitFee) <> Err ErrTooManySharesOut
  /\ 10 ^ 18 <= spec_shareOutRatio (GetTotalShares p)
                  (spec_refundedShares exitingShares exitFee)
  /\ Forall (fun a =>
               balance a
               <= spec_exitAmt (spec_shareOutRatio (GetTotalShares p)
                                  (spec_refundedShares exitingShares exitFee))
                    (balance a))
            (PoolAssets p)
  /\ (Exists (overdrawn (spec_shareOutRatio (GetTotalShares p)
                           (spec_refundedShares exitingShares exitFee)))
             (PoolAssets p) ->
      fst (ExitPool p exitingShares exitFee) = Panic NegativeCoinAmount).
Proof.
  intros Hp Hlt Hr.
  pose proof (shareOutRatio_ge_one _ _ Hr) as Hratio.
  split; [|split; [|split]].
  - intros H. apply ExitPool_Err_inv in H. lia.
  - exact Hratio.
  - eapply Forall_impl; [exact Hp|]. simpl. intros a Ha.
    apply exitAmt_ge_balance; assumption.
  - apply ExitPool_overdrawn; lia.
Qed.

(** Half of the 100 shares of a pool that holds 10 of each asset, no exit
    fee: the ratio is 2, the amount computed for each asset is 20, and the
    call aborts on the balance of 10 - 20; the pool is left as it was. *)
Lemma ExitPool_overdraws_witness :
  (fst (ExitPool (pool2 10 1 10 1 100) 50 0) <> Err ErrTooManySharesOut
   /\ 10 ^ 18 <= spec_shareOutRatio 100 50
   /\ Forall (fun a => balance a <= spec_exitAmt (spec_shareOutRatio 100 50) (balance a))
             (PoolAssets (pool2 10 1 10 1 100))
   /\ fst (ExitPool (pool2 10 1 10 1 100) 50 0) = Panic NegativeCoinAmount)
  /\ spec_exitAmt (spec_shareOutRatio 100 50) 10 = 20
  /\ ExitPool (pool2 10 1 10 1 100) 50 0
     = (Panic NegativeCoinAmount, pool2 10 1 10 1 100).
Proof.
  split; [|split; vm_compute; reflexivity].
  destruct (ExitPool_overdraws (pool2 10 1 10 1 100) 50 0) as (H1 & H2 & H3 & H4).
  - repeat constructor; unfold balance; simpl; lia.
  - vm_compute. reflexivity.
  - vm_compute. split; [reflexivity | discriminate].
  - split; [exact H1|]. split; [exact H2|]. split; [exact H3|].
    apply H4. left. unfold overdrawn. vm_compute. split; reflexivity.
Defined.

Lemma chopNonNeg_ge_one (d : Z) :
  sdk.precisionReuse <= d -> 1 <= sdk.chopNonNeg d.
Proof.
  intros H. unfold sdk.chopNonNeg.
  assert (Hs : 0 < sdk.precisionReuse) by (vm_compute; reflexivity).
  assert (Hq : 1 <= Z.quot d sdk.precisionReuse).
  { rewrite Z.quot_div_nonneg by lia. apply Z.div_le_lower_bound; lia. }
  destruct (Z.rem d sdk.precisionReuse =? 0); [exact Hq|].
  destruct (Z.rem d sdk.precisionReuse ?= sdk.fivePrecision); try lia.
  destruct (Z.even _); lia.
Qed.

(** A decimal that is at most minus one (as an integer of 36 digits after
    the point) rounds to a negative decimal. *)
Lemma chopPrecisionAndRound_neg (d : Z) :
  d <= - sdk.precisionReuse -> sdk.chopPrecisionAndRound d <= -1.
Proof.
  intros H. unfold sdk.chopPrecisionAndRound.
  assert (Hs : 0 < sdk.precisionReuse) by (vm_compute; reflexivity).
  destruct (d <? 0) eqn:E; [|lia].
  pose proof (chopNonNeg_ge_one (- d) ltac:(lia)). lia.
Qed.

(** The product of a decimal of at least one and a negative decimal is
    negative. *)
Lemma Mul_neg (d m : Z) :
  sdk.precisionReuse <= d -> m <= -1 -> sdk.Mul d m <= -1.
Proof.
  intros Hd Hm. unfold sdk.Mul. apply chopPrecisionAndRound_neg.
  assert (Hs : 0 < sdk.precisionReuse) by (vm_compute; reflexivity).
  set (s := sdk.precisionReuse) in *. clearbody s.
  assert (0 <= (d - s) * (- m)) by (apply Z.mul_nonneg_nonneg; lia).
  assert (0 <= s * (- m - 1)) by (apply Z.mul_nonneg_nonneg; lia).
  lia.
Qed.

(** A negative decimal divided by a decimal in (0, 1] is negative. *)
Lemma Quo_neg (d d2 : Z) :
  d <= -1 -> 0 < d2 <= sdk.precisionReuse ->
  exists q, sdk.Quo d d2 = Ok q /\ q <= -1.
Proof.
  intros Hd [Hpos Hle]. rewrite Quo_nonzero by lia.
  eexists. split; [reflexivity|].
  apply chopPrecisionAndRound_neg.
  assert (Hs : 0 < sdk.precisionReuse) by (vm_compute; reflexivity).
  set (s := sdk.precisionReuse) in *. clearbody s.
  replace (d * s * s) with (- ((- d) * s * s)) by ring.
  rewrite Z.quot_opp_l by lia.
  assert (Hn : 0 <= (- d - 1) * (s * s)) by (apply Z.mul_nonneg_nonneg; nia).
  assert (Hss : 0 < s * s) by nia.
  assert (Hge : s * s <= - d * s * s) by lia.
  rewrite Z.quot_div_nonneg by lia.
  assert (s <= (- d * s * s) / d2); [|lia].
  apply Z.div_le_lower_bound; [lia|].
  assert (d2 * s <= s * s) by (apply Z.mul_le_mono_nonneg_r; lia).
  lia.
Qed.

(** C4.  [CalcInAmtGivenOut] does not turn the sign of the solver's amount.
    For a trade below the out balance the base of the power,
    [balanceOut / (balanceOut - tokenOut)], is above one, and so is the
    power; whenever it is, the solver's amount for the in side,
    [balanceIn * (1 - power)], is negative, it stays negative after the
    division by [1 - swapFee], and the call aborts in
    [sdk.NewDecCoinFromDec] instead of returning the amount to pay in. *)
Theorem CalcInAmtGivenOut_panics_on_trade (Pow : Z -> Z -> result Z) (p : Pool)
    (tokenOut : sdk.Coin) (tokenInDenom : string) (swapFee : Z)
    (poolAssetOut poolAssetIn : PoolAsset) (weightRatio y foo : Z) :
  findAsset (PoolAssets p) (sdk.Denom tokenOut) = Some poolAssetOut ->
  findAsset (PoolAssets p) tokenInDenom = Some poolAssetIn ->
  0 < balance poolAssetIn ->
  0 <= swapFee < sdk.OneDec ->
  sdk.Quo (sdk.ToDec (Weight poolAssetOut)) (sdk.ToDec (Weight poolAssetIn))
  = Ok weightRatio ->
  sdk.Quo (sdk.ToDec (balance poolAssetOut))
          (sdk.Sub (sdk.ToDec (balance poolAssetOut))
                   (sdk.ToDec (sdk.Amount tokenOut)))
  = Ok y ->
  Pow y weightRatio = Ok foo ->
  sdk.OneDec < foo ->
  (exists tokenAmountIn,
      solveConstantFunctionInvariant Pow
        (sdk.ToDec (balance poolAssetOut))
        (sdk.Sub (sdk.ToDec (balance poolAssetOut))
                 (sdk.ToDec (sdk.Amount tokenOut)))
        (sdk.ToDec (Weight poolAssetOut))
        (sdk.ToDec (balance poolAssetIn)) (sdk.ToDec (Weight poolAssetIn))
      = Ok tokenAmountIn
      /\ tokenAmountIn < 0)
  /\ CalcInAmtGivenOut Pow p [tokenOut] tokenInDenom swapFee
     = Panic NegativeCoinAmount.
Proof.
  intros Hout Hin Hbal Hfee Hw Hy Hpow Hfoo.
  assert (Hsolve :
    solveConstantFunctionInvariant Pow
      (sdk.ToDec (balance poolAssetOut))
      (sdk.Sub (sdk.ToDec (balance poolAssetOut))
               (sdk.ToDec (sdk.Amount tokenOut)))
      (sdk.ToDec (Weight poolAssetOut))
      (sdk.ToDec (balance poolAssetIn)) (sdk.ToDec (Weight poolAssetIn))
    = Ok (sdk.Mul (sdk.ToDec (balance poolAssetIn)) (sdk.Sub sdk.OneDec foo))).
  { unfold solveConstantFunctionInvariant. rewrite Hw. simpl bind.
    rewrite Hy. simpl bind. rewrite Hpow. reflexivity. }
  assert (Hneg : sdk.Mul (sdk.ToDec (balance poolAssetIn)) (sdk.Sub sdk.OneDec foo)
                 <= -1).
  { apply Mul_neg.
    - unfold sdk.ToDec.
      assert (Hs : 0 < sdk.precisionReuse) by (vm_compute; reflexivity).
      assert (0 <= (balance poolAssetIn - 1) * sdk.precisionReuse)
        by (apply Z.mul_nonneg_nonneg; lia).
      lia.
    - unfold sdk.Sub. lia. }
  split.
  - eexists. split; [exact Hsolve | lia].
  - rewrite (CalcInAmtGivenOut_eq Pow p tokenOut tokenInDenom swapFee
               poolAssetOut poolAssetIn Hout Hin).
    unfold spec_calcInGivenOut.
    rewrite Hsolve. cbn [bind].
    destruct (Quo_neg _ (sdk.Sub sdk.OneDec swapFee) Hneg) as (q & Hq & Hqneg).
    { unfold sdk.Sub, sdk.OneDec in *. lia. }
    rewrite Hq. cbn [bind]. unfold sdk.NewDecCoinFromDec.
    destruct (q <? 0) eqn:E; [reflexivity | lia].
Qed.

(** 90 uosmo asked of the pool of scenario A, which holds 1000, to be paid
    in uatom at the fee 0.003: the base and the power are 1.098901..., the
    solver's amount for the in side is -98.901098901098901, divided by 0.997
    it is -99.198694986057072217, and the call aborts. *)
Lemma CalcInAmtGivenOut_panics_on_trade_witness :
  ((exists tokenAmountIn,
      solveConstantFunctionInvariant osmomath.Pow
        (sdk.ToDec 1000) (sdk.Sub (sdk.ToDec 1000) (sdk.ToDec 90))
        (sdk.ToDec 1) (sdk.ToDec 1000) (sdk.ToDec 1)
      = Ok tokenAmountIn
      /\ tokenAmountIn < 0)
   /\ CalcInAmtGivenOut osmomath.Pow poolA [sdk.mkCoin "uosmo" 90] "uatom"
        (3 * 10 ^ 15)
      = Panic NegativeCoinAmount)
  /\ solveConstantFunctionInvariant osmomath.Pow
       (sdk.ToDec 1000) (sdk.Sub (sdk.ToDec 1000) (sdk.ToDec 90))
       (sdk.ToDec 1) (sdk.ToDec 1000) (sdk.ToDec 1)
     = Ok (-98901098901098901000)
  /\ sdk.Quo (-98901098901098901000) (sdk.Sub sdk.OneDec (3 * 10 ^ 15))
     = Ok (-99198694986057072217).
Proof.
  split; [|split; vm_compute; reflexivity].
  apply (CalcInAmtGivenOut_panics_on_trade osmomath.Pow poolA
           (sdk.mkCoin "uosmo" 90) "uatom" (3 * 10 ^ 15)
           (asset "uosmo" 1000 1) (asset "uatom" 1000 1)
           (10 ^ 18) 1098901098901098901 1098901098901098901).
  - reflexivity.
  - reflexivity.
  - vm_compute. reflexivity.
  - vm_compute. split; [discriminate | reflexivity].
  - vm_compute. reflexivity.
  - vm_compute. reflexivity.
  - vm_compute. reflexivity.
  - vm_compute. reflexivity.
Defined.
